(** * TravelPoint AI service: tool-call extraction and orchestration

    A shallow embedding of the AI service of the TravelPoint backend.
    The service exists in three variants; the one embedded in full is
    the MCP-enabled one, which owns [connectToMcpServer], the backward
    scanning [extractJson] and the MCP branch of [generateAIResponse].
    [Manifest] embeds [buildSystemInstruction], which the service calls
    for the system message of each request and which throws on a
    registry it cannot render.  The extractors of the two siblings are
    embedded next to the main one; their orchestrator is embedded once,
    over a record of what differs between them ([Sibling], [Plain],
    [Lenient]).  Around the service, [Auth] embeds the guards of the
    routes, [Controller] the chat endpoint and [McpServer] the key check
    and the write tools of the stand-alone MCP server, whose calls to the
    database are recorded as a history.

    Conventions of the embedding:
    - a JavaScript string is the list of its UTF-16 code units ([jstr]);
      the literals written in this file are ASCII;
    - a JavaScript value coming out of [JSON.parse] is a [JValue]; numbers
      are kept as exact decimals [m * 10^e] (binary64 rounding is not
      modelled, and what is stated of a number read by [parseInt] is
      kept to the integers below 2^53, which binary64 holds exactly);
    - a call that may throw returns an [Outcome]; what is thrown is an
      [Error] with a message;
    - calls to the outside world (model endpoints, booking tools, the MCP
      provider) are oracles of an [Env] and are recorded as [Event]s, so
      that "which executor ran, with what" is a statement on a trace. *)

From Stdlib Require Import List String Ascii ZArith NArith Lia Bool Arith.
Import ListNotations.

Set Implicit Arguments.

(** ** JavaScript strings *)

Module Str.

Definition jstr := list N.

Definition lit (s : string) : jstr :=
  map N_of_ascii (list_ascii_of_string s).

(** [jq] writes a text in which every apostrophe stands for a double
    quote (code unit 34); it keeps JSON samples readable. *)
Definition jq (s : string) : jstr :=
  map (fun c => if N.eqb c 39 then 34%N else c) (lit s).

Fixpoint eqb (a b : jstr) : bool :=
  match a, b with
  | [], [] => true
  | x :: a', y :: b' => N.eqb x y && eqb a' b'
  | _, _ => false
  end.

Fixpoint starts_with (pat s : jstr) : bool :=
  match pat, s with
  | [], _ => true
  | p :: pat', c :: s' => N.eqb p c && starts_with pat' s'
  | _ :: _, [] => false
  end.

(** [s.substring(i, j)] for [i <= j]. *)
Definition substring (i j : nat) (s : jstr) : jstr :=
  firstn (j - i) (skipn i s).

(** The class [\s] of regular expressions, which is also what
    [String.prototype.trim] removes. *)
Definition is_space (c : N) : bool :=
  ((9 <=? c) && (c <=? 13) || (c =? 32) || (c =? 160) || (c =? 5760)
   || (8192 <=? c) && (c <=? 8202) || (c =? 8232) || (c =? 8233)
   || (c =? 8239) || (c =? 8287) || (c =? 12288) || (c =? 65279))%N.

Fixpoint drop_spaces (s : jstr) : jstr :=
  match s with
  | c :: r => if is_space c then drop_spaces r else s
  | [] => []
  end.

Definition trim (s : jstr) : jstr :=
  rev (drop_spaces (rev (drop_spaces s))).

(** [s.replace(/<pat>\s*/g, "")] for a literal, non-empty [pat] that
    starts with no white space: matches are taken leftmost first and do
    not overlap.  [pending] counts the code units of the current match
    still to be dropped; [tail] tells that the scan is inside the [\s*]
    part of a match. *)
Fixpoint remove_with_spaces (pat : jstr) (pending : nat) (tail : bool)
    (s : jstr) : jstr :=
  match s with
  | [] => []
  | c :: r =>
      match pending with
      | S p => remove_with_spaces pat p true r
      | O =>
          if tail && is_space c then remove_with_spaces pat 0 true r
          else if starts_with pat s
               then remove_with_spaces pat (List.length pat - 1) true r
               else c :: remove_with_spaces pat 0 false r
      end
  end.

(** [s.replace(/\r\n/g, "\n")] *)
Fixpoint crlf_to_lf (s : jstr) : jstr :=
  match s with
  | 13%N :: 10%N :: r => 10%N :: crlf_to_lf r
  | c :: r => c :: crlf_to_lf r
  | [] => []
  end.

(** [s.replace(/[\x00-\x1F\x7F]/g, "")] *)
Definition is_control (c : N) : bool := ((c <=? 31) || (c =? 127))%N.

Definition remove_control (s : jstr) : jstr :=
  filter (fun c => negb (is_control c)) s.

(** [s.includes(pat)] *)
Fixpoint includes (pat s : jstr) : bool :=
  starts_with pat s ||
  match s with
  | [] => false
  | _ :: r => includes pat r
  end.

(** A template literal given by its lines, each of them followed by a
    line feed; a backquote, which such a literal cannot hold, stands for
    a double quote. *)
Definition template_lines (lines : list string) : jstr :=
  flat_map (fun l => map (fun c => if N.eqb c 96 then 34%N else c) (lit l)
                     ++ [10%N])
           lines.

Fixpoint count (c : N) (s : jstr) : nat :=
  match s with
  | [] => 0
  | x :: r => (if N.eqb x c then 1 else 0) + count c r
  end.

(** Decimal digits of a natural number, as code units. *)
Fixpoint of_uint (d : Decimal.uint) : jstr :=
  match d with
  | Decimal.Nil => []
  | Decimal.D0 r => 48%N :: of_uint r
  | Decimal.D1 r => 49%N :: of_uint r
  | Decimal.D2 r => 50%N :: of_uint r
  | Decimal.D3 r => 51%N :: of_uint r
  | Decimal.D4 r => 52%N :: of_uint r
  | Decimal.D5 r => 53%N :: of_uint r
  | Decimal.D6 r => 54%N :: of_uint r
  | Decimal.D7 r => 55%N :: of_uint r
  | Decimal.D8 r => 56%N :: of_uint r
  | Decimal.D9 r => 57%N :: of_uint r
  end.

Definition of_N (n : N) : jstr := of_uint (N.to_uint n).

End Str.

Import Str.


(** ** JavaScript values and [JSON.parse] *)

Module Json.

(** The values the service handles: what [JSON.parse] produces, plus
    [undefined] (the value of a missing property).  [JNum m e] is the
    number [m * 10^e]. *)
#[warnings="-register-all"]
Inductive JValue : Type :=
  | JUndefined
  | JNull
  | JBool (b : bool)
  | JNum (m e : Z)
  | JStr (s : jstr)
  | JArr (items : list JValue)
  | JObj (fields : list (jstr * JValue)).

(** A thrown [Error]; only its [message] is ever read. *)
Record JsError : Type := mkError { message : jstr }.

Inductive Outcome (A : Type) : Type :=
  | Returned (a : A)
  | Threw (e : JsError).
Arguments Returned {A} a.
Arguments Threw {A} e.

(** Own properties of a plain object, in insertion order, one binding
    per key. *)
Fixpoint obj_get (fields : list (jstr * JValue)) (k : jstr) : JValue :=
  match fields with
  | [] => JUndefined
  | (k', v) :: r => if Str.eqb k' k then v else obj_get r k
  end.

Fixpoint obj_has (fields : list (jstr * JValue)) (k : jstr) : bool :=
  match fields with
  | [] => false
  | (k', _) :: r => Str.eqb k' k || obj_has r k
  end.

Fixpoint obj_set (fields : list (jstr * JValue)) (k : jstr) (v : JValue)
    : list (jstr * JValue) :=
  match fields with
  | [] => [(k, v)]
  | (k', v') :: r =>
      if Str.eqb k' k then (k, v) :: r else (k', v') :: obj_set r k v
  end.

Definition obj_delete (fields : list (jstr * JValue)) (k : jstr)
    : list (jstr * JValue) :=
  filter (fun kv => negb (Str.eqb (fst kv) k)) fields.

(** *** The JSON grammar *)

Definition is_json_ws (c : N) : bool :=
  ((c =? 32) || (c =? 9) || (c =? 10) || (c =? 13))%N.

Fixpoint skip_ws (s : jstr) : jstr :=
  match s with
  | c :: r => if is_json_ws c then skip_ws r else s
  | [] => []
  end.

Definition is_digit (c : N) : bool := ((48 <=? c) && (c <=? 57))%N.

Definition hex_value (c : N) : option N :=
  if is_digit c then Some (c - 48)%N
  else if ((97 <=? c) && (c <=? 102))%N then Some (c - 87)%N
  else if ((65 <=? c) && (c <=? 70))%N then Some (c - 55)%N
  else None.

Fixpoint take_digits (s : jstr) : jstr * jstr :=
  match s with
  | c :: r =>
      if is_digit c then let (d, rest) := take_digits r in (c :: d, rest)
      else ([], s)
  | [] => ([], [])
  end.

Definition digits_value (d : jstr) : Z :=
  fold_left (fun acc c => (acc * 10 + (Z.of_N c - 48))%Z) d 0%Z.

Definition unescape (e : N) : option N :=
  if (e =? 34)%N then Some 34%N           (* quote *)
  else if (e =? 92)%N then Some 92%N      (* backslash *)
  else if (e =? 47)%N then Some 47%N      (* slash *)
  else if (e =? 98)%N then Some 8%N       (* b: backspace *)
  else if (e =? 102)%N then Some 12%N     (* f: form feed *)
  else if (e =? 110)%N then Some 10%N     (* n: line feed *)
  else if (e =? 114)%N then Some 13%N     (* r: carriage return *)
  else if (e =? 116)%N then Some 9%N      (* t: tab *)
  else None.

Definition hex4 (a b c d : N) : option N :=
  match hex_value a, hex_value b, hex_value c, hex_value d with
  | Some a, Some b, Some c, Some d =>
      Some (((a * 16 + b) * 16 + c) * 16 + d)%N
  | _, _, _, _ => None
  end.

Definition prepend (c : option N) (parsed : option (jstr * jstr))
    : option (jstr * jstr) :=
  match c, parsed with
  | Some c, Some (body, rest) => Some (c :: body, rest)
  | _, _ => None
  end.

(** The characters of a string literal after its opening quote; returns
    the decoded string and what follows the closing quote. *)
Fixpoint parse_string_body (s : jstr) : option (jstr * jstr) :=
  match s with
  | [] => None
  | c :: r =>
      if (c =? 34)%N then Some ([], r)
      else if (c =? 92)%N then
        match r with
        | [] => None
        | e :: r1 =>
            if (e =? 117)%N then                          (* u and four hex digits *)
              match r1 with
              | a :: b :: c' :: d :: r2 =>
                  prepend (hex4 a b c' d) (parse_string_body r2)
              | _ => None
              end
            else prepend (unescape e) (parse_string_body r1)
        end
      else if (c <? 32)%N then None
      else prepend (Some c) (parse_string_body r)
  end.

(** A number literal: an optional minus sign, an integer part (a single
    zero, or digits starting with a non-zero one), an optional fraction
    (a dot and digits) and an optional exponent (e or E, an optional
    sign, digits). *)
Definition take_minus (s : jstr) : bool * jstr :=
  match s with
  | c :: r => if (c =? 45)%N then (true, r) else (false, s)
  | [] => (false, s)
  end.

Definition some_digits (s : jstr) : option (jstr * jstr) :=
  match take_digits s with
  | ([], _) => None
  | (d, r) => Some (d, r)
  end.

Definition scan_integer (s : jstr) : option (jstr * jstr) :=
  match s with
  | c :: r => if (c =? 48)%N then Some ([48%N], r) else some_digits s
  | [] => None
  end.

Definition scan_fraction (s : jstr) : option (jstr * jstr) :=
  match s with
  | c :: r => if (c =? 46)%N then some_digits r else Some ([], s)
  | [] => Some ([], s)
  end.

Definition take_sign (s : jstr) : bool * jstr :=
  match s with
  | c :: r =>
      if (c =? 45)%N then (true, r)
      else if (c =? 43)%N then (false, r)
      else (false, s)
  | [] => (false, s)
  end.

Definition scan_exponent (s : jstr) : option (Z * jstr) :=
  match s with
  | c :: r =>
      if ((c =? 101) || (c =? 69))%N then
        let (neg, r1) := take_sign r in
        match some_digits r1 with
        | Some (d, r2) =>
            Some ((if neg then - digits_value d else digits_value d)%Z, r2)
        | None => None
        end
      else Some (0%Z, s)
  | [] => Some (0%Z, s)
  end.

Definition parse_number (s : jstr) : option (JValue * jstr) :=
  let (neg, s1) := take_minus s in
  match scan_integer s1 with
  | None => None
  | Some (ds, s2) =>
      match scan_fraction s2 with
      | None => None
      | Some (fs, s3) =>
          match scan_exponent s3 with
          | None => None
          | Some (ex, s4) =>
              let m := digits_value (ds ++ fs) in
              Some (JNum (if neg then - m else m)%Z
                         (ex - Z.of_nat (List.length fs))%Z, s4)
          end
      end
  end.

Definition parse_literal (s : jstr) : option (JValue * jstr) :=
  if starts_with (lit "true") s then Some (JBool true, skipn 4 s)
  else if starts_with (lit "false") s then Some (JBool false, skipn 5 s)
  else if starts_with (lit "null") s then Some (JNull, skipn 4 s)
  else parse_number s.

Definition starts_with_char (c : N) (s : jstr) : bool :=
  match s with
  | x :: _ => N.eqb x c
  | [] => false
  end.

(** Recursive descent.  Every recursive call is made after at least one
    code unit was consumed, so that fuel beyond twice the length of the
    text changes nothing (see [JSON_parse_fuel]). *)
Fixpoint parse_value (fuel : nat) (s : jstr) : option (JValue * jstr) :=
  match fuel with
  | O => None
  | S fuel =>
      match skip_ws s with
      | [] => None
      | c :: r =>
          if (c =? 123)%N then                            (* an object *)
            if starts_with_char 125 (skip_ws r)
            then Some (JObj [], tl (skip_ws r))
            else parse_members fuel [] r
          else if (c =? 91)%N then                        (* an array *)
            if starts_with_char 93 (skip_ws r)
            then Some (JArr [], tl (skip_ws r))
            else parse_elements fuel [] r
          else if (c =? 34)%N then                        (* a string *)
            match parse_string_body r with
            | Some (str, rest) => Some (JStr str, rest)
            | None => None
            end
          else parse_literal (c :: r)
      end
  end

with parse_members (fuel : nat) (acc : list (jstr * JValue)) (s : jstr)
    : option (JValue * jstr) :=
  match fuel with
  | O => None
  | S fuel =>
      if starts_with_char 34 (skip_ws s) then
        match parse_string_body (tl (skip_ws s)) with
        | Some (key, r1) =>
            if starts_with_char 58 (skip_ws r1) then      (* a colon *)
              match parse_value fuel (tl (skip_ws r1)) with
              | Some (v, r2) =>
                  if starts_with_char 44 (skip_ws r2)
                  then parse_members fuel (obj_set acc key v) (tl (skip_ws r2))
                  else if starts_with_char 125 (skip_ws r2)
                  then Some (JObj (obj_set acc key v), tl (skip_ws r2))
                  else None
              | None => None
              end
            else None
        | None => None
        end
      else None
  end

with parse_elements (fuel : nat) (acc : list JValue) (s : jstr)
    : option (JValue * jstr) :=
  match fuel with
  | O => None
  | S fuel =>
      match parse_value fuel s with
      | Some (v, r1) =>
          if starts_with_char 44 (skip_ws r1)
          then parse_elements fuel (acc ++ [v]) (tl (skip_ws r1))
          else if starts_with_char 93 (skip_ws r1)
          then Some (JArr (acc ++ [v]), tl (skip_ws r1))
          else None
      | None => None
      end
  end.

(** [JSON.parse(text)]: [None] stands for the [SyntaxError].  Leading
    white space is skipped before the value is read, and only white
    space may follow it. *)
Definition JSON_parse (text : jstr) : option JValue :=
  let s := skip_ws text in
  match parse_value (2 * List.length s + 2) s with
  | Some (v, rest) =>
      match skip_ws rest with
      | [] => Some v
      | _ => None
      end
  | None => None
  end.

End Json.

Import Json.

(** ** The JavaScript operations the service applies to such values *)

Module Js.

Inductive JsType : Type := TUndefined | TObject | TBoolean | TNumber | TString.

Definition typeof (v : JValue) : JsType :=
  match v with
  | JUndefined => TUndefined
  | JNull | JArr _ | JObj _ => TObject
  | JBool _ => TBoolean
  | JNum _ _ => TNumber
  | JStr _ => TString
  end.

Definition is_object_type (v : JValue) : bool :=
  match typeof v with TObject => true | _ => false end.

Definition is_string_type (v : JValue) : bool :=
  match typeof v with TString => true | _ => false end.

(** ToBoolean *)
Definition truthy (v : JValue) : bool :=
  match v with
  | JUndefined | JNull => false
  | JBool b => b
  | JNum m _ => negb (m =? 0)%Z
  | JStr s => match s with [] => false | _ => true end
  | JArr _ | JObj _ => true
  end.

(** [a || b] *)
Definition or_else (a b : JValue) : JValue := if truthy a then a else b.

(** [v === "text"] *)
Definition is_string (v : JValue) (text : jstr) : bool :=
  match v with JStr s => Str.eqb s text | _ => false end.

(** The message of the [TypeError] of a property read, as Node words
    it. *)
Definition type_error (what k : jstr) : JsError :=
  mkError (lit "Cannot read properties of " ++ what ++ lit " (reading '"
           ++ k ++ lit "')").

(** [v.k].  Reading a property of [null] or [undefined] throws; arrays
    and primitives have none of the property names this service reads
    ([tool], [args], [query], [bookingId], ...), which are neither
    indices nor prototype members. *)
Definition get_prop (v : JValue) (k : jstr) : Outcome JValue :=
  match v with
  | JUndefined => Threw (type_error (lit "undefined") k)
  | JNull => Threw (type_error (lit "null") k)
  | JObj fields => Returned (obj_get fields k)
  | _ => Returned JUndefined
  end.

(** Own enumerable properties, as [{...v}] copies them. *)
Fixpoint indexed (i : N) (items : list JValue) : list (jstr * JValue) :=
  match items with
  | [] => []
  | x :: r => (Str.of_N i, x) :: indexed (i + 1) r
  end.

Definition spread (v : JValue) : list (jstr * JValue) :=
  match v with
  | JObj fields => fields
  | JArr items => indexed 0 items
  | JStr s => indexed 0 (map (fun c => JStr [c]) s)
  | _ => []
  end.

(** [{...a, ...b}] for property lists *)
Definition merge (a b : list (jstr * JValue)) : list (jstr * JValue) :=
  fold_left (fun acc kv => obj_set acc (fst kv) (snd kv)) b a.

(** *** Number::toString on exact decimals *)

Fixpoint strip_zeros (rev_digits : jstr) : jstr * nat :=
  match rev_digits with
  | 48%N :: r => let (d, z) := strip_zeros r in (d, S z)
  | _ => (rev_digits, 0)
  end.

Definition zeros (n : nat) : jstr := repeat 48%N n.

Definition number_to_string (m e : Z) : jstr :=
  if (m =? 0)%Z then lit "0"
  else
    let sign := if (m <? 0)%Z then lit "-" else [] in
    let (rd, z) := strip_zeros (rev (Str.of_N (Z.abs_N m))) in
    let s := rev rd in
    let k := Z.of_nat (List.length s) in
    let n := (k + e + Z.of_nat z)%Z in
    sign ++
    (if ((k <=? n) && (n <=? 21))%Z then s ++ zeros (Z.to_nat (n - k))
     else if ((0 <? n) && (n <=? 21))%Z
     then firstn (Z.to_nat n) s ++ lit "." ++ skipn (Z.to_nat n) s
     else if ((-6 <? n) && (n <=? 0))%Z
     then lit "0." ++ zeros (Z.to_nat (- n)) ++ s
     else
       let ex := (if (n - 1 <? 0)%Z then lit "-" else lit "+")
                 ++ Str.of_N (Z.abs_N (n - 1)) in
       match s with
       | [d] => [d] ++ lit "e" ++ ex
       | d :: r => [d] ++ lit "." ++ r ++ lit "e" ++ ex
       | [] => []
       end).

(** ToString.  A parsed object that carries its own [toString] property
    hides [Object.prototype.toString] behind a value that cannot be
    called, and the conversion throws. *)
Fixpoint to_string (v : JValue) : Outcome jstr :=
  match v with
  | JUndefined => Returned (lit "undefined")
  | JNull => Returned (lit "null")
  | JBool true => Returned (lit "true")
  | JBool false => Returned (lit "false")
  | JNum m e => Returned (number_to_string m e)
  | JStr s => Returned s
  | JObj fields =>
      if obj_has fields (lit "toString")
      then Threw (mkError (lit "Cannot convert object to primitive value"))
      else Returned (lit "[object Object]")
  | JArr items =>
      (fix join (l : list JValue) (first : bool) : Outcome jstr :=
         match l with
         | [] => Returned []
         | x :: r =>
             let piece :=
               match x with
               | JUndefined | JNull => Returned []
               | _ => to_string x
               end in
             match piece, join r false with
             | Returned p, Returned q =>
                 Returned ((if first then [] else lit ",") ++ p ++ q)
             | Threw err, _ => Threw err
             | _, Threw err => Threw err
             end
         end) items true
  end.

(** *** [parseInt(v)] without a radix; [None] is [NaN]

    The integer read is kept exact, where the code gets the binary64
    nearest to it: the two are the same number below 2^53 in absolute
    value, and the statements on the number read are kept to that
    range.  Likewise the text of a number is the text of its exact
    decimal, which is the text the code gets for an integer below
    2^53. *)

Definition digit_in (radix : N) (c : N) : option N :=
  match hex_value c with
  | Some d => if (d <? radix)%N then Some d else None
  | None => None
  end.

Fixpoint read_digits (radix : N) (s : jstr) (acc : option Z) : option Z :=
  match s with
  | c :: r =>
      match digit_in radix c with
      | Some d =>
          read_digits radix r
            (Some (match acc with
                   | Some a => a * Z.of_N radix + Z.of_N d
                   | None => Z.of_N d
                   end)%Z)
      | None => acc
      end
  | [] => acc
  end.

Definition parseInt_string (text : jstr) : option Z :=
  let s := drop_spaces text in
  let (neg, s1) :=
    match s with
    | 45%N :: r => (true, r)
    | 43%N :: r => (false, r)
    | _ => (false, s)
    end in
  let (radix, s2) :=
    match s1 with
    | 48%N :: x :: r =>
        if ((x =? 120) || (x =? 88))%N then (16%N, r) else (10%N, s1)
    | _ => (10%N, s1)
    end in
  match read_digits radix s2 None with
  | Some z => Some (if neg then - z else z)%Z
  | None => None
  end.

Definition parseInt (v : JValue) : Outcome (option Z) :=
  match to_string v with
  | Returned text => Returned (parseInt_string text)
  | Threw err => Threw err
  end.

Definition isNaN (n : option Z) : bool :=
  match n with None => true | Some _ => false end.

End Js.

Import Js.

(** ** The tool-call extractor *)

Module Extractor.

(** The chain of [replace] calls and the final [trim] at the head of
    [extractJson]. *)
Definition clean_text (text : jstr) : jstr :=
  trim
    (remove_control
       (crlf_to_lf
          (remove_with_spaces (lit "```") 0 false
             (remove_with_spaces (lit "```json") 0 false text)))).

Definition close_brace : N := 125.
Definition open_brace : N := 123.

(** [clean[i] === c] *)
Definition char_is (clean : jstr) (i : nat) (c : N) : bool :=
  match nth_error clean i with
  | Some x => N.eqb x c
  | None => false
  end.

(** The first loop: the positions of the closing braces below [n], the
    rightmost first. *)
Fixpoint closing_indices (clean : jstr) (n : nat) : list nat :=
  match n with
  | O => []
  | S i =>
      if char_is clean i close_brace
      then i :: closing_indices clean i
      else closing_indices clean i
  end.

(** The test a parsed candidate has to pass:
    [parsed && typeof parsed === 'object' && parsed.tool]. *)
Definition has_tool (parsed : JValue) : bool :=
  truthy parsed && is_object_type parsed &&
  match get_prop parsed (lit "tool") with
  | Returned t => truthy t
  | Threw _ => false
  end.

(** [JSON.parse(candidate)] inside its [try], followed by the test. *)
Definition accepts (candidate : jstr) : bool :=
  match JSON_parse candidate with
  | Some parsed => has_tool parsed
  | None => false
  end.

Definition step_balance (clean : jstr) (i : nat) (balance : Z) : Z :=
  let b1 := if char_is clean i close_brace then (balance + 1)%Z else balance in
  if char_is clean i open_brace then (b1 - 1)%Z else b1.

(** The inner loop [for (let i = closeIdx; i >= 0; i--)]; [k] is [i + 1]
    for the next [i] to visit. *)
Fixpoint walk_back (clean : jstr) (closeIdx : nat) (k : nat) (balance : Z)
    : option jstr :=
  match k with
  | O => None
  | S i =>
      let balance' := step_balance clean i balance in
      if (balance' =? 0)%Z then
        let candidate := substring i (closeIdx + 1) clean in
        if accepts candidate then Some candidate
        else walk_back clean closeIdx i balance'
      else walk_back clean closeIdx i balance'
  end.

(** The outer loop over [closingIndices]. *)
Fixpoint first_match (clean : jstr) (closing : list nat) : option jstr :=
  match closing with
  | [] => None
  | closeIdx :: rest =>
      match walk_back clean closeIdx (closeIdx + 1) 0 with
      | Some candidate => Some candidate
      | None => first_match clean rest
      end
  end.

(** [extractJson(text)]; [None] is [null]. *)
Definition extractJson (text : jstr) : option jstr :=
  let clean := clean_text text in
  first_match clean (closing_indices clean (List.length clean)).

(** *** The extractors of the two sibling variants of the service

    Both cut the cleaned text from its first opening brace to its last
    closing brace, without parsing it.  The variant without MCP returns
    [null] when there is no such span; the other one returns the cleaned
    text itself. *)

Fixpoint index_of (c : N) (s : jstr) : option nat :=
  match s with
  | [] => None
  | x :: r =>
      if N.eqb x c then Some 0
      else match index_of c r with
           | Some i => Some (S i)
           | None => None
           end
  end.

Fixpoint last_index_of (c : N) (s : jstr) : option nat :=
  match s with
  | [] => None
  | x :: r =>
      match last_index_of c r with
      | Some i => Some (S i)
      | None => if N.eqb x c then Some 0 else None
      end
  end.

(** [s.replace(/\s+/g, " ")]; [in_run] tells that the previous code
    unit was white space already. *)
Fixpoint squeeze_spaces (in_run : bool) (s : jstr) : jstr :=
  match s with
  | [] => []
  | c :: r =>
      if is_space c
      then (if in_run then [] else [32%N]) ++ squeeze_spaces true r
      else c :: squeeze_spaces false r
  end.

(** [clean.substring(start, end + 1)] and its tidying up, when
    [start !== -1 && end !== -1 && end > start]. *)
Definition brace_span (clean : jstr) : option jstr :=
  match index_of open_brace clean, last_index_of close_brace clean with
  | Some start, Some end_ =>
      if start <? end_ then
        Some (trim (squeeze_spaces false
                      (map (fun c => if N.eqb c 10 then 32%N else c)
                           (substring start (end_ + 1) clean))))
      else None
  | _, _ => None
  end.

Definition extractJson_first_to_last (text : jstr) : option jstr :=
  brace_span (clean_text text).

Definition extractJson_or_clean (text : jstr) : option jstr :=
  match brace_span (clean_text text) with
  | Some finalJson => Some finalJson
  | None => Some (clean_text text)
  end.

End Extractor.

Import Extractor.

(** ** The outside world: events and the effect monad *)

Module World.

Inductive Role : Type := System | User | Assistant.

Record Message : Type := mkMessage { role : Role; content : jstr }.

(** The argument of [hf.chatCompletion]; [temperature] is an exact
    decimal [m * 10^e] when given. *)
Record ChatRequest : Type := mkChat {
  model : jstr;
  messages : list Message;
  max_tokens : Z;
  temperature : option (Z * Z)
}.

(** One part of the [content] of an MCP tool result: a text part, or a
    part of another type (which contributes the empty string). *)
Inductive McpPart : Type :=
  | TextPart (text : jstr)
  | OtherPart.

Record McpTool : Type := mkTool {
  name : jstr;
  description : jstr;
  inputSchema : JValue
}.

(** How [Promise.race([connectionPromise, timeoutPromise])] settles. *)
Inductive Handshake : Type :=
  | Established
  | Rejected (e : JsError)
  | TimedOut.

Inductive Event : Type :=
  | EvChat (req : ChatRequest)
  | EvSearchTrips (query : JValue)
  | EvGetBookingDetails (bookingId : Z)
  | EvCancelTicket (bookingId : Z)
  | EvBookTicket (tripId : JValue) (userId : Z) (pickupId dropId amount : JValue)
  | EvMcpConnect
  | EvMcpListTools
  | EvMcpCallTool (tool : jstr) (arguments : JValue).

(** A computation: the events it caused, and how it ended. *)
Definition Eff (A : Type) : Type := (list Event * Outcome A)%type.

Definition ret {A} (a : A) : Eff A := ([], Returned a).

Definition throw {A} (e : JsError) : Eff A := ([], Threw e).

Definition bind {A B} (m : Eff A) (k : A -> Eff B) : Eff B :=
  match m with
  | (t1, Returned a) => let (t2, r) := k a in (t1 ++ t2, r)
  | (t1, Threw e) => (t1, Threw e)
  end.

(** [try { m } catch (e) { handler e }] *)
Definition try_catch {A} (m : Eff A) (handler : JsError -> Eff A) : Eff A :=
  match m with
  | (t1, Threw e) => let (t2, r) := handler e in (t1 ++ t2, r)
  | done => done
  end.

(** An awaited call to the outside. *)
Definition call {A} (ev : Event) (result : Outcome A) : Eff A := ([ev], result).

(** A pure step that may throw. *)
Definition lift {A} (o : Outcome A) : Eff A := ([], o).

Definition trace {A} (m : Eff A) : list Event := fst m.
Definition outcome {A} (m : Eff A) : Outcome A := snd m.

(** Events of a computation all pass a test. *)
Definition events_pass {A : Type} (test : Event -> bool) (m : Eff A) : Prop :=
  forallb test (trace m) = true.

End World.

Import World.

Notation "x <- m ;; k" := (bind m (fun x => k))
  (at level 61, m at next level, right associativity).

(** ** The system instruction *)

Module Manifest.

(** What [buildSystemInstruction] reads from [new Date()]:
    [toISOString()], the long date [toLocaleDateString('en-US', ...)] and
    [getFullYear()]. *)
Record Clock : Type := mkClock {
  toISOString : jstr;
  humanDate : jstr;
  getFullYear : Z
}.

(** The template literal [SYSTEM_INSTRUCTION_BASE], line by line. *)
Definition SYSTEM_INSTRUCTION_BASE : jstr :=
  template_lines
    [ "You are the Travel Point AI Assistant. You help users with bus bookings and calendar management.";
      "";
      "<tools>";
      "  <tool name=`get_booking_details`>";
      "    <description>Get status and details of a specific booking</description>";
      "    <parameters>";
      "      <parameter name=`bookingId` type=`number` required=`true`>The booking ID to check</parameter>";
      "    </parameters>";
      "  </tool>";
      "  ";
      "  <tool name=`search_trips`>";
      "    <description>Search for available bus trips</description>";
      "    <parameters>";
      "      <parameter name=`query` type=`string` required=`true`>Search query with city names or bus type</parameter>";
      "    </parameters>";
      "  </tool>";
      "  ";
      "  <tool name=`cancel_booking`>";
      "    <description>Cancel a booking and process refund</description>";
      "    <parameters>";
      "      <parameter name=`bookingId` type=`number` required=`true`>The booking ID to cancel</parameter>";
      "    </parameters>";
      "  </tool>";
      "  ";
      "  <tool name=`book_ticket`>";
      "    <description>Book a new ticket</description>";
      "    <parameters>";
      "      <parameter name=`tripId` type=`number` required=`true`>Trip ID to book</parameter>";
      "      <parameter name=`pickupId` type=`number` required=`true`>Pickup stop ID</parameter>";
      "      <parameter name=`dropId` type=`number` required=`true`>Drop stop ID</parameter>";
      "      <parameter name=`amount` type=`number` required=`true`>Amount to pay</parameter>";
      "    </parameters>";
      "  </tool>";
      "</tools>";
      "";
      "<instructions>";
      "CRITICAL RULES:";
      "1. When user requests booking info, use `get_booking_details` tool";
      "2. When user wants to search buses, use `search_trips` tool";
      "3. When user wants to cancel/refund, use `cancel_booking` tool";
      "4. When user wants to book a ticket, use `book_ticket` tool";
      "";
      "To call a tool, reply with ONLY valid JSON in this EXACT format:";
      "{`tool`: `tool_name`, `args`: {`paramName`: value}}";
      "";
      "If the user is just chatting (hello, thanks, etc), reply normally without JSON.";
      "</instructions>" ]%string.

(** The template literal appended last. *)
Definition closing_instructions : jstr :=
  template_lines
    [ "</tools>";
      "";
      "<instructions>";
      "CRITICAL RULES:";
      "1. When user requests booking info, use `get_booking_details` tool";
      "2. When user wants to search buses, use `search_trips` tool";
      "3. When user wants to cancel/refund, use `cancel_booking` tool";
      "4. When user wants to book a ticket, use `book_ticket` tool";
      "5. When user wants calendar operations, use the appropriate Google Calendar tool";
      "";
      "CALENDAR TOOL RULES (STRICT):";
      "- For `create-event`, do NOT use a nested 'event' object. Place summary, description, start, and end directly in the top-level arguments alongside calendarId.";
      "- ALWAYS use 'primary' as the calendarId unless specified otherwise.";
      "- ALWAYS use 'normal' as the account nickname.";
      "- Start/End times MUST be plain strings (ISO format), NOT objects.";
      "";
      "To call a tool, reply with ONLY valid JSON in this EXACT format:";
      "{`tool`: `tool_name`, `args`: {`paramName`: value}}";
      "";
      "If the user is just chatting (hello, thanks, etc), reply normally without JSON.";
      "</instructions>" ]%string.

Definition header (now : Clock) : jstr :=
  lit "Current System Time: " ++ toISOString now ++ [10%N]
  ++ lit "TODAY IS: " ++ humanDate now ++ [10%N]
  ++ lit "IMPORTANT: The current year is "
  ++ number_to_string (getFullYear now) 0
  ++ lit ". Do NOT use 2023, 2024 or 2025." ++ [10%N].

(** [tool.inputSchema.required?.includes(paramName) || false]: the
    [includes] of an array, or of a string; another value that is neither
    [null] nor [undefined] has none. *)
Definition is_required (inputSchema : JValue) (paramName : jstr)
    : Outcome bool :=
  match get_prop inputSchema (lit "required") with
  | Threw e => Threw e
  | Returned JUndefined => Returned false
  | Returned JNull => Returned false
  | Returned (JArr items) =>
      Returned (existsb (fun v => is_string v paramName) items)
  | Returned (JStr text) => Returned (includes paramName text)
  | Returned _ =>
      Threw (mkError (lit "tool.inputSchema.required?.includes is not a function"))
  end.

(** The line of one parameter. *)
Definition parameter_line (paramName typeText : jstr) (required : bool)
    (descriptionText : jstr) : jstr :=
  lit "      <parameter name=" ++ [34%N] ++ paramName ++ [34%N]
  ++ lit " type=" ++ [34%N] ++ typeText ++ [34%N]
  ++ lit " required=" ++ [34%N]
  ++ (if required then lit "true" else lit "false") ++ [34%N]
  ++ lit ">" ++ descriptionText ++ lit "</parameter>" ++ [10%N].

Definition render_parameter (inputSchema : JValue) (paramName : jstr)
    (schema : JValue) : Eff jstr :=
  required <- lift (is_required inputSchema paramName);;
  type <- lift (get_prop schema (lit "type"));;
  typeText <- lift (to_string (or_else type (JStr (lit "string"))));;
  description <- lift (get_prop schema (lit "description"));;
  descriptionText <- lift (to_string (or_else description (JStr [])));;
  ret (parameter_line paramName typeText required descriptionText).

(** An array index: the canonical decimal text of a number below
    [2^32 - 1]. *)
Definition array_index (key : jstr) : option N :=
  let n := fold_left (fun acc c => (acc * 10 + (c - 48))%N) key 0%N in
  if forallb is_digit key && Str.eqb (Str.of_N n) key && (n <? 4294967295)%N
  then Some n
  else None.

Fixpoint insert_entry (i : N) (entry : jstr * JValue)
    (sorted : list (N * (jstr * JValue))) : list (N * (jstr * JValue)) :=
  match sorted with
  | [] => [(i, entry)]
  | (j, other) :: rest =>
      if (i <? j)%N then (i, entry) :: sorted
      else (j, other) :: insert_entry i entry rest
  end.

(** The own properties of an object in the order of enumeration: array
    indices ascending, then the other names as they were created. *)
Definition own_entries (fields : list (jstr * JValue)) : list (jstr * JValue) :=
  map snd
    (fold_right
       (fun field sorted =>
          match array_index (fst field) with
          | Some i => insert_entry i field sorted
          | None => sorted
          end)
       [] fields)
  ++ filter
       (fun field =>
          match array_index (fst field) with Some _ => false | None => true end)
       fields.

(** [Object.entries(v)] *)
Definition Object_entries (v : JValue) : list (jstr * JValue) :=
  match v with
  | JObj fields => own_entries fields
  | other => spread other
  end.

(** The loop over [Object.entries(tool.inputSchema.properties)]. *)
Fixpoint render_parameters (inputSchema : JValue)
    (entries : list (jstr * JValue)) : Eff jstr :=
  match entries with
  | [] => ret []
  | (paramName, schema) :: rest =>
      line <- render_parameter inputSchema paramName schema;;
      more <- render_parameters inputSchema rest;;
      ret (line ++ more)
  end.

(** The first line of the block of a tool. *)
Definition tool_line (tool : McpTool) : jstr :=
  lit "  <tool name=" ++ [34%N] ++ name tool ++ [34%N] ++ lit ">" ++ [10%N].

(** The block of one tool around the lines of its parameters. *)
Definition tool_block (tool : McpTool) (parameters : jstr) : jstr :=
  tool_line tool
  ++ lit "    <description>" ++ description tool ++ lit "</description>"
  ++ [10%N] ++ lit "    <parameters>" ++ [10%N]
  ++ parameters
  ++ lit "    </parameters>" ++ [10%N] ++ lit "  </tool>" ++ [10%N].

Definition render_tool (tool : McpTool) : Eff jstr :=
  properties <-
    match inputSchema tool with
    | JUndefined => ret JUndefined
    | JNull => ret JUndefined
    | schema => lift (get_prop schema (lit "properties"))
    end;;
  parameters <-
    (if truthy properties
     then render_parameters (inputSchema tool) (Object_entries properties)
     else ret []);;
  ret (tool_block tool parameters).

(** The loop over [mcpToolsOrchestration]. *)
Fixpoint render_tools (tools : list McpTool) : Eff jstr :=
  match tools with
  | [] => ret []
  | tool :: rest =>
      block <- render_tool tool;;
      more <- render_tools rest;;
      ret (block ++ more)
  end.

(** [buildSystemInstruction()] at the time [now], for the registry
    [tools]. *)
Definition buildSystemInstruction (now : Clock) (tools : list McpTool)
    : Eff jstr :=
  listed <- render_tools tools;;
  ret (header now ++ SYSTEM_INSTRUCTION_BASE ++ listed ++ closing_instructions).

(** The block of a tool, with one line for each of the given parameter
    names, in their order. *)
Definition announced (tool : McpTool) (names : list jstr) (block : jstr) : Prop :=
  exists lines,
    block = tool_block tool (List.concat lines)
    /\ Forall2
         (fun paramName line =>
            exists typeText required descriptionText,
              line = parameter_line paramName typeText required descriptionText)
         names lines.

(** The parameter names of a tool, as the builder enumerates them. *)
Definition parameter_names (tool : McpTool) : list jstr :=
  match inputSchema tool with
  | JObj fields =>
      if truthy (obj_get fields (lit "properties"))
      then map fst (Object_entries (obj_get fields (lit "properties")))
      else []
  | _ => []
  end.

(** A sample clock. *)
Definition sample_clock : Clock :=
  {| toISOString := lit "2026-11-03T08:30:00.000Z";
     humanDate := lit "Tuesday, November 3, 2026";
     getFullYear := 2026 |}.

End Manifest.

(** ** The outside world: its oracles

    Everything the service calls but does not define.  A chat completion
    answers with [response.choices[0]?.message?.content] ([None] when the
    optional chain yields no text) or throws; a response from which that
    chain cannot be read counts as a throw, since it throws inside the
    same [try].  The booking tools resolve to a text or throw.  [clock]
    is what [new Date()] gives [buildSystemInstruction]; the clock stands
    still while a request is served. *)

Module Outside.

Record Env : Type := mkEnv {
  chatCompletion : ChatRequest -> Outcome (option jstr);
  searchTrips : JValue -> Outcome jstr;
  getBookingDetails : Z -> Outcome jstr;
  cancelTicket : Z -> Outcome jstr;
  bookTicket : JValue -> Z -> JValue -> JValue -> JValue -> Outcome jstr;
  mcp_connect : Handshake;
  mcp_listTools : Outcome (list McpTool);
  mcp_callTool : jstr -> JValue -> Outcome (list McpPart);
  clock : Manifest.Clock
}.

End Outside.

Import Outside.

(** ** The MCP connector *)

Module Connector.

Record McpClient : Type := mkClient {
  client_name : jstr;
  client_version : jstr
}.

(** The two module-level variables [mcpClient] and
    [mcpToolsOrchestration]. *)
Record McpState : Type := mkState {
  mcpClient : option McpClient;
  mcpToolsOrchestration : list McpTool
}.

Definition initial_state : McpState :=
  {| mcpClient := None; mcpToolsOrchestration := [] |}.

Definition new_client : McpClient :=
  {| client_name := lit "TravelPoint-Client"; client_version := lit "1.0.0" |}.

Definition schema_property (key type text : string) : jstr * JValue :=
  (lit key, JObj [(lit "type", JStr (lit type));
                  (lit "description", JStr (lit text))]).

Definition object_schema (properties : list (jstr * JValue))
    (required : list string) : JValue :=
  JObj [(lit "type", JStr (lit "object"));
        (lit "properties", JObj properties);
        (lit "required", JArr (map (fun r => JStr (lit r)) required))].

(** The tool list written out in the handler of a failed discovery. *)
Definition fallback_tools : list McpTool :=
  [ {| name := lit "add-account";
       description := lit "Authenticate a Google account (use this if 'No authenticated accounts' error occurs)";
       inputSchema := object_schema [] [] |};
    {| name := lit "create-event";
       description := lit "Create a new event in Google Calendar";
       inputSchema :=
         object_schema
           [ schema_property "account" "string" "Account nickname (default: 'normal')";
             schema_property "calendarId" "string"
               "Calendar ID - ALWAYS use 'primary' for the user's primary calendar";
             schema_property "summary" "string" "Event title";
             schema_property "description" "string" "Event description";
             schema_property "start" "string"
               "Start time as ISO string (e.g. 2024-01-20T10:00:00)";
             schema_property "end" "string"
               "End time as ISO string (e.g. 2024-01-20T12:00:00)";
             schema_property "location" "string" "Event location" ]
           ["calendarId"; "summary"; "start"; "end"]%string |};
    {| name := lit "list-events";
       description := lit "List events from calendar";
       inputSchema :=
         object_schema
           [ schema_property "account" "string" "Account nickname (default: 'normal')";
             schema_property "calendarId" "string" "Calendar ID (use 'primary')";
             schema_property "timeMin" "string" "Start of time range (ISO format)";
             schema_property "timeMax" "string" "End of time range (ISO format)";
             schema_property "maxResults" "number" "Max events (default 10)" ]
           ["calendarId"]%string |} ].

(** [connectToMcpServer()]: the new state and the value the call
    resolves to ([None] is [undefined]).  [EvMcpConnect] is the launch of
    the provider subprocess by [client.connect(transport)]. *)
Definition connectToMcpServer (env : Env) (st : McpState)
    : list Event * McpState * option McpClient :=
  match mcpClient st with
  | Some client => ([], st, Some client)
  | None =>
      match mcp_connect env with
      | Established =>
          match mcp_listTools env with
          | Returned tools =>
              ([EvMcpConnect; EvMcpListTools],
               {| mcpClient := Some new_client;
                  mcpToolsOrchestration := tools |}, None)
          | Threw _ =>
              ([EvMcpConnect; EvMcpListTools],
               {| mcpClient := Some new_client;
                  mcpToolsOrchestration := fallback_tools |}, None)
          end
      | Rejected _ | TimedOut => ([EvMcpConnect], st, None)
      end
  end.

End Connector.

Import Connector.

(** ** The orchestrator *)

Module Service.

Definition models : list jstr :=
  [ lit "mistralai/Mixtral-8x7B-Instruct-v0.1";
    lit "NousResearch/Hermes-2-Pro-Mistral-7B";
    lit "meta-llama/Meta-Llama-3-8B-Instruct" ].

Definition msg_need_id_status : jstr :=
  lit "I need a valid booking ID number to check the status.".
Definition msg_need_id_cancel : jstr :=
  lit "I need a valid booking ID number to cancel.".
Definition msg_unknown_tool : jstr :=
  lit "I couldn't understand which action to perform. Could you rephrase?".
Definition msg_apology : jstr :=
  lit "I'm having trouble processing your request right now. Please try again in a moment.".
Definition msg_calendar_unconfigured : jstr :=
  lit "I can see you want to use the calendar feature, but the Google Calendar service isn't fully configured yet. Please ask your administrator to set up the calendar credentials.".
Definition truncation_threshold : nat := 4000.
Definition truncation_marker : jstr :=
  10%N :: lit "... (Output truncated due to length limits)".

(** [obj && typeof obj.tool === "string" && obj.args &&
    typeof obj.args === "object"] *)
Definition isValidToolCall (obj : JValue) : bool :=
  truthy obj &&
  match get_prop obj (lit "tool") with
  | Returned t => is_string_type t
  | Threw _ => false
  end &&
  match get_prop obj (lit "args") with
  | Returned a => truthy a && is_object_type a
  | Threw _ => false
  end.

(** *** Argument fix-ups of the MCP branch *)

(** [if (!t.k) t.k = text] *)
Definition set_default (fields : list (jstr * JValue)) (k text : jstr)
    : list (jstr * JValue) :=
  if truthy (obj_get fields k) then fields else obj_set fields k (JStr text).

(** [typeof v === 'object' ? (v.dateTime || v.date) : v] *)
Definition plain_time (v : JValue) : Eff JValue :=
  if is_object_type v then
    dateTime <- lift (get_prop v (lit "dateTime"));;
    date <- lift (get_prop v (lit "date"));;
    ret (or_else dateTime date)
  else ret v.

Definition normalize_create_event (args : JValue) : Eff JValue :=
  let t1 := set_default (spread args) (lit "account") (lit "normal") in
  let t2 := set_default t1 (lit "calendarId") (lit "primary") in
  let evt := obj_get t2 (lit "event") in
  t3 <- (if truthy evt then
           summary <- lift (get_prop evt (lit "summary"));;
           description <- lift (get_prop evt (lit "description"));;
           start <- lift (get_prop evt (lit "start"));;
           end_ <- lift (get_prop evt (lit "end"));;
           ret (obj_delete
                  (merge (merge t2 (spread evt))
                     [ (lit "summary", or_else summary (obj_get t2 (lit "summary")));
                       (lit "description",
                        or_else description (obj_get t2 (lit "description")));
                       (lit "start", or_else start (obj_get t2 (lit "start")));
                       (lit "end", or_else end_ (obj_get t2 (lit "end"))) ])
                  (lit "event"))
         else ret t2);;
  t4 <- (if is_object_type (obj_get t3 (lit "start")) then
           v <- plain_time (obj_get t3 (lit "start"));;
           ret (obj_set t3 (lit "start") v)
         else ret t3);;
  t5 <- (if is_object_type (obj_get t4 (lit "end")) then
           v <- plain_time (obj_get t4 (lit "end"));;
           ret (obj_set t4 (lit "end") v)
         else ret t4);;
  ret (JObj t5).

Definition normalize_list_events (args : JValue) : Eff JValue :=
  let t0 := spread args in
  let account := obj_get t0 (lit "account") in
  let t1 :=
    if negb (truthy account) || is_string account (lit "value")
       || is_string account (lit "your_account")
    then obj_set t0 (lit "account") (JStr (lit "normal")) else t0 in
  let calendarId := obj_get t1 (lit "calendarId") in
  let t2 :=
    if negb (truthy calendarId) || is_string calendarId (lit "value")
       || is_string calendarId (lit "your_calendar_id")
    then obj_set t1 (lit "calendarId") (JStr (lit "primary")) else t1 in
  let t3 :=
    if truthy (obj_get t2 (lit "maxResults")) then t2
    else obj_set t2 (lit "maxResults") (JNum 5 0) in
  ret (JObj t3).

Definition normalize_create_calendar_event (args : JValue) : Eff JValue :=
  evt <- lift (get_prop args (lit "event"));;
  if truthy evt then
    start <- lift (get_prop evt (lit "start"));;
    end_ <- lift (get_prop evt (lit "end"));;
    if is_object_type start || is_object_type end_ then
      start' <- plain_time start;;
      end' <- plain_time end_;;
      ret (JObj (obj_set (spread args) (lit "event")
                   (JObj (merge (spread evt)
                            [(lit "start", start'); (lit "end", end')]))))
    else ret args
  else
    calendarId <- lift (get_prop args (lit "calendarId"));;
    ret (JObj [ (lit "calendarId", or_else calendarId (JStr (lit "primary")));
                (lit "event", JObj (spread args)) ]).

Definition normalize_args (tool : jstr) (args : JValue) : Eff JValue :=
  if Str.eqb tool (lit "create-event") then normalize_create_event args
  else if Str.eqb tool (lit "list-events") then normalize_list_events args
  else if Str.eqb tool (lit "create_calendar_event")
       then normalize_create_calendar_event args
       else ret args.

(** *** Running an external tool *)

Fixpoint join_lines (pieces : list jstr) : jstr :=
  match pieces with
  | [] => []
  | [p] => p
  | p :: rest => p ++ 10%N :: join_lines rest
  end.

(** [content.map(c => c.type === 'text' ? c.text : '').join('\n')] *)
Definition text_of_parts (parts : list McpPart) : jstr :=
  join_lines
    (map (fun c => match c with TextPart t => t | OtherPart => [] end) parts).

(** [if (toolResult && toolResult.length > 4000) toolResult =
     toolResult.substring(0, 4000) + marker] *)
Definition truncate_result (toolResult : jstr) : jstr :=
  if truthy (JStr toolResult)
     && (truncation_threshold <? List.length toolResult)
  then firstn truncation_threshold toolResult ++ truncation_marker
  else toolResult.

(** The [try]/[catch] around the MCP call: it always yields a tool
    result. *)
Definition run_mcp_tool (env : Env) (tool : jstr) (args : JValue) : Eff jstr :=
  try_catch
    (transformedArgs <- normalize_args tool args;;
     parts <- call (EvMcpCallTool tool transformedArgs)
                   (mcp_callTool env tool transformedArgs);;
     ret (truncate_result (text_of_parts parts)))
    (fun mcpError =>
       if includes (lit "calendar") tool then ret msg_calendar_unconfigured
       else ret (lit "Calendar operation failed: " ++ message mcpError)).

(** *** The [switch] on the tool name

    The result is either a value the whole function returns at once
    ([inl]), or the tool result the switch leaves in [toolResult]
    ([inr]). *)
Definition executeTool (env : Env) (st : McpState) (toolCall : JValue)
    (userId : Z) : Eff (JValue + jstr) :=
  tool <- lift (get_prop toolCall (lit "tool"));;
  args <- lift (get_prop toolCall (lit "args"));;
  if is_string tool (lit "search_trips") then
    query <- lift (get_prop args (lit "query"));;
    r <- call (EvSearchTrips query) (searchTrips env query);;
    ret (inr r)
  else if is_string tool (lit "get_booking_details") then
    raw <- lift (get_prop args (lit "bookingId"));;
    bookingId <- lift (parseInt raw);;
    match bookingId with
    | None => ret (inl (JStr msg_need_id_status))
    | Some id =>
        r <- call (EvGetBookingDetails id) (getBookingDetails env id);;
        ret (inr r)
    end
  else if is_string tool (lit "cancel_booking") then
    raw <- lift (get_prop args (lit "bookingId"));;
    cancelId <- lift (parseInt raw);;
    match cancelId with
    | None => ret (inl (JStr msg_need_id_cancel))
    | Some id =>
        r <- call (EvCancelTicket id) (cancelTicket env id);;
        ret (inr r)
    end
  else if is_string tool (lit "book_ticket") then
    tripId <- lift (get_prop args (lit "tripId"));;
    pickupId <- lift (get_prop args (lit "pickupId"));;
    dropId <- lift (get_prop args (lit "dropId"));;
    amount <- lift (get_prop args (lit "amount"));;
    r <- call (EvBookTicket tripId userId pickupId dropId amount)
              (bookTicket env tripId userId pickupId dropId amount);;
    ret (inr r)
  else
    match mcpClient st, tool with
    | Some _, JStr toolName =>
        if existsb (fun t => Str.eqb (name t) toolName)
                   (mcpToolsOrchestration st)
        then r <- run_mcp_tool env toolName args;; ret (inr r)
        else ret (inl (JStr msg_unknown_tool))
    | _, _ => ret (inl (JStr msg_unknown_tool))
    end.

(** [buildSystemInstruction()], read at the clock of [env] against the
    registry of [st]. *)
Definition buildSystemInstruction (env : Env) (st : McpState) : Eff jstr :=
  Manifest.buildSystemInstruction (clock env) (mcpToolsOrchestration st).

Definition first_request (instruction userMessage model : jstr)
    : ChatRequest :=
  {| model := model;
     messages :=
       [ mkMessage System instruction;
         mkMessage User userMessage ];
     max_tokens := 300;
     temperature := Some (1, -1)%Z |}.

Definition summary_request (instruction userMessage model jsonStr
    toolResult : jstr) : ChatRequest :=
  {| model := model;
     messages :=
       [ mkMessage System instruction;
         mkMessage User userMessage;
         mkMessage Assistant jsonStr;
         mkMessage User
           (lit "Tool Output: " ++ toolResult
            ++ lit ". Please tell me what you did.") ];
     max_tokens := 300;
     temperature := None |}.

(** After the switch: an early [return], or the summary turn, whose
    answer [finalResponse.choices[0]?.message?.content] is returned as it
    is.  The argument of the request is built first: a throw of
    [buildSystemInstruction()] leaves the inner [try] before anything is
    sent. *)
Definition summarize (env : Env) (st : McpState) (userMessage : jstr)
    (model jsonStr : jstr) (r : JValue + jstr) : Eff JValue :=
  match r with
  | inl reply => ret reply
  | inr toolResult =>
      instruction <- buildSystemInstruction env st;;
      let req :=
        summary_request instruction userMessage model jsonStr toolResult in
      final <- call (EvChat req) (chatCompletion env req);;
      ret (match final with
           | Some text => JStr text
           | None => JUndefined
           end)
  end.

(** The inner [try] block that follows a detected tool call, with its
    [catch (parseError) { return content; }]. *)
Definition handle_tool_call (env : Env) (st : McpState) (userMessage : jstr)
    (userId : Z) (model content jsonStr : jstr) : Eff JValue :=
  try_catch
    (match JSON_parse jsonStr with
     | None => throw (mkError (lit "Unexpected token in JSON"))
     | Some toolCall =>
         if negb (isValidToolCall toolCall) then ret (JStr content)
         else
           r <- executeTool env st toolCall userId;;
           summarize env st userMessage model jsonStr r
     end)
    (fun _ => ret (JStr content)).

(** What follows a successful first completion: [content] is searched
    for a tool call, and is the reply when none is found. *)
Definition respond (env : Env) (st : McpState) (userMessage : jstr)
    (userId : Z) (model content : jstr) : Eff JValue :=
  match extractJson content with
  | Some jsonStr =>
      if truthy (JStr jsonStr)
      then handle_tool_call env st userMessage userId model content jsonStr
      else ret (JStr content)
  | None => ret (JStr content)
  end.

(** The body of the outer [try] for one model;
    [content = response.choices[0]?.message?.content || ""].  The
    argument of the request is built first: when
    [buildSystemInstruction()] throws, nothing is sent and the attempt
    fails. *)
Definition attempt (env : Env) (st : McpState) (userMessage : jstr)
    (userId : Z) (model : jstr) : Eff JValue :=
  instruction <- buildSystemInstruction env st;;
  let req := first_request instruction userMessage model in
  response <- call (EvChat req) (chatCompletion env req);;
  respond env st userMessage userId model
    (match response with Some text => text | None => [] end).

(** The loop [for (const model of models)]: a throwing attempt moves on
    to the next model. *)
Fixpoint try_models (env : Env) (st : McpState) (userMessage : jstr)
    (userId : Z) (remaining : list jstr) : Eff JValue :=
  match remaining with
  | [] => ret (JStr msg_apology)
  | model :: rest =>
      try_catch (attempt env st userMessage userId model)
                (fun _ => try_models env st userMessage userId rest)
  end.

(** [generateAIResponse(userMessage, userId)], run against the
    connector state [st]. *)
Definition generateAIResponse (env : Env) (st : McpState)
    (userMessage : jstr) (userId : Z) : Eff JValue :=
  try_models env st userMessage userId models.

End Service.

Import Service.

(** ** The life of the process

    Loading the module runs [connectToMcpServer()] once (the call at
    module level, which nothing else repeats: the function is not
    exported and [generateAIResponse] never calls it).  Requests are
    served before the handshake has settled ([early], against the initial
    state) or after it ([late], against the settled state); each request
    comes with the answers the outside world gives while it runs. *)

Module Process.

Record Request : Type := mkRequest {
  world : Env;
  userMessage : jstr;
  userId : Z
}.

Definition serve (st : McpState) (r : Request) : Eff JValue :=
  generateAIResponse (world r) st (userMessage r) (userId r).

Definition module_load (env : Env) : list Event * McpState :=
  let '(events, st, _) := connectToMcpServer env initial_state in
  (events, st).

Definition settled_state (env : Env) : McpState := snd (module_load env).

Definition run (env : Env) (early late : list Request) : list Event :=
  fst (module_load env)
  ++ flat_map (fun r => trace (serve initial_state r)) early
  ++ flat_map (fun r => trace (serve (settled_state env) r)) late.

Definition is_connect (e : Event) : bool :=
  match e with EvMcpConnect => true | _ => false end.

Definition is_mcp_call (e : Event) : bool :=
  match e with EvMcpCallTool _ _ => true | _ => false end.

(** The number of times the provider subprocess was dialled. *)
Definition dials (events : list Event) : nat :=
  List.length (filter is_connect events).

End Process.

Import Process.

(** ** What the claims speak about *)

Module Claims.

(** [text[a..b]] is the text of a JSON object with a non-empty [tool]:
    it opens with a brace, closes with a brace, parses, and passes the
    extractor's test. *)
Definition tool_object_at (text : jstr) (a b : nat) : Prop :=
  a <= b /\ char_is text a open_brace = true /\
  char_is text b close_brace = true /\
  accepts (substring a (b + 1) text) = true.

(** As many opening as closing braces, wherever they stand. *)
Definition brace_balanced (s : jstr) : Prop :=
  Str.count open_brace s = Str.count close_brace s.

(** [text] contains exactly one balanced, tool-bearing JSON object, at
    [a..b]. *)
Definition only_tool_object (text : jstr) (a b : nat) : Prop :=
  tool_object_at text a b /\
  brace_balanced (substring a (b + 1) text) /\
  forall i j, tool_object_at text i j -> i = a /\ j = b.

(** The first sentence of the extraction contract, read on the raw
    model output. *)
Definition extracts_the_object (raw : jstr) : Prop :=
  forall a b, only_tool_object raw a b ->
    exists out, extractJson raw = Some out /\
                JSON_parse out = JSON_parse (substring a (b + 1) raw).

(** A parsed value is an object with a [tool] field. *)
Definition has_tool_field (v : JValue) : bool :=
  match v with
  | JObj fields => obj_has fields (lit "tool")
  | _ => false
  end.

(** No piece of [text] parses to an object with a [tool] field. *)
Definition no_tool_field_object (text : jstr) : Prop :=
  forall i j v, i <= j -> JSON_parse (substring i j text) = Some v ->
    has_tool_field v = false.

(** No piece of [text] is accepted by the extractor. *)
Definition nothing_accepted (text : jstr) : Prop :=
  forall i j, i <= j -> accepts (substring i j text) = false.

(** [buildSystemInstruction()] returns [instruction] on the registry of
    [st]. *)
Definition builds (env : Env) (st : McpState) (instruction : jstr) : Prop :=
  outcome (buildSystemInstruction env st) = Returned instruction.

(** The system instruction is built, the models before [model] fail on
    their first request and [model] answers it with [reply]. *)
Definition first_answer (env : Env) (st : McpState)
    (instruction userMessage : jstr) (failed : list jstr) (model : jstr)
    (reply : option jstr) : Prop :=
  builds env st instruction /\
  (exists rest, models = failed ++ model :: rest) /\
  (forall m, In m failed -> exists e,
     chatCompletion env (first_request instruction userMessage m) = Threw e) /\
  chatCompletion env (first_request instruction userMessage model)
  = Returned reply.

(** The second sentence of the contract, read on the raw model output:
    without a tool object in it, nothing is extracted and the raw text is
    the reply. *)
Definition replies_raw_text (raw : jstr) : Prop :=
  extractJson raw = None /\
  forall env st instruction userMessage userId failed model,
    first_answer env st instruction userMessage failed model (Some raw) ->
    outcome (generateAIResponse env st userMessage userId)
    = Returned (JStr raw).

(** The first requests sent while [failed] fail and [model] answers. *)
Definition first_requests (instruction userMessage : jstr)
    (failed : list jstr) (model : jstr) : list Event :=
  map (fun m => EvChat (first_request instruction userMessage m))
      (failed ++ [model]).

(** [toolCall] is a structurally valid call of [tool] with [args]. *)
Definition calls_tool (toolCall : JValue) (tool : jstr) (args : JValue)
    : Prop :=
  isValidToolCall toolCall = true /\
  get_prop toolCall (lit "tool") = Returned (JStr tool) /\
  get_prop toolCall (lit "args") = Returned args.

(** The answer of [model] carries the tool call [toolCall], extracted as
    the text [jsonStr]. *)
Definition answers_with_call (env : Env) (st : McpState)
    (instruction userMessage : jstr) (failed : list jstr)
    (model content jsonStr : jstr) (toolCall : JValue) : Prop :=
  first_answer env st instruction userMessage failed model (Some content) /\
  extractJson content = Some jsonStr /\
  JSON_parse jsonStr = Some toolCall.

(** [args.k] for the validated [args] of a tool call. *)
Definition arg_value (args : JValue) (k : jstr) : JValue :=
  match get_prop args k with
  | Returned v => v
  | Threw _ => JUndefined
  end.

Definition builtin_tools : list jstr :=
  [ lit "search_trips"; lit "get_booking_details";
    lit "cancel_booking"; lit "book_ticket" ].

Definition is_builtin (tool : jstr) : bool :=
  existsb (Str.eqb tool) builtin_tools.

Definition registered (st : McpState) (tool : jstr) : bool :=
  existsb (fun t => Str.eqb (name t) tool) (mcpToolsOrchestration st).

Definition connected (st : McpState) : bool :=
  match mcpClient st with Some _ => true | None => false end.

(** The brace balance of [clean[k..b]], as the inner loop counts it. *)
Definition balance_from (clean : jstr) (b k : nat) : Z :=
  Z.of_nat (Str.count close_brace (substring k (b + 1) clean))
  - Z.of_nat (Str.count open_brace (substring k (b + 1) clean)).

(** *** Deciding the above on a given text *)

Definition tool_object_atb (text : jstr) (a b : nat) : bool :=
  if a <=? b then
    if char_is text a open_brace then
      if char_is text b close_brace
      then accepts (substring a (b + 1) text)
      else false
    else false
  else false.

(** [test] holds of every piece [text.substring(i, j)]. *)
Definition all_pieces (test : jstr -> bool) (text : jstr) : bool :=
  let positions := seq 0 (List.length text + 1) in
  forallb (fun i => forallb (fun j => test (substring i j text)) positions)
          positions.

Definition only_tool_objectb (text : jstr) (a b : nat) : bool :=
  let positions := seq 0 (List.length text) in
  tool_object_atb text a b
  && (Str.count open_brace (substring a (b + 1) text)
      =? Str.count close_brace (substring a (b + 1) text))
  && forallb (fun i => forallb (fun j =>
        if tool_object_atb text i j then (i =? a) && (j =? b) else true)
        positions) positions.

Definition no_tool_field (piece : jstr) : bool :=
  match JSON_parse piece with
  | Some v => negb (has_tool_field v)
  | None => true
  end.









End Claims.

Import Claims.

(** ** Sample model outputs and environments *)

Module Samples.

(** A reply with prose, a fenced block and line breaks around the tool
    call. *)
Definition fenced_reply : jstr :=
  lit "Sure, let me look that up." ++ [13%N; 10%N] ++ lit "```json"
  ++ [10%N] ++ jq "{'tool': 'search_trips', 'args': {'query': 'Goa'}}"
  ++ [10%N] ++ lit "```" ++ [10%N].

(** A tool call whose query is a fence marker. *)
Definition fence_in_value : jstr :=
  jq "{'tool':'search_trips','args':{'query':'```'}}".

(** A tool call whose query holds a closing brace. *)
Definition brace_in_value : jstr :=
  jq "{'tool':'search_trips','args':{'query':'}'}}".

(** An object whose first key is not [tool] until the fence marker
    inside it is stripped. *)
Definition fence_in_key : jstr :=
  jq "{'to```ol':'search_trips','args':{'query':'Goa'}}".

Definition plain_reply : jstr := lit "Hello! How can I help you today?".

Definition search_call : jstr :=
  jq "{'tool':'search_trips','args':{'query':'Goa'}}".

(** A tool call followed by an object that has no [tool] field until
    the fence marker inside its first key is stripped. *)
Definition call_then_fenced_key : jstr :=
  search_call ++ lit " "
  ++ jq "{'to```ol':'cancel_booking','args':{'bookingId':7}}".

Definition details_call_abc : jstr :=
  jq "{'tool':'get_booking_details','args':{'bookingId':'abc'}}".

Definition cancel_call_abc : jstr :=
  jq "{'tool':'cancel_booking','args':{'bookingId':'abc'}}".



Definition book_call : jstr :=
  jq "{'tool':'book_ticket','args':{'tripId':'next one','dropId':null,'amount':-5}}".

Definition list_events_call : jstr :=
  jq "{'tool':'list-events','args':{'calendarId':'primary'}}".

Definition weather_call : jstr :=
  jq "{'tool':'get_weather','args':{'city':'Goa'}}".

Definition network_error : JsError := mkError (lit "fetch failed").

(** An environment whose completions are given by [chat]; the booking
    tools answer with fixed texts and the MCP provider with [parts]. *)
Definition env_with (chat : ChatRequest -> Outcome (option jstr))
    (handshake : Handshake) (parts : list McpPart) : Env :=
  {| chatCompletion := chat;
     searchTrips := fun _ => Returned (lit "3 buses found");
     getBookingDetails := fun _ => Returned (lit "Booking is confirmed");
     cancelTicket := fun _ => Returned (lit "Booking cancelled");
     bookTicket := fun _ _ _ _ _ => Returned (lit "Ticket booked");
     mcp_connect := handshake;
     mcp_listTools := Threw (mkError (lit "No authenticated accounts"));
     mcp_callTool := fun _ _ => Returned parts;
     clock := Manifest.sample_clock |}.

Definition is_first_request (req : ChatRequest) : bool :=
  match messages req with
  | [_; _] => true
  | _ => false
  end.

(** Every model answers the first request with [first] and the summary
    request with [summary]. *)
Definition env_replying (first : jstr) (summary : Outcome (option jstr))
    (handshake : Handshake) (parts : list McpPart) : Env :=
  env_with (fun req => if is_first_request req then Returned (Some first)
                       else summary)
           handshake parts.

(** No endpoint answers. *)
Definition env_offline : Env :=
  env_with (fun _ => Threw network_error) TimedOut [].

(** The first endpoint fails, the others answer [plain_reply]. *)
Definition env_first_down : Env :=
  env_with (fun req =>
              if Str.eqb (model req) (lit "mistralai/Mixtral-8x7B-Instruct-v0.1")
              then Threw network_error
              else Returned (Some plain_reply))
           TimedOut [].

Definition connected_state : McpState :=
  {| mcpClient := Some new_client; mcpToolsOrchestration := fallback_tools |}.


Definition first_model : jstr := lit "mistralai/Mixtral-8x7B-Instruct-v0.1".

(** The instruction built for a sample, on which
    [buildSystemInstruction()] returns. *)
Definition built (env : Env) (st : McpState) : jstr :=
  match outcome (buildSystemInstruction env st) with
  | Returned instruction => instruction
  | Threw _ => []
  end.


(** [JSON.parse(text)] of a sample known to parse. *)
Definition parsed (text : jstr) : JValue :=
  match JSON_parse text with
  | Some v => v
  | None => JUndefined
  end.

Definition list_events_args : JValue :=
  JObj [(lit "calendarId", JStr (lit "primary"))].



(** The model asks for booking details of [abc]. *)
Definition env_details_abc : Env :=
  env_replying details_call_abc (Returned (Some (lit "unused")))
               TimedOut [].

Definition env_cancel_abc : Env :=
  env_replying cancel_call_abc (Returned (Some (lit "unused"))) TimedOut [].



Definition env_book : Env :=
  env_replying book_call (Returned (Some (lit "Your ticket is booked.")))
               TimedOut [].

Definition env_weather : Env :=
  env_replying weather_call (Returned (Some (lit "unused"))) Established [].


End Samples.

Import Samples.

(** ** What the further properties speak about *)

Module Behaviour.

(** [text[a..b]] is a tool object with as many opening as closing
    braces: what the inner loop of [extractJson] looks for. *)
Definition balanced_tool_object_at (text : jstr) (a b : nat) : Prop :=
  tool_object_at text a b /\ brace_balanced (substring a (b + 1) text).

Definition no_control (s : jstr) : Prop :=
  Forall (fun c => is_control c = false) s.

Definition opens_without_space (s : jstr) : Prop :=
  match s with
  | [] => True
  | c :: _ => is_space c = false
  end.

Definition no_outer_space (s : jstr) : Prop :=
  opens_without_space s /\ opens_without_space (rev s).

Definition is_chat (e : Event) : bool :=
  match e with EvChat _ => true | _ => false end.

(** The run of a tool, built-in or external. *)
Definition is_executor (e : Event) : bool :=
  match e with
  | EvSearchTrips _ | EvGetBookingDetails _ | EvCancelTicket _
  | EvBookTicket _ _ _ _ _ | EvMcpCallTool _ _ => true
  | _ => false
  end.

Definition is_booking (e : Event) : bool :=
  match e with EvBookTicket _ _ _ _ _ => true | _ => false end.

(** The number of events of a trace that pass a test. *)
Definition occurrences (test : Event -> bool) (events : list Event) : nat :=
  List.length (filter test events).

(** A computation causes at most [n] events. *)
Definition within (n : nat) {A : Type} (m : Eff A) : Prop :=
  List.length (trace m) <= n.





Definition fallback_names : list jstr :=
  [lit "add-account"; lit "create-event"; lit "list-events"].

End Behaviour.

Import Behaviour.

(** ** Further sample outputs and environments *)

Module MoreSamples.

(** The tool call inside [fenced_reply], as the extractor returns it. *)
Definition fenced_call : jstr :=
  jq "{'tool': 'search_trips', 'args': {'query': 'Goa'}}".

(** A tool object without [args]. *)
Definition tool_without_args : jstr := jq "{'tool':'search_trips'}".

Definition env_no_args : Env :=
  env_replying tool_without_args (Returned (Some (lit "unused"))) TimedOut [].

(** Every completion resolves without content. *)
Definition env_silent : Env :=
  env_with (fun _ => Returned None) TimedOut [].

Definition env_search : Env :=
  env_replying search_call (Returned (Some (lit "There are three buses to Goa.")))
               TimedOut [].

Definition cancel_call_7 : jstr :=
  jq "{'tool':'cancel_booking','args':{'bookingId':7}}".

Definition env_cancel_7 : Env :=
  env_replying cancel_call_7
               (Returned (Some (lit "Your booking is cancelled.")))
               TimedOut [].


Definition create_event_args : JValue :=
  JObj [ (lit "summary", JStr (lit "Trip"));
         (lit "start", JObj [(lit "dateTime", JStr (lit "2024-01-20T10:00:00"))]);
         (lit "end", JStr (lit "2024-01-20T12:00:00")) ].

Definition create_event_normalized : JValue :=
  JObj [ (lit "summary", JStr (lit "Trip"));
         (lit "start", JStr (lit "2024-01-20T10:00:00"));
         (lit "end", JStr (lit "2024-01-20T12:00:00"));
         (lit "account", JStr (lit "normal"));
         (lit "calendarId", JStr (lit "primary")) ].




End MoreSamples.

Import MoreSamples.

(** ** The two siblings of the service

    The file of the service exists in two more versions, which have no
    MCP branch: the [default] case of their [switch] answers with the
    fixed message.  They share the control flow of [generateAIResponse]
    and differ in the extractor, the structural check, the two requests
    and what is returned after the summary turn. *)

Module Sibling.

(** What the two versions do not share. *)
Record Version : Type := mkVersion {
  extractJson : jstr -> option jstr;
  isValidToolCall : JValue -> bool;
  first_request : jstr -> jstr -> ChatRequest;
  summary_request : jstr -> jstr -> jstr -> jstr -> ChatRequest;
  (** [return finalResponse.choices[0]?.message?.content ...] *)
  final_reply : option jstr -> jstr -> JValue
}.

(** The [switch] on the tool name, without an MCP branch. *)
Definition executeTool (env : Env) (toolCall : JValue) (userId : Z)
    : Eff (JValue + jstr) :=
  tool <- lift (get_prop toolCall (lit "tool"));;
  args <- lift (get_prop toolCall (lit "args"));;
  if is_string tool (lit "search_trips") then
    query <- lift (get_prop args (lit "query"));;
    r <- call (EvSearchTrips query) (searchTrips env query);;
    ret (inr r)
  else if is_string tool (lit "get_booking_details") then
    raw <- lift (get_prop args (lit "bookingId"));;
    bookingId <- lift (parseInt raw);;
    match bookingId with
    | None => ret (inl (JStr msg_need_id_status))
    | Some id =>
        r <- call (EvGetBookingDetails id) (getBookingDetails env id);;
        ret (inr r)
    end
  else if is_string tool (lit "cancel_booking") then
    raw <- lift (get_prop args (lit "bookingId"));;
    cancelId <- lift (parseInt raw);;
    match cancelId with
    | None => ret (inl (JStr msg_need_id_cancel))
    | Some id =>
        r <- call (EvCancelTicket id) (cancelTicket env id);;
        ret (inr r)
    end
  else if is_string tool (lit "book_ticket") then
    tripId <- lift (get_prop args (lit "tripId"));;
    pickupId <- lift (get_prop args (lit "pickupId"));;
    dropId <- lift (get_prop args (lit "dropId"));;
    amount <- lift (get_prop args (lit "amount"));;
    r <- call (EvBookTicket tripId userId pickupId dropId amount)
              (bookTicket env tripId userId pickupId dropId amount);;
    ret (inr r)
  else ret (inl (JStr msg_unknown_tool)).

Section Flow.

Variables (version : Version) (env : Env) (userMessage : jstr) (userId : Z).

Definition summarize (model jsonStr : jstr) (r : JValue + jstr) : Eff JValue :=
  match r with
  | inl reply => ret reply
  | inr toolResult =>
      let req := summary_request version userMessage model jsonStr toolResult in
      final <- call (EvChat req) (chatCompletion env req);;
      ret (final_reply version final toolResult)
  end.

Definition handle_tool_call (model content jsonStr : jstr) : Eff JValue :=
  try_catch
    (match JSON_parse jsonStr with
     | None => throw (mkError (lit "Unexpected token in JSON"))
     | Some toolCall =>
         if negb (isValidToolCall version toolCall) then ret (JStr content)
         else
           r <- executeTool env toolCall userId;;
           summarize model jsonStr r
     end)
    (fun _ => ret (JStr content)).

Definition respond (model content : jstr) : Eff JValue :=
  match extractJson version content with
  | Some jsonStr =>
      if truthy (JStr jsonStr)
      then handle_tool_call model content jsonStr
      else ret (JStr content)
  | None => ret (JStr content)
  end.

Definition attempt (model : jstr) : Eff JValue :=
  let req := first_request version userMessage model in
  response <- call (EvChat req) (chatCompletion env req);;
  respond model (match response with Some text => text | None => [] end).

Fixpoint try_models (remaining : list jstr) : Eff JValue :=
  match remaining with
  | [] => ret (JStr msg_apology)
  | model :: rest => try_catch (attempt model) (fun _ => try_models rest)
  end.

(** [generateAIResponse(userMessage, userId)]; the list of models is
    the one of the main version. *)
Definition generateAIResponse : Eff JValue := try_models models.

End Flow.

End Sibling.

(** *** The version without MCP *)

Module Plain.

(** The template literal [SYSTEM_INSTRUCTION], line by line. *)
Definition SYSTEM_INSTRUCTION : jstr :=
  template_lines
    [ "You are the Travel Point AI Assistant. You help users with bus bookings.";
      "";
      "<tools>";
      "  <tool name=`get_booking_details`>";
      "    <description>Get status and details of a specific booking</description>";
      "    <parameters>";
      "      <parameter name=`bookingId` type=`number` required=`true`>The booking ID to check</parameter>";
      "    </parameters>";
      "  </tool>";
      "  ";
      "  <tool name=`search_trips`>";
      "    <description>Search for available bus trips</description>";
      "    <parameters>";
      "      <parameter name=`query` type=`string` required=`true`>Search query with city names or bus type</parameter>";
      "    </parameters>";
      "  </tool>";
      "  ";
      "  <tool name=`cancel_booking`>";
      "    <description>Cancel a booking and process refund</description>";
      "    <parameters>";
      "      <parameter name=`bookingId` type=`number` required=`true`>The booking ID to cancel</parameter>";
      "    </parameters>";
      "  </tool>";
      "  ";
      "  <tool name=`book_ticket`>";
      "    <description>Book a new ticket</description>";
      "    <parameters>";
      "      <parameter name=`tripId` type=`number` required=`true`>Trip ID to book</parameter>";
      "      <parameter name=`pickupId` type=`number` required=`true`>Pickup stop ID</parameter>";
      "      <parameter name=`dropId` type=`number` required=`true`>Drop stop ID</parameter>";
      "      <parameter name=`amount` type=`number` required=`true`>Amount to pay</parameter>";
      "    </parameters>";
      "  </tool>";
      "</tools>";
      "";
      "<instructions>";
      "CRITICAL RULES:";
      "1. When user requests booking info, use `get_booking_details` tool";
      "2. When user wants to search buses, use `search_trips` tool";
      "3. When user wants to cancel/refund, use `cancel_booking` tool";
      "4. When user wants to book a ticket, use `book_ticket` tool";
      "";
      "To call a tool, reply with ONLY valid JSON in this EXACT format:";
      "{`tool`: `tool_name`, `args`: {`paramName`: value}}";
      "";
      "EXAMPLES:";
      "User: `Check ticket 5 status`";
      "Assistant: {`tool`: `get_booking_details`, `args`: {`bookingId`: 5}}";
      "";
      "User: `What's the status of booking number 2?`";
      "Assistant: {`tool`: `get_booking_details`, `args`: {`bookingId`: 2}}";
      "";
      "User: `Search buses to Coimbatore`";
      "Assistant: {`tool`: `search_trips`, `args`: {`query`: `Coimbatore`}}";
      "";
      "User: `Cancel my ticket 3`";
      "Assistant: {`tool`: `cancel_booking`, `args`: {`bookingId`: 3}}";
      "";
      "If the user is just chatting (hello, thanks, etc), reply normally without JSON.";
      "</instructions>" ]%string.

(** [obj && typeof obj === 'object' && typeof obj.tool === 'string' &&
    obj.args && typeof obj.args === 'object'] *)
Definition isValidToolCall (obj : JValue) : bool :=
  truthy obj && is_object_type obj &&
  match get_prop obj (lit "tool") with
  | Returned t => is_string_type t
  | Threw _ => false
  end &&
  match get_prop obj (lit "args") with
  | Returned a => truthy a && is_object_type a
  | Threw _ => false
  end.

Definition first_request (userMessage model : jstr) : ChatRequest :=
  {| model := model;
     messages := [ mkMessage System SYSTEM_INSTRUCTION;
                   mkMessage User userMessage ];
     max_tokens := 500;
     temperature := Some (1, -1)%Z |}.

Definition summary_request (userMessage model jsonStr toolResult : jstr)
    : ChatRequest :=
  {| model := model;
     messages :=
       [ mkMessage System
           (lit "You are a helpful travel assistant. Summarize the tool result in a friendly, conversational way.");
         mkMessage User userMessage;
         mkMessage Assistant jsonStr;
         mkMessage User
           (lit "Tool returned: " ++ toolResult ++ [10%N; 10%N]
            ++ lit "Please provide a clear, friendly response to the user based on this information.") ];
     max_tokens := 400;
     temperature := Some (3, -1)%Z |}.

(** [finalResponse.choices[0]?.message?.content || toolResult] *)
Definition final_reply (final : option jstr) (toolResult : jstr) : JValue :=
  or_else (match final with Some text => JStr text | None => JUndefined end)
          (JStr toolResult).

Definition version : Sibling.Version :=
  {| Sibling.extractJson := extractJson_first_to_last;
     Sibling.isValidToolCall := isValidToolCall;
     Sibling.first_request := first_request;
     Sibling.summary_request := summary_request;
     Sibling.final_reply := final_reply |}.

Definition generateAIResponse (env : Env) (userMessage : jstr) (userId : Z)
    : Eff JValue :=
  Sibling.generateAIResponse version env userMessage userId.

End Plain.

(** *** The version whose extractor never returns [null] *)

Module Lenient.

(** The template literal [SYSTEM_INSTRUCTION], line by line. *)
Definition SYSTEM_INSTRUCTION : jstr :=
  template_lines
    [ "You are the Travel Point AI Assistant. You help users with bus bookings.";
      "";
      "<tools>";
      "  <tool name=`get_booking_details`>";
      "    <description>Get status and details of a specific booking</description>";
      "    <parameters>";
      "      <parameter name=`bookingId` type=`number` required=`true`>The booking ID to check</parameter>";
      "    </parameters>";
      "  </tool>";
      "  ";
      "  <tool name=`search_trips`>";
      "    <description>Search for available bus trips</description>";
      "    <parameters>";
      "      <parameter name=`query` type=`string` required=`true`>Search query with city names or bus type</parameter>";
      "    </parameters>";
      "  </tool>";
      "  ";
      "  <tool name=`cancel_booking`>";
      "    <description>Cancel a booking and process refund</description>";
      "    <parameters>";
      "      <parameter name=`bookingId` type=`number` required=`true`>The booking ID to cancel</parameter>";
      "    </parameters>";
      "  </tool>";
      "  ";
      "  <tool name=`book_ticket`>";
      "    <description>Book a new ticket</description>";
      "    <parameters>";
      "      <parameter name=`tripId` type=`number` required=`true`>Trip ID to book</parameter>";
      "      <parameter name=`pickupId` type=`number` required=`true`>Pickup stop ID</parameter>";
      "      <parameter name=`dropId` type=`number` required=`true`>Drop stop ID</parameter>";
      "      <parameter name=`amount` type=`number` required=`true`>Amount to pay</parameter>";
      "    </parameters>";
      "  </tool>";
      "</tools>";
      "";
      "<instructions>";
      "CRITICAL RULES:";
      "1. When user requests booking info, use `get_booking_details` tool";
      "2. When user wants to search buses, use `search_trips` tool";
      "3. When user wants to cancel/refund, use `cancel_booking` tool";
      "4. When user wants to book a ticket, use `book_ticket` tool";
      "";
      "To call a tool, reply with ONLY valid JSON in this EXACT format:";
      "{`tool`: `tool_name`, `args`: {`paramName`: value}}";
      "";
      "If the user is just chatting (hello, thanks, etc), reply normally without JSON.";
      "</instructions>" ]%string.

Definition first_request (userMessage model : jstr) : ChatRequest :=
  {| model := model;
     messages := [ mkMessage System SYSTEM_INSTRUCTION;
                   mkMessage User userMessage ];
     max_tokens := 300;
     temperature := Some (1, -1)%Z |}.

Definition summary_request (userMessage model jsonStr toolResult : jstr)
    : ChatRequest :=
  {| model := model;
     messages :=
       [ mkMessage System SYSTEM_INSTRUCTION;
         mkMessage User userMessage;
         mkMessage Assistant jsonStr;
         mkMessage User
           (lit "Tool Output: " ++ toolResult
            ++ lit ". Please tell me what you did.") ];
     max_tokens := 300;
     temperature := None |}.

(** [finalResponse.choices[0]?.message?.content] *)
Definition final_reply (final : option jstr) (toolResult : jstr) : JValue :=
  match final with Some text => JStr text | None => JUndefined end.

Definition version : Sibling.Version :=
  {| Sibling.extractJson := extractJson_or_clean;
     Sibling.isValidToolCall := Service.isValidToolCall;
     Sibling.first_request := first_request;
     Sibling.summary_request := summary_request;
     Sibling.final_reply := final_reply |}.

Definition generateAIResponse (env : Env) (userMessage : jstr) (userId : Z)
    : Eff JValue :=
  Sibling.generateAIResponse version env userMessage userId.

End Lenient.

(** ** Library calls of the other files of the backend *)

Module Lib.

(** [s.split(sep)] for a separator of one code unit: the pieces between
    the separators, at least one. *)
Fixpoint split (sep : N) (s : jstr) : list jstr :=
  match s with
  | [] => [[]]
  | c :: r =>
      if N.eqb c sep then [] :: split sep r
      else match split sep r with
           | piece :: more => (c :: piece) :: more
           | [] => [[c]]
           end
  end.

(** [parseInt(text, 10)] of a string: leading white space and a sign
    are skipped, no prefix switches the base; [None] is [NaN]. *)
Definition parseInt_radix10 (text : jstr) : option Z :=
  let s := drop_spaces text in
  let (neg, s1) :=
    match s with
    | 45%N :: r => (true, r)
    | 43%N :: r => (false, r)
    | _ => (false, s)
    end in
  match read_digits 10 s1 None with
  | Some z => Some (if neg then - z else z)%Z
  | None => None
  end.

(** [a === b].  Two objects or arrays that come from different places
    are different objects. *)
Definition strict_equal (a b : JValue) : bool :=
  match a, b with
  | JUndefined, JUndefined => true
  | JNull, JNull => true
  | JBool x, JBool y => Bool.eqb x y
  | JNum m1 e1, JNum m2 e2 =>
      let e := Z.min e1 e2 in
      (m1 * 10 ^ (e1 - e) =? m2 * 10 ^ (e2 - e))%Z
  | JStr x, JStr y => Str.eqb x y
  | _, _ => false
  end.

End Lib.

(** ** The authentication middleware *)

Module Auth.

(** What a handler answers: [res.status(status).json(body)]. *)
Record Response : Type := mkResponse { status : nat; body : JValue }.

(** The payload of a verified token, as [AuthRequest] declares it. *)
Record AuthUser : Type := mkUser { user_id : Z; role : jstr }.

(** [process.env.JWT_SECRET || 'default_secret_123456789'] *)
Definition JWT_SECRET (configured : option jstr) : jstr :=
  match configured with
  | Some (c :: s) => c :: s
  | _ => lit "default_secret_123456789"
  end.

(** [{ success: false, message: text }] *)
Definition refusal (code : nat) (text : string) : Response :=
  {| status := code;
     body := JObj [(lit "success", JBool false); (lit "message", JStr (lit text))] |}.

(** [authHeader && authHeader.split(' ')[1]]; [None] is a missing
    header or a missing second piece ([undefined]). *)
Definition token_of (authorization : option jstr) : option jstr :=
  match authorization with
  | None => None
  | Some [] => Some []
  | Some header => nth_error (Lib.split 32 header) 1
  end.

(** [authenticateToken(req, res, next)].  [verify] is [jwt.verify];
    [next] is what the handlers behind the middleware do for the verified
    user: they answer, or throw while [next()] is still running. *)
Definition authenticateToken (verify : jstr -> jstr -> Outcome AuthUser)
    (configured authorization : option jstr)
    (next : AuthUser -> Outcome Response) : Response :=
  match token_of authorization with
  | Some (c :: t) =>
      match verify (c :: t) (JWT_SECRET configured) with
      | Returned verified =>
          match next verified with
          | Returned answer => answer
          | Threw _ => refusal 403 "Invalid or Expired Token"
          end
      | Threw _ => refusal 403 "Invalid or Expired Token"
      end
  | _ => refusal 401 "Access Denied: No Token Provided"
  end.

(** [authReq.user?.role !== text] *)
Definition role_differs (user : option AuthUser) (text : string) : bool :=
  match user with
  | Some u => negb (Str.eqb (role u) (lit text))
  | None => true
  end.

Definition authorizeAdmin (user : option AuthUser) (next : Outcome Response)
    : Outcome Response :=
  if role_differs user "admin"
  then Returned (refusal 403 "Access Denied: Admins Only")
  else next.

Definition authorizeOperator (user : option AuthUser) (next : Outcome Response)
    : Outcome Response :=
  if role_differs user "operator"
  then Returned (refusal 403 "Access Denied: Operators Only")
  else next.

End Auth.

(** ** The chat controller *)

Module Controller.

(** [{ error: text }] *)
Definition failure (code : nat) (text : string) : Auth.Response :=
  {| Auth.status := code; Auth.body := JObj [(lit "error", JStr (lit text))] |}.

(** [res.json({ reply })] *)
Definition answer (reply : JValue) : Auth.Response :=
  {| Auth.status := 200; Auth.body := JObj [(lit "reply", reply)] |}.

(** [chatWithAI(req, res)] for the request body [body] and the user the
    middleware attached, if any.  [generate] is the [generateAIResponse]
    the controller imports. *)
Definition chatWithAI (generate : JValue -> Z -> Eff JValue) (body : JValue)
    (user : option Auth.AuthUser) : Eff Auth.Response :=
  try_catch
    (message <- lift (get_prop body (lit "message"));;
     if negb (truthy message) then ret (failure 400 "Message is required")
     else
       match user with
       | Some u =>
           if (Auth.user_id u =? 0)%Z
           then ret (failure 401 "Authentication required")
           else
             reply <- generate message (Auth.user_id u);;
             ret (answer reply)
       | None => ret (failure 401 "Authentication required")
       end)
    (fun _ => ret (failure 500 "Internal Server Error")).

(** The service of this file behind the controller: a text message is
    what [generateAIResponse] is declared for; [other] stands for what it
    does with anything else. *)
Definition service (env : Env) (st : McpState)
    (other : JValue -> Z -> Eff JValue) (message : JValue) (userId : Z)
    : Eff JValue :=
  match message with
  | JStr userMessage => generateAIResponse env st userMessage userId
  | _ => other message userId
  end.

End Controller.

(** ** The MCP server of the backend *)

Module McpServer.

(** The calls the tools make to the database and to the booking
    tools. *)
Inductive Call : Type :=
  | PoolExecute (sql : jstr) (params : list JValue)
  | CancelTicket (bookingId : JValue)
  | GetConnection
  | BeginTransaction
  | Execute (sql : jstr) (params : list JValue)
  | Commit
  | Rollback
  | Release.

(** The host of the server: its environment variable, its clock and
    date format, and what each call answers after the calls made so
    far. *)
Record Host : Type := mkHost {
  TRAVEL_API_KEY : option jstr;
  now : Z;
  toLocaleString : Z -> jstr;
  select : list Call -> jstr -> list JValue -> Outcome (list JValue);
  cancelTicket : list Call -> JValue -> Outcome jstr;
  getConnection : list Call -> Outcome unit;
  beginTransaction : list Call -> Outcome unit;
  execute : list Call -> jstr -> list JValue -> Outcome JValue;
  commit : list Call -> Outcome unit;
  rollback : list Call -> Outcome unit
}.

(** A computation against the host: from the calls made so far to the
    calls made at its end and its outcome. *)
Definition Run (A : Type) : Type := list Call -> list Call * Outcome A.

Definition ret {A} (a : A) : Run A := fun h => (h, Returned a).

Definition throw {A} (e : JsError) : Run A := fun h => (h, Threw e).

Definition lift {A} (o : Outcome A) : Run A := fun h => (h, o).

Definition bind {A B} (m : Run A) (k : A -> Run B) : Run B :=
  fun h =>
    match m h with
    | (h1, Returned a) => k a h1
    | (h1, Threw e) => (h1, Threw e)
    end.

Definition try_catch {A} (m : Run A) (handler : JsError -> Run A) : Run A :=
  fun h =>
    match m h with
    | (h1, Threw e) => handler e h1
    | done => done
    end.

(** [try { m } finally { cleanup }] for a [cleanup] that does not
    throw. *)
Definition try_finally {A} (m : Run A) (cleanup : Call) : Run A :=
  fun h => let (h1, o) := m h in (h1 ++ [cleanup], o).

(** An awaited call: it is recorded, and answers according to the calls
    made before it. *)
Definition perform {A} (c : Call) (result : list Call -> Outcome A) : Run A :=
  fun h => (h ++ [c], result h).

Notation "x <-- m ;; k" := (bind m (fun x => k))
  (at level 61, m at next level, right associativity).

Definition cross : N := 10060.
Definition no_entry : N := 9940.
Definition check_mark : N := 9989.

Definition users_by_key : jstr := lit "SELECT * FROM users WHERE api_key = ?".

Definition msg_key_missing : jstr :=
  cross :: lit " Configuration Error: TRAVEL_API_KEY is missing.".

Definition msg_key_expired (host : Host) (expiryTimestamp : Z) : jstr :=
  cross :: lit " Access Denied: Your API Key expired on "
  ++ toLocaleString host (expiryTimestamp * 1000)
  ++ lit ". Please generate a new one.".

Definition msg_key_invalid : jstr :=
  cross :: lit " Access Denied: API Key is invalid.".

(** The expiration check on the parts of the key. *)
Definition check_expiry (host : Host) (apiKey : jstr) : Run unit :=
  let parts := Lib.split 95 apiKey in
  if List.length parts =? 3 then
    match Lib.parseInt_radix10 (nth 1 parts []) with
    | Some expiryTimestamp =>
        if (expiryTimestamp <? now host / 1000)%Z
        then throw (mkError (msg_key_expired host expiryTimestamp))
        else ret tt
    | None => ret tt
    end
  else ret tt.

(** [getAuthenticatedUser()]: the row of the user the key belongs to. *)
Definition getAuthenticatedUser (host : Host) : Run JValue :=
  match TRAVEL_API_KEY host with
  | Some (c :: k) =>
      let apiKey := c :: k in
      _ <-- check_expiry host apiKey;;
      rows <-- perform (PoolExecute users_by_key [JStr apiKey])
                       (fun h => select host h users_by_key [JStr apiKey]);;
      match rows with
      | [] => throw (mkError msg_key_invalid)
      | user :: _ => ret user
      end
  | _ => throw (mkError msg_key_missing)
  end.

Definition owner_of_booking : jstr :=
  lit "SELECT passenger_id FROM bookings WHERE booking_id = ?".

(** The handler of the tool [cancel_booking]; the result is the text of
    the one content part it answers with. *)
Definition cancel_booking (host : Host) (bookingId : JValue) : Run jstr :=
  try_catch
    (user <-- getAuthenticatedUser host;;
     rows <-- perform (PoolExecute owner_of_booking [bookingId])
                      (fun h => select host h owner_of_booking [bookingId]);;
     match rows with
     | [] => ret (cross :: lit " Booking not found.")
     | row :: _ =>
         passenger_id <-- lift (get_prop row (lit "passenger_id"));;
         user_id <-- lift (get_prop user (lit "user_id"));;
         if negb (Lib.strict_equal passenger_id user_id)
         then ret (cross :: lit " Access denied.")
         else
           result <-- perform (CancelTicket bookingId)
                              (fun h => cancelTicket host h bookingId);;
           ret result
     end)
    (fun error => ret (cross :: lit " Cancellation Error: " ++ message error)).

(** One route of [import_routes_bulk], as the schema of the tool
    validates it. *)
Record StopImport : Type := mkStop {
  stop_name : JValue;
  order_id : JValue;
  distance_from_source : JValue;
  price_from_source : JValue;
  stop_type : JValue;
  stop_time : JValue
}.

Record RouteImport : Type := mkRoute {
  route_name : JValue;
  total_distance : JValue;
  estimated_time : JValue;
  stops : list StopImport
}.

Definition insert_route : jstr :=
  lit "INSERT INTO route (route_name, total_distance, estimated_time, operator_id) VALUES (?, ?, ?, ?)".

Definition insert_stop : jstr :=
  lit "INSERT INTO stops (path_id, stop_name, order_id, distance, price, estimated_time, stop_type) "
  ++ 10%N :: lit "               VALUES (?, ?, ?, ?, ?, ?, ?)".

Definition stop_params (pathId : JValue) (stop : StopImport) : list JValue :=
  [ pathId; stop_name stop; order_id stop; distance_from_source stop;
    price_from_source stop; stop_time stop; stop_type stop ].

(** The loop over the stops of a route. *)
Fixpoint create_stops (host : Host) (pathId : JValue) (todo : list StopImport)
    : Run unit :=
  match todo with
  | [] => ret tt
  | stop :: rest =>
      _ <-- perform (Execute insert_stop (stop_params pathId stop))
                    (fun h => execute host h insert_stop
                                (stop_params pathId stop));;
      create_stops host pathId rest
  end.

(** The loop over the routes; the result is [addedCount]. *)
Fixpoint create_routes (host : Host) (user : JValue) (todo : list RouteImport)
    (addedCount : nat) : Run nat :=
  match todo with
  | [] => ret addedCount
  | route :: rest =>
      user_id <-- lift (get_prop user (lit "user_id"));;
      let params := [ route_name route; total_distance route;
                      estimated_time route; user_id ] in
      res <-- perform (Execute insert_route params)
                      (fun h => execute host h insert_route params);;
      pathId <-- lift (get_prop res (lit "insertId"));;
      _ <-- create_stops host pathId (stops route);;
      create_routes host user rest (S addedCount)
  end.

Definition msg_permission_denied : jstr :=
  no_entry :: lit " Permission Denied: Only Operators can import routes.".

Definition msg_imported (addedCount : nat) : jstr :=
  check_mark :: lit " Successfully imported "
  ++ Str.of_N (N.of_nat addedCount) ++ lit " routes and all stops!".

(** The handler of the tool [import_routes_bulk]. *)
Definition import_routes_bulk (host : Host) (routes : list RouteImport)
    : Run jstr :=
  try_catch
    (user <-- getAuthenticatedUser host;;
     role <-- lift (get_prop user (lit "role"));;
     if negb (is_string role (lit "operator"))
        && negb (is_string role (lit "admin"))
     then ret msg_permission_denied
     else
       _ <-- perform GetConnection (getConnection host);;
       try_finally
         (try_catch
            (_ <-- perform BeginTransaction (beginTransaction host);;
             addedCount <-- create_routes host user routes 0;;
             _ <-- perform Commit (commit host);;
             ret (msg_imported addedCount))
            (fun dbError =>
               _ <-- perform Rollback (rollback host);;
               throw dbError))
         Release)
    (fun error => ret (cross :: lit " Import Failed: " ++ message error)).

End McpServer.

(** ** What the properties of the backend speak about *)

Module Routes.

(** What [authenticateToken] does once it has read [token] from the
    header. *)
Definition authenticated (verify : jstr -> jstr -> Outcome Auth.AuthUser)
    (configured : option jstr) (token : jstr)
    (next : Auth.AuthUser -> Outcome Auth.Response) : Auth.Response :=
  match verify token (Auth.JWT_SECRET configured) with
  | Returned verified =>
      match next verified with
      | Returned answer => answer
      | Threw _ => Auth.refusal 403 "Invalid or Expired Token"
      end
  | Threw _ => Auth.refusal 403 "Invalid or Expired Token"
  end.

(** A route that puts [authorizeAdmin] behind [authenticateToken], which
    attaches the user [authorizeAdmin] reads. *)
Definition admin_route (verify : jstr -> jstr -> Outcome Auth.AuthUser)
    (configured authorization : option jstr)
    (handler : Auth.AuthUser -> Outcome Auth.Response) : Auth.Response :=
  Auth.authenticateToken verify configured authorization
    (fun user => Auth.authorizeAdmin (Some user) (handler user)).

Definition operator_route (verify : jstr -> jstr -> Outcome Auth.AuthUser)
    (configured authorization : option jstr)
    (handler : Auth.AuthUser -> Outcome Auth.Response) : Auth.Response :=
  Auth.authenticateToken verify configured authorization
    (fun user => Auth.authorizeOperator (Some user) (handler user)).

(** The handler behind the two middlewares answered [response], for a
    user that [verify] read from the token of the header and whose role
    is [wanted]. *)
Definition handled_for (verify : jstr -> jstr -> Outcome Auth.AuthUser)
    (configured authorization : option jstr)
    (handler : Auth.AuthUser -> Outcome Auth.Response) (wanted : string)
    (response : Auth.Response) : Prop :=
  exists token user,
    token <> [] /\ Auth.token_of authorization = Some token /\
    verify token (Auth.JWT_SECRET configured) = Returned user /\
    Auth.role user = lit wanted /\ handler user = Returned response.

End Routes.

Module ServerRuns.

Definition is_query (c : McpServer.Call) : bool :=
  match c with McpServer.PoolExecute _ _ => true | _ => false end.

Definition is_insert (c : McpServer.Call) : bool :=
  match c with McpServer.Execute _ _ => true | _ => false end.

(** The look-up of the key in the database, which decides when the
    expiration check lets the key pass. *)
Definition looked_up (host : McpServer.Host) (apiKey : jstr)
    (h : list McpServer.Call) : list McpServer.Call * Outcome JValue :=
  (h ++ [McpServer.PoolExecute McpServer.users_by_key [JStr apiKey]],
   match McpServer.select host h McpServer.users_by_key [JStr apiKey] with
   | Returned [] => Threw (mkError McpServer.msg_key_invalid)
   | Returned (user :: _) => Returned user
   | Threw e => Threw e
   end).

(** The number of rows [import_routes_bulk] is to insert. *)
Fixpoint planned_inserts (routes : list McpServer.RouteImport) : nat :=
  match routes with
  | [] => 0
  | route :: rest =>
      1 + List.length (McpServer.stops route) + planned_inserts rest
  end.

(** How a run of [import_routes_bulk] can look: the calls it makes and
    the text it answers with. *)
Inductive ImportRun (routes : list McpServer.RouteImport)
    : list McpServer.Call -> jstr -> Prop :=
  | Refused (queries : list McpServer.Call) (text : jstr) :
      forallb is_query queries = true ->
      hd_error text <> Some McpServer.check_mark ->
      ImportRun routes queries text
  | NoConnection (queries : list McpServer.Call) (reason : jstr) :
      forallb is_query queries = true ->
      ImportRun routes (queries ++ [McpServer.GetConnection])
        (McpServer.cross :: lit " Import Failed: " ++ reason)
  | Imported (queries inserts : list McpServer.Call) :
      forallb is_query queries = true ->
      forallb is_insert inserts = true ->
      List.length inserts = planned_inserts routes ->
      ImportRun routes
        (queries ++ McpServer.GetConnection :: McpServer.BeginTransaction
           :: inserts ++ [McpServer.Commit; McpServer.Release])
        (McpServer.msg_imported (List.length routes))
  | RolledBack (queries work : list McpServer.Call) (reason : jstr) :
      forallb is_query queries = true ->
      ImportRun routes
        (queries ++ McpServer.GetConnection :: McpServer.BeginTransaction
           :: work ++ [McpServer.Rollback; McpServer.Release])
        (McpServer.cross :: lit " Import Failed: " ++ reason).

End ServerRuns.

Import Routes ServerRuns.

(** ** Sample requests and hosts of the backend *)

Module BackendSamples.

(** A verifier that knows one token, issued to user 7. *)
Definition verify_one (role : string) (token secret : jstr)
    : Outcome Auth.AuthUser :=
  if Str.eqb token (lit "abc.def.ghi")
     && Str.eqb secret (lit "default_secret_123456789")
  then Returned {| Auth.user_id := 7; Auth.role := lit role |}
  else Threw (mkError (lit "invalid signature")).

Definition chat_body : JValue :=
  JObj [(lit "message", JStr (lit "find buses to Goa"))].

Definition passenger : Auth.AuthUser :=
  {| Auth.user_id := 7; Auth.role := lit "passenger" |}.

(** A host whose key carries the stamp 1700000000 and belongs to user 7
    with the role [role]; every booking belongs to [owner]; every insert
    succeeds, unless [full], and answers with an id. *)
Definition host_at (now : Z) (role : string) (owner : Z) (full : bool)
    : McpServer.Host :=
  {| McpServer.TRAVEL_API_KEY := Some (lit "tp_1700000000_s3cr3t");
     McpServer.now := now;
     McpServer.toLocaleString := fun _ => lit "11/14/2023, 10:13:20 PM";
     McpServer.select :=
       fun _ sql _ =>
         if Str.eqb sql McpServer.users_by_key
         then Returned [JObj [ (lit "user_id", JNum 7 0);
                               (lit "role", JStr (lit role)) ]]
         else Returned [JObj [(lit "passenger_id", JNum owner 0)]];
     McpServer.cancelTicket := fun _ _ => Returned (lit "Booking cancelled");
     McpServer.getConnection := fun _ => Returned tt;
     McpServer.beginTransaction := fun _ => Returned tt;
     McpServer.execute :=
       fun h _ _ =>
         if full then Threw (mkError (lit "table is full"))
         else Returned (JObj [(lit "insertId",
                               JNum (Z.of_nat (List.length h)) 0)]);
     McpServer.commit := fun _ => Returned tt;
     McpServer.rollback := fun _ => Returned tt |}.

Definition sample_stop (place : string) (position : Z) : McpServer.StopImport :=
  {| McpServer.stop_name := JStr (lit place);
     McpServer.order_id := JNum position 0;
     McpServer.distance_from_source := JNum (position * 100) 0;
     McpServer.price_from_source := JNum (position * 250) 0;
     McpServer.stop_type := JStr (lit "Both");
     McpServer.stop_time := JStr (lit "10:00") |}.

Definition sample_routes : list McpServer.RouteImport :=
  [ {| McpServer.route_name := JStr (lit "Chennai - Goa");
       McpServer.total_distance := JNum 900 0;
       McpServer.estimated_time := JStr (lit "14h");
       McpServer.stops := [sample_stop "Chennai" 0; sample_stop "Goa" 9] |} ].

End BackendSamples.

Import BackendSamples.

(** ** What the properties of the replies speak about *)

Module Replies.

Definition is_text (v : JValue) : Prop := exists s, v = JStr s.

(** Whatever a computation returns satisfies [P]. *)
Definition yields {A : Type} (P : A -> Prop) (m : Eff A) : Prop :=
  forall a, outcome m = Returned a -> P a.

(** What the [switch] returns at once is a text. *)
Definition early_text (r : JValue + jstr) : Prop :=
  match r with
  | inl reply => is_text reply
  | inr _ => True
  end.

(** [r] is what is left of [s] once a prefix of it was read. *)
Definition rest_of (r s : jstr) : Prop := exists p, s = p ++ r.

(** The first requests of a sibling version, while [failed] fail and
    [model] answers. *)
Definition sibling_first_requests (version : Sibling.Version)
    (userMessage : jstr) (failed : list jstr) (model : jstr) : list Event :=
  map (fun m => EvChat (Sibling.first_request version userMessage m))
      (failed ++ [model]).

(** The models before [model] fail on their first request and [model]
    answers it with [reply]. *)
Definition sibling_first_answer (version : Sibling.Version) (env : Env)
    (userMessage : jstr) (failed : list jstr) (model : jstr)
    (reply : option jstr) : Prop :=
  (exists rest, models = failed ++ model :: rest) /\
  (forall m, In m failed -> exists e,
     chatCompletion env (Sibling.first_request version userMessage m)
     = Threw e) /\
  chatCompletion env (Sibling.first_request version userMessage model)
  = Returned reply.

(** A computation that calls nothing and, when it returns, returns a value
    with the property [P]. *)
Definition quietly {A : Type} (P : A -> Prop) (m : Eff A) : Prop :=
  trace m = [] /\ forall a, outcome m = Returned a -> P a.

End Replies.

Import Replies.

(** ** Sample environments of the sibling versions *)

Module SiblingSamples.

(** The model asks for a search and has nothing to say about its
    result. *)
Definition env_mute_summary : Env :=
  env_replying search_call (Returned None) TimedOut [].

End SiblingSamples.

Import SiblingSamples.


(** * Strings and the parser *)

(** ** Strings *)

Section StringFacts.

Lemma eqb_eq (a b : jstr) : Str.eqb a b = true <-> a = b.
Proof.
  revert b. induction a as [|x a IH]; intros [|y b]; simpl;
    try (split; (reflexivity || discriminate)).
  rewrite andb_true_iff, N.eqb_eq, IH. split.
  - now intros [-> ->].
  - intros H. now injection H.
Qed.

Lemma substring_cons (s : jstr) (i j : nat) (x : N) :
  i < j -> nth_error s i = Some x ->
  substring i j s = x :: substring (S i) j s.
Proof.
  unfold substring. revert i j. induction s as [|c s IH]; intros i j Hij Hx.
  - destruct i; discriminate.
  - destruct i as [|i].
    + simpl in Hx. injection Hx as ->.
      destruct j as [|j]; [lia|]. simpl. now rewrite Nat.sub_0_r.
    + destruct j as [|j]; [lia|]. simpl in *.
      rewrite (IH i j) by (assumption || lia). reflexivity.
Qed.

Lemma substring_empty (s : jstr) (i : nat) : substring i i s = [].
Proof. unfold substring. now rewrite Nat.sub_diag. Qed.

Lemma char_is_nth (s : jstr) (i : nat) (c : N) :
  char_is s i c = true -> nth_error s i = Some c.
Proof.
  unfold char_is. destruct (nth_error s i) as [x|]; [|discriminate].
  intros H. apply N.eqb_eq in H. now subst.
Qed.

Lemma char_is_lt (s : jstr) (i : nat) (c : N) :
  char_is s i c = true -> i < List.length s.
Proof.
  intros H. apply char_is_nth in H. apply nth_error_Some. congruence.
Qed.

End StringFacts.

(** ** The parser: what a text that does not open with a brace can be *)

Section ParserFacts.

Lemma parse_elements_array (fuel : nat) :
  forall acc s v r, parse_elements fuel acc s = Some (v, r) ->
    exists items, v = JArr items.
Proof.
  induction fuel as [|fuel IH]; intros acc s v r; simpl; [discriminate|].
  destruct (parse_value fuel s) as [[v1 r1]|]; [|discriminate].
  destruct (starts_with_char 44 (skip_ws r1)); [apply IH|].
  destruct (starts_with_char 93 (skip_ws r1)); [|discriminate].
  intros H. injection H as <- _. eauto.
Qed.

Lemma parse_number_is_number (s : jstr) (v : JValue) (r : jstr) :
  parse_number s = Some (v, r) -> exists m e, v = JNum m e.
Proof.
  unfold parse_number. destruct (take_minus s) as [neg s1].
  destruct (scan_integer s1) as [[ds s2]|]; [|discriminate].
  destruct (scan_fraction s2) as [[fs s3]|]; [|discriminate].
  destruct (scan_exponent s3) as [[ex s4]|]; [|discriminate].
  intros H. injection H as <- _. eauto.
Qed.

Lemma parse_literal_no_tool (s : jstr) (v : JValue) (r : jstr) :
  parse_literal s = Some (v, r) -> has_tool v = false.
Proof.
  unfold parse_literal.
  destruct (starts_with (lit "true") s); [intros H; now injection H as <- _|].
  destruct (starts_with (lit "false") s); [intros H; now injection H as <- _|].
  destruct (starts_with (lit "null") s); [intros H; now injection H as <- _|].
  intros H. apply parse_number_is_number in H as (m & e & ->).
  unfold has_tool. simpl. now rewrite andb_false_r.
Qed.

(** A value read from a text whose first code unit is neither white
    space nor an opening brace never passes the extractor's test. *)
Lemma parse_value_no_tool (fuel : nat) (x : N) (s : jstr) (v : JValue)
    (r : jstr) :
  is_json_ws x = false -> N.eqb x open_brace = false ->
  parse_value fuel (x :: s) = Some (v, r) -> has_tool v = false.
Proof.
  intros Hws Hbrace. destruct fuel as [|fuel]; [discriminate|].
  simpl. rewrite Hws. unfold open_brace in Hbrace. rewrite Hbrace.
  destruct (x =? 91)%N.
  - destruct (starts_with_char 93 (skip_ws s)).
    + intros H. now injection H as <- _.
    + intros H. apply parse_elements_array in H as (items & ->). reflexivity.
  - destruct (x =? 34)%N.
    + destruct (parse_string_body s) as [[str rest]|]; [|discriminate].
      intros H. injection H as <- _. unfold has_tool. simpl.
      now rewrite andb_false_r.
    + apply parse_literal_no_tool.
Qed.

Lemma accepts_drop_head (x : N) (s : jstr) :
  accepts (x :: s) = true -> N.eqb x open_brace = false ->
  is_json_ws x = true /\ accepts s = true.
Proof.
  intros Hacc Hbrace. destruct (is_json_ws x) eqn:Hws.
  - split; [reflexivity|]. revert Hacc. unfold accepts, JSON_parse.
    simpl skip_ws. now rewrite Hws.
  - exfalso. revert Hacc. unfold accepts, JSON_parse.
    simpl skip_ws. rewrite Hws.
    destruct (parse_value _ (x :: s)) as [[v r]|] eqn:Hp; [|discriminate].
    apply parse_value_no_tool in Hp; [|assumption..].
    destruct (skip_ws r); [|discriminate]. congruence.
Qed.

End ParserFacts.

(** ** The fuel of the parser is enough *)

Section FuelFacts.

Lemma skip_ws_length (s : jstr) : List.length (skip_ws s) <= List.length s.
Proof.
  induction s as [|c s IH]; simpl; [lia|].
  destruct (is_json_ws c); simpl; lia.
Qed.

Lemma tail_after_char (c : N) (s : jstr) :
  starts_with_char c (skip_ws s) = true ->
  List.length (tl (skip_ws s)) < List.length s.
Proof.
  pose proof (skip_ws_length s) as Hlen.
  destruct (skip_ws s); simpl in *; [discriminate|lia].
Qed.

Lemma prepend_some (c : option N) (p : option (jstr * jstr)) (b r : jstr) :
  prepend c p = Some (b, r) -> exists b', p = Some (b', r).
Proof.
  destruct c; [|discriminate]. destruct p as [[b' r']|]; [|discriminate].
  simpl. intros H. injection H as _ <-. eauto.
Qed.

Lemma parse_string_body_shorter (n : nat) :
  forall s b r, List.length s <= n -> parse_string_body s = Some (b, r) ->
    List.length r < List.length s.
Proof.
  induction n as [|n IH]; intros s b r Hn.
  - destruct s; [discriminate|simpl in Hn; lia].
  - destruct s as [|c s]; [discriminate|]. simpl in Hn. simpl.
    destruct (c =? 34)%N.
    { intros H. injection H as _ <-. lia. }
    destruct (c =? 92)%N.
    { destruct s as [|e s1]; [discriminate|].
      destruct (e =? 117)%N.
      - destruct s1 as [|a1 [|a2 [|a3 [|a4 s2]]]]; try discriminate.
        intros H. apply prepend_some in H as [b' H].
        apply IH in H; simpl in *; lia.
      - intros H. apply prepend_some in H as [b' H].
        apply IH in H; simpl in *; lia. }
    destruct (c <? 32)%N; [discriminate|].
    destruct (parse_string_body s) as [[b' r']|] eqn:H'; [|discriminate].
    intros H. injection H as _ <-. apply IH in H'; lia.
Qed.

Lemma take_digits_length (s d r : jstr) :
  take_digits s = (d, r) -> List.length d + List.length r = List.length s.
Proof.
  revert d r. induction s as [|c s IH]; simpl; intros d r.
  - intros H. injection H as <- <-. reflexivity.
  - destruct (is_digit c).
    + destruct (take_digits s) as [d' r']. intros H. injection H as <- <-.
      simpl. rewrite (IH d' r' eq_refl). reflexivity.
    + intros H. injection H as <- <-. reflexivity.
Qed.

Lemma some_digits_shorter (s d r : jstr) :
  some_digits s = Some (d, r) -> List.length r < List.length s.
Proof.
  unfold some_digits. destruct (take_digits s) as [d' r'] eqn:Ht.
  apply take_digits_length in Ht. destruct d'; [discriminate|].
  intros H. injection H as <- <-. simpl in Ht. lia.
Qed.

Lemma take_minus_length (s s1 : jstr) (neg : bool) :
  take_minus s = (neg, s1) -> List.length s1 <= List.length s.
Proof.
  unfold take_minus. destruct s as [|c s']; [intros H; injection H as _ <-; lia|].
  destruct (c =? 45)%N; intros H; injection H as _ <-; simpl; lia.
Qed.

Lemma take_sign_length (s s1 : jstr) (neg : bool) :
  take_sign s = (neg, s1) -> List.length s1 <= List.length s.
Proof.
  unfold take_sign. destruct s as [|c s']; [intros H; injection H as _ <-; lia|].
  destruct (c =? 45)%N; [intros H; injection H as _ <-; simpl; lia|].
  destruct (c =? 43)%N; intros H; injection H as _ <-; simpl; lia.
Qed.

Lemma scan_integer_shorter (s d r : jstr) :
  scan_integer s = Some (d, r) -> List.length r < List.length s.
Proof.
  unfold scan_integer. destruct s as [|c s']; [discriminate|].
  destruct (c =? 48)%N; [intros H; injection H as _ <-; simpl; lia|].
  apply some_digits_shorter.
Qed.

Lemma scan_fraction_length (s d r : jstr) :
  scan_fraction s = Some (d, r) -> List.length r <= List.length s.
Proof.
  unfold scan_fraction. destruct s as [|c s']; [intros H; injection H as _ <-; lia|].
  destruct (c =? 46)%N; [|intros H; injection H as _ <-; lia].
  intros H. apply some_digits_shorter in H. simpl. lia.
Qed.

Lemma scan_exponent_length (s r : jstr) (ex : Z) :
  scan_exponent s = Some (ex, r) -> List.length r <= List.length s.
Proof.
  unfold scan_exponent. destruct s as [|c s']; [intros H; injection H as _ <-; lia|].
  destruct ((c =? 101) || (c =? 69))%N; [|intros H; injection H as _ <-; lia].
  destruct (take_sign s') as [neg r1] eqn:Hs. apply take_sign_length in Hs.
  destruct (some_digits r1) as [[d r2]|] eqn:Hd; [|discriminate].
  apply some_digits_shorter in Hd. intros H. injection H as _ <-. simpl. lia.
Qed.

Lemma parse_number_shorter (s : jstr) (v : JValue) (r : jstr) :
  parse_number s = Some (v, r) -> List.length r < List.length s.
Proof.
  unfold parse_number.
  destruct (take_minus s) as [neg s1] eqn:Hm. apply take_minus_length in Hm.
  destruct (scan_integer s1) as [[ds s2]|] eqn:Hi; [|discriminate].
  apply scan_integer_shorter in Hi.
  destruct (scan_fraction s2) as [[fs s3]|] eqn:Hf; [|discriminate].
  apply scan_fraction_length in Hf.
  destruct (scan_exponent s3) as [[ex s4]|] eqn:He; [|discriminate].
  apply scan_exponent_length in He.
  intros H. injection H as _ <-. lia.
Qed.

Lemma starts_with_length (pat s : jstr) :
  starts_with pat s = true -> List.length pat <= List.length s.
Proof.
  revert s. induction pat as [|p pat IH]; intros [|c s]; simpl;
    try lia; try discriminate.
  intros H. apply andb_true_iff in H as [_ H]. apply IH in H. lia.
Qed.

Lemma parse_literal_shorter (s : jstr) (v : JValue) (r : jstr) :
  parse_literal s = Some (v, r) -> List.length r < List.length s.
Proof.
  unfold parse_literal.
  destruct (starts_with (lit "true") s) eqn:Ht.
  { apply starts_with_length in Ht. intros H.
    assert (r = skipn 4 s) as -> by congruence.
    rewrite length_skipn. simpl in Ht. lia. }
  destruct (starts_with (lit "false") s) eqn:Hf.
  { apply starts_with_length in Hf. intros H.
    assert (r = skipn 5 s) as -> by congruence.
    rewrite length_skipn. simpl in Hf. lia. }
  destruct (starts_with (lit "null") s) eqn:Hn.
  { apply starts_with_length in Hn. intros H.
    assert (r = skipn 4 s) as -> by congruence.
    rewrite length_skipn. simpl in Hn. lia. }
  apply parse_number_shorter.
Qed.

(** Whatever is parsed consumes at least one code unit. *)
Lemma parse_shorter (fuel : nat) :
  (forall s v r, parse_value fuel s = Some (v, r) ->
     List.length r < List.length s) /\
  (forall acc s v r, parse_members fuel acc s = Some (v, r) ->
     List.length r < List.length s) /\
  (forall acc s v r, parse_elements fuel acc s = Some (v, r) ->
     List.length r < List.length s).
Proof.
  induction fuel as [|fuel (IHv & IHm & IHe)];
    [repeat split; intros; discriminate|].
  split; [|split].
  - intros s v r. simpl. pose proof (skip_ws_length s) as Hs.
    destruct (skip_ws s) as [|c s1]; [discriminate|]. simpl in Hs.
    destruct (c =? 123)%N.
    { destruct (starts_with_char 125 (skip_ws s1)) eqn:Hc.
      - apply tail_after_char in Hc. intros H. injection H as _ <-. lia.
      - intros H. apply IHm in H. lia. }
    destruct (c =? 91)%N.
    { destruct (starts_with_char 93 (skip_ws s1)) eqn:Hc.
      - apply tail_after_char in Hc. intros H. injection H as _ <-. lia.
      - intros H. apply IHe in H. lia. }
    destruct (c =? 34)%N.
    { destruct (parse_string_body s1) as [[str rest]|] eqn:Hb; [|discriminate].
      apply (parse_string_body_shorter (n := List.length s1)) in Hb; [|lia].
      intros H. injection H as _ <-. lia. }
    intros H. apply parse_literal_shorter in H. simpl in H. lia.
  - intros acc s v r. simpl.
    destruct (starts_with_char 34 (skip_ws s)) eqn:Hq; [|discriminate].
    apply tail_after_char in Hq.
    destruct (parse_string_body (tl (skip_ws s))) as [[key r1]|] eqn:Hb;
      [|discriminate].
    apply (parse_string_body_shorter (n := List.length (tl (skip_ws s))))
      in Hb; [|lia].
    destruct (starts_with_char 58 (skip_ws r1)) eqn:Hc; [|discriminate].
    apply tail_after_char in Hc.
    destruct (parse_value fuel (tl (skip_ws r1))) as [[v1 r2]|] eqn:Hv;
      [|discriminate].
    apply IHv in Hv.
    destruct (starts_with_char 44 (skip_ws r2)) eqn:Hcomma.
    { apply tail_after_char in Hcomma. intros H. apply IHm in H. lia. }
    destruct (starts_with_char 125 (skip_ws r2)) eqn:Hclose; [|discriminate].
    apply tail_after_char in Hclose. intros H. injection H as _ <-. lia.
  - intros acc s v r. simpl.
    destruct (parse_value fuel s) as [[v1 r1]|] eqn:Hv; [|discriminate].
    apply IHv in Hv.
    destruct (starts_with_char 44 (skip_ws r1)) eqn:Hcomma.
    { apply tail_after_char in Hcomma. intros H. apply IHe in H. lia. }
    destruct (starts_with_char 93 (skip_ws r1)) eqn:Hclose; [|discriminate].
    apply tail_after_char in Hclose. intros H. injection H as _ <-. lia.
Qed.

(** Beyond twice the length of the text, more fuel changes nothing. *)
Lemma parse_fuel_enough (fuel : nat) :
  (forall s fuel', 2 * List.length s < fuel -> 2 * List.length s < fuel' ->
     parse_value fuel s = parse_value fuel' s) /\
  (forall acc s fuel', 2 * List.length s < fuel -> 2 * List.length s < fuel' ->
     parse_members fuel acc s = parse_members fuel' acc s) /\
  (forall acc s fuel',
     2 * List.length s + 1 < fuel -> 2 * List.length s + 1 < fuel' ->
     parse_elements fuel acc s = parse_elements fuel' acc s).
Proof.
  induction fuel as [|fuel (IHv & IHm & IHe)];
    [repeat split; intros; lia|].
  split; [|split].
  - intros s [|fuel'] Hf Hf'; [lia|]. simpl.
    pose proof (skip_ws_length s) as Hs.
    destruct (skip_ws s) as [|c s1]; [reflexivity|]. simpl in Hs.
    destruct (c =? 123)%N.
    { destruct (starts_with_char 125 (skip_ws s1)); [reflexivity|].
      apply IHm; lia. }
    destruct (c =? 91)%N; [|reflexivity].
    destruct (starts_with_char 93 (skip_ws s1)); [reflexivity|].
    apply IHe; lia.
  - intros acc s [|fuel'] Hf Hf'; [lia|]. simpl.
    destruct (starts_with_char 34 (skip_ws s)) eqn:Hq; [|reflexivity].
    apply tail_after_char in Hq.
    destruct (parse_string_body (tl (skip_ws s))) as [[key r1]|] eqn:Hb;
      [|reflexivity].
    apply (parse_string_body_shorter (n := List.length (tl (skip_ws s))))
      in Hb; [|lia].
    destruct (starts_with_char 58 (skip_ws r1)) eqn:Hc; [|reflexivity].
    apply tail_after_char in Hc.
    rewrite (IHv (tl (skip_ws r1)) fuel') by lia.
    destruct (parse_value fuel' (tl (skip_ws r1))) as [[v1 r2]|] eqn:Hv;
      [|reflexivity].
    apply (proj1 (parse_shorter fuel')) in Hv.
    destruct (starts_with_char 44 (skip_ws r2)) eqn:Hcomma; [|reflexivity].
    apply tail_after_char in Hcomma. apply IHm; lia.
  - intros acc s [|fuel'] Hf Hf'; [lia|]. simpl.
    rewrite (IHv s fuel') by lia.
    destruct (parse_value fuel' s) as [[v1 r1]|] eqn:Hv; [|reflexivity].
    apply (proj1 (parse_shorter fuel')) in Hv.
    destruct (starts_with_char 44 (skip_ws r1)) eqn:Hcomma; [|reflexivity].
    apply tail_after_char in Hcomma. apply IHe; lia.
Qed.

(** [JSON_parse] gives what the parser gives with any larger fuel. *)
Theorem JSON_parse_fuel (text : jstr) (fuel : nat) :
  2 * List.length (skip_ws text) < fuel ->
  parse_value fuel (skip_ws text)
  = parse_value (2 * List.length (skip_ws text) + 2) (skip_ws text).
Proof.
  intros Hfuel. apply (proj1 (parse_fuel_enough fuel)); lia.
Qed.

End FuelFacts.

(** ** The extractor's two loops *)

Section ExtractorFacts.

Variable clean : jstr.

(** Whatever the inner loop returns is a piece of the text that ends at
    the closing brace and passes the test. *)
Lemma walk_back_sound (closeIdx : nat) :
  forall k balance candidate,
    walk_back clean closeIdx k balance = Some candidate ->
    exists i, i < k /\ candidate = substring i (closeIdx + 1) clean /\
              accepts candidate = true.
Proof.
  induction k as [|i IH]; intros balance candidate; simpl; [discriminate|].
  destruct (step_balance clean i balance =? 0)%Z.
  - destruct (accepts (substring i (closeIdx + 1) clean)) eqn:Hacc.
    + intros H. injection H as <-. exists i. auto.
    + intros H. apply IH in H as (i' & Hlt & Heq & Hok). exists i'. auto.
  - intros H. apply IH in H as (i' & Hlt & Heq & Hok). exists i'. auto.
Qed.

Lemma first_match_sound (closing : list nat) (candidate : jstr) :
  first_match clean closing = Some candidate ->
  exists i closeIdx, i <= closeIdx /\
    candidate = substring i (closeIdx + 1) clean /\ accepts candidate = true.
Proof.
  induction closing as [|c rest IH]; simpl; [discriminate|].
  destruct (walk_back clean c (c + 1) 0) as [cand|] eqn:Hw.
  - intros H. injection H as <-.
    apply walk_back_sound in Hw as (i & Hlt & Heq & Hok).
    exists i, c. repeat split; [lia|assumption..].
  - exact IH.
Qed.

(** An accepted piece that ends at a closing brace holds a tool object
    ending there: only white space can stand before its opening brace. *)
Lemma accepted_piece_holds_object (closeIdx : nat) :
  char_is clean closeIdx close_brace = true ->
  forall d i, closeIdx - i = d -> i <= closeIdx ->
    accepts (substring i (closeIdx + 1) clean) = true ->
    exists i', i <= i' /\ tool_object_at clean i' closeIdx.
Proof.
  intros Hclose. induction d as [|d IH]; intros i Hd Hle Hacc.
  - assert (i = closeIdx) by lia. subst i.
    pose proof (char_is_nth _ _ _ Hclose) as Hnth.
    rewrite (substring_cons clean (x := close_brace)) in Hacc
      by (lia || assumption).
    apply accepts_drop_head in Hacc as [_ Hacc]; [|reflexivity].
    replace (closeIdx + 1) with (S closeIdx) in Hacc by lia.
    rewrite substring_empty in Hacc. discriminate.
  - assert (Hlt : i < List.length clean).
    { apply char_is_lt in Hclose. lia. }
    destruct (nth_error clean i) as [x|] eqn:Hnth;
      [|apply nth_error_None in Hnth; lia].
    destruct (N.eqb x open_brace) eqn:Hx.
    + exists i. split; [lia|]. repeat split; try assumption.
      unfold char_is. now rewrite Hnth.
    + rewrite (substring_cons clean (x := x)) in Hacc by (lia || assumption).
      apply accepts_drop_head in Hacc as [_ Hacc]; [|assumption].
      destruct (IH (S i)) as (i' & Hi' & Hobj); [lia|lia|assumption|].
      exists i'. split; [lia|assumption].
Qed.

Lemma step_balance_from (b i : nat) :
  i <= b -> b < List.length clean ->
  step_balance clean i (balance_from clean b (S i)) = balance_from clean b i.
Proof.
  intros Hle Hlt. unfold step_balance, balance_from, char_is.
  destruct (nth_error clean i) as [x|] eqn:Hnth;
    [|apply nth_error_None in Hnth; lia].
  rewrite (substring_cons clean (i := i) (x := x)) by (lia || assumption).
  simpl Str.count.
  destruct (N.eqb x close_brace) eqn:Hc; destruct (N.eqb x open_brace) eqn:Ho;
    lia.
Qed.

Variables a b : nat.
Hypothesis only : only_tool_object clean a b.

Lemma walk_back_other_brace (closeIdx : nat) :
  char_is clean closeIdx close_brace = true -> closeIdx <> b ->
  walk_back clean closeIdx (closeIdx + 1) 0 = None.
Proof.
  intros Hclose Hne.
  destruct (walk_back clean closeIdx (closeIdx + 1) 0) as [cand|] eqn:Hw;
    [|reflexivity].
  exfalso. apply walk_back_sound in Hw as (i & Hlt & -> & Hacc).
  destruct (accepted_piece_holds_object Hclose (d := closeIdx - i) (i := i))
    as (i' & _ & Hobj); [reflexivity|lia|assumption|].
  destruct only as (_ & _ & Huniq). apply Huniq in Hobj. lia.
Qed.

Lemma walk_back_reaches_object :
  forall d k, k = a + 1 + d -> k <= b + 1 ->
    walk_back clean b k (balance_from clean b k)
    = Some (substring a (b + 1) clean).
Proof.
  destruct only as ((Hab & Hopen & Hclose & Hacc) & Hbal & Huniq).
  pose proof (char_is_lt _ _ _ Hclose) as Hlen.
  induction d as [|d IH]; intros k Hk Hkb.
  - replace k with (S a) by lia. simpl.
    rewrite step_balance_from by lia.
    unfold balance_from. red in Hbal. rewrite Hbal, Z.sub_diag. simpl.
    now rewrite Hacc.
  - destruct k as [|i]; [lia|]. simpl.
    rewrite step_balance_from by lia.
    assert (Hrej : accepts (substring i (b + 1) clean) = false).
    { destruct (accepts (substring i (b + 1) clean)) eqn:Hi; [|reflexivity].
      exfalso.
      destruct (accepted_piece_holds_object Hclose (d := b - i) (i := i))
        as (i' & Hi' & Hobj); [reflexivity|lia|assumption|].
      apply Huniq in Hobj. lia. }
    rewrite Hrej.
    destruct (balance_from clean b i =? 0)%Z; apply IH; lia.
Qed.

Lemma walk_back_object :
  walk_back clean b (b + 1) 0 = Some (substring a (b + 1) clean).
Proof.
  destruct only as ((Hab & _) & _).
  replace 0%Z with (balance_from clean b (b + 1)).
  - apply walk_back_reaches_object with (d := b - a); lia.
  - unfold balance_from. now rewrite substring_empty.
Qed.

Lemma first_match_object (n : nat) :
  b < n ->
  first_match clean (closing_indices clean n)
  = Some (substring a (b + 1) clean).
Proof.
  destruct only as ((_ & _ & Hclose & _) & _).
  induction n as [|i IH]; intros Hlt; [lia|]. simpl.
  destruct (Nat.eq_dec i b) as [->|Hne].
  - rewrite Hclose. simpl. now rewrite walk_back_object.
  - destruct (char_is clean i close_brace) eqn:Hi.
    + simpl. rewrite walk_back_other_brace by assumption. apply IH. lia.
    + apply IH. lia.
Qed.

End ExtractorFacts.

Lemma first_match_nothing (clean : jstr) (closing : list nat) :
  nothing_accepted clean -> first_match clean closing = None.
Proof.
  intros Hnone.
  destruct (first_match clean closing) as [cand|] eqn:Hm; [|reflexivity].
  apply first_match_sound in Hm as (i & c & Hle & -> & Hacc).
  rewrite Hnone in Hacc by lia. discriminate.
Qed.

(** * Effects and the fallback loop *)

(** ** The effect monad *)

Section EffectFacts.

Context {A B : Type}.

Lemma bind_ret (a : A) (k : A -> Eff B) : bind (ret a) k = k a.
Proof. unfold bind, ret. now destruct (k a). Qed.

Lemma bind_lift_returned (a : A) (k : A -> Eff B) :
  bind (lift (Returned a)) k = k a.
Proof. exact (bind_ret a k). Qed.

Lemma bind_lift_threw (e : JsError) (k : A -> Eff B) :
  bind (lift (Threw e)) k = ([], Threw e).
Proof. reflexivity. Qed.

Lemma bind_call_returned (ev : Event) (a : A) (k : A -> Eff B) :
  bind (call ev (Returned a)) k = (ev :: trace (k a), outcome (k a)).
Proof. unfold bind, call. now destruct (k a). Qed.

Lemma bind_call_threw (ev : Event) (e : JsError) (k : A -> Eff B) :
  bind (call ev (Threw e)) k = ([ev], Threw e).
Proof. reflexivity. Qed.


Lemma try_catch_returned (m : Eff A) (h : JsError -> Eff A) (a : A) :
  outcome m = Returned a -> try_catch m h = m.
Proof. destruct m as [t o]. simpl. now intros ->. Qed.

Lemma try_catch_threw (m : Eff A) (h : JsError -> Eff A) (e : JsError) :
  outcome m = Threw e ->
  try_catch m h = (trace m ++ trace (h e), outcome (h e)).
Proof.
  destruct m as [t o]. simpl. intros ->. unfold try_catch. now destruct (h e).
Qed.

End EffectFacts.

Section EventFacts.

Context {A B : Type}.
Variable test : Event -> bool.

Lemma pass_ret (a : A) : events_pass test (ret a).
Proof. reflexivity. Qed.

Lemma pass_throw (e : JsError) : events_pass test (@throw A e).
Proof. reflexivity. Qed.

Lemma pass_lift (o : Outcome A) : events_pass test (lift o).
Proof. reflexivity. Qed.

Lemma pass_call (ev : Event) (o : Outcome A) :
  test ev = true -> events_pass test (call ev o).
Proof. unfold events_pass. simpl. now intros ->. Qed.

Lemma pass_bind (m : Eff A) (k : A -> Eff B) :
  events_pass test m -> (forall a, events_pass test (k a)) ->
  events_pass test (bind m k).
Proof.
  unfold events_pass, bind. destruct m as [t [a|e]]; simpl; intros Hm Hk.
  - specialize (Hk a). destruct (k a) as [t2 r]. simpl in *.
    now rewrite forallb_app, Hm, Hk.
  - assumption.
Qed.

Lemma pass_try_catch (m : Eff A) (h : JsError -> Eff A) :
  events_pass test m -> (forall e, events_pass test (h e)) ->
  events_pass test (try_catch m h).
Proof.
  unfold events_pass, try_catch. destruct m as [t [a|e]]; simpl; intros Hm Hh.
  - assumption.
  - specialize (Hh e). destruct (h e) as [t2 r]. simpl in *.
    now rewrite forallb_app, Hm, Hh.
Qed.

End EventFacts.

(** Walks through a computation built from the monad's operations. *)
Ltac pass_events :=
  repeat lazymatch goal with
  | |- events_pass _ (ret _) => apply pass_ret
  | |- events_pass _ (throw _) => apply pass_throw
  | |- events_pass _ (lift _) => apply pass_lift
  | |- events_pass _ (call _ _) => apply pass_call; reflexivity
  | |- events_pass _ (bind _ _) => apply pass_bind; [|intros ?]
  | |- events_pass _ (try_catch _ _) => apply pass_try_catch; [|intros ?]
  | |- events_pass _ (if ?c then _ else _) => destruct c
  | |- events_pass _ (match ?x with _ => _ end) => destruct x
  end.

(** ** Building the system instruction *)

Section ManifestFacts.

Lemma quietly_ret {A : Type} (P : A -> Prop) (a : A) :
  P a -> quietly P (ret a).
Proof.
  intros H. split; [reflexivity|]. simpl. intros b Hb.
  injection Hb as <-. exact H.
Qed.

Lemma quietly_lift {A : Type} (o : Outcome A) :
  quietly (fun a => o = Returned a) (lift o).
Proof.
  split; [reflexivity|]. simpl. now intros a ->.
Qed.

Lemma quietly_bind {A B : Type} (P : A -> Prop) (Q : B -> Prop)
    (m : Eff A) (k : A -> Eff B) :
  quietly P m -> (forall a, P a -> quietly Q (k a)) -> quietly Q (bind m k).
Proof.
  intros [Ht Hm] Hk. destruct m as [t [a|e]]; simpl in *; subst t.
  - destruct (Hk a (Hm a eq_refl)) as [Hkt Hka].
    destruct (k a) as [t2 r]; simpl in *. split; [exact Hkt|exact Hka].
  - split; [reflexivity|]. simpl. discriminate.
Qed.

Lemma quietly_weaken {A : Type} (P Q : A -> Prop) (m : Eff A) :
  quietly P m -> (forall a, P a -> Q a) -> quietly Q m.
Proof.
  intros [Ht Hm] H. split; [exact Ht|]. intros a Ha. apply H, Hm, Ha.
Qed.

Lemma render_parameter_line (schema : JValue) (paramName : jstr)
    (paramSchema : JValue) :
  quietly
    (fun line => exists typeText required descriptionText,
       line = Manifest.parameter_line paramName typeText required descriptionText)
    (Manifest.render_parameter schema paramName paramSchema).
Proof.
  unfold Manifest.render_parameter.
  eapply quietly_bind; [apply quietly_lift|]. intros required _.
  eapply quietly_bind; [apply quietly_lift|]. intros type _.
  eapply quietly_bind; [apply quietly_lift|]. intros typeText _.
  eapply quietly_bind; [apply quietly_lift|]. intros description _.
  eapply quietly_bind; [apply quietly_lift|]. intros descriptionText _.
  apply quietly_ret. now exists typeText, required, descriptionText.
Qed.

Lemma render_parameters_lines (schema : JValue) (entries : list (jstr * JValue)) :
  quietly
    (fun text => exists lines,
       text = List.concat lines
       /\ Forall2
            (fun paramName line =>
               exists typeText required descriptionText,
                 line = Manifest.parameter_line paramName typeText required
                          descriptionText)
            (map fst entries) lines)
    (Manifest.render_parameters schema entries).
Proof.
  induction entries as [|[paramName paramSchema] rest IH]; simpl.
  - apply quietly_ret. exists []. split; [reflexivity|constructor].
  - eapply quietly_bind; [apply render_parameter_line|]. intros line Hline.
    eapply quietly_bind; [exact IH|]. intros more [lines [-> Hlines]].
    apply quietly_ret. exists (line :: lines).
    split; [reflexivity|]. now constructor.
Qed.

Lemma render_tool_block (tool : McpTool) :
  quietly (Manifest.announced tool (Manifest.parameter_names tool))
          (Manifest.render_tool tool).
Proof.
  unfold Manifest.render_tool, Manifest.parameter_names, Manifest.announced.
  destruct (inputSchema tool) as [| |b|m e|s|items|fields];
    try (refine (@quietly_ret _ _ (Manifest.tool_block tool []) _);
         exists []; split; [reflexivity|constructor]).
  eapply quietly_bind; [apply quietly_lift|]. simpl.
  intros properties Hp. injection Hp as <-.
  destruct (truthy (obj_get fields (lit "properties"))).
  - eapply quietly_bind; [apply render_parameters_lines|].
    intros parameters [lines [-> Hlines]].
    apply quietly_ret. now exists lines.
  - refine (@quietly_ret _ _ (Manifest.tool_block tool []) _).
    exists []. split; [reflexivity|constructor].
Qed.

Lemma render_tools_blocks (tools : list McpTool) :
  quietly
    (fun listed => exists blocks,
       listed = List.concat blocks
       /\ Forall2
            (fun tool block =>
               Manifest.announced tool (Manifest.parameter_names tool) block)
            tools blocks)
    (Manifest.render_tools tools).
Proof.
  induction tools as [|tool rest IH]; simpl.
  - apply quietly_ret. exists []. split; [reflexivity|constructor].
  - eapply quietly_bind; [apply render_tool_block|]. intros block Hblock.
    eapply quietly_bind; [exact IH|]. intros more [blocks [-> Hblocks]].
    apply quietly_ret. exists (block :: blocks).
    split; [reflexivity|]. now constructor.
Qed.

(** On the tools written out in the handler of a failed discovery the
    instruction is built, whatever the time. *)
Lemma fallback_tools_build (now : Manifest.Clock) :
  exists instruction,
    outcome (Manifest.buildSystemInstruction now fallback_tools)
    = Returned instruction.
Proof.
  unfold Manifest.buildSystemInstruction.
  destruct (Manifest.render_tools fallback_tools) as [t [listed|e]] eqn:H.
  - simpl. eauto.
  - vm_compute in H. discriminate.
Qed.

End ManifestFacts.

(** ** The fallback loop *)

Section OrchestratorFacts.

Variables (env : Env) (st : McpState) (userMessage : jstr) (userId : Z).

Lemma handle_tool_call_returns (model content jsonStr : jstr) :
  exists v,
    outcome (handle_tool_call env st userMessage userId model content jsonStr)
    = Returned v.
Proof.
  unfold handle_tool_call, try_catch.
  match goal with |- context [match ?m with _ => _ end] =>
    destruct m as [t [v|e]] end; simpl; eauto.
Qed.

Lemma respond_returns (model content : jstr) :
  exists v,
    outcome (respond env st userMessage userId model content) = Returned v.
Proof.
  unfold respond. destruct (extractJson content) as [jsonStr|]; simpl; eauto.
  destruct jsonStr; simpl; eauto using handle_tool_call_returns.
Qed.

(** [buildSystemInstruction()] calls nothing outside. *)
Lemma buildSystemInstruction_quiet : trace (buildSystemInstruction env st) = [].
Proof.
  unfold buildSystemInstruction, Manifest.buildSystemInstruction.
  refine (proj1 (@quietly_bind _ _ (fun _ => True) (fun _ => True) _ _ _ _)).
  - eapply quietly_weaken; [apply render_tools_blocks|trivial].
  - intros listed _. now apply quietly_ret.
Qed.

Lemma builds_run (instruction : jstr) :
  builds env st instruction -> buildSystemInstruction env st = ret instruction.
Proof.
  unfold builds. pose proof buildSystemInstruction_quiet as Hquiet.
  destruct (buildSystemInstruction env st) as [t o]. simpl in *.
  now intros ->; subst t.
Qed.

Lemma unbuilt_run (e : JsError) :
  outcome (buildSystemInstruction env st) = Threw e ->
  buildSystemInstruction env st = throw e.
Proof.
  pose proof buildSystemInstruction_quiet as Hquiet.
  destruct (buildSystemInstruction env st) as [t o]. simpl in *.
  now intros ->; subst t.
Qed.

Lemma buildSystemInstruction_cases :
  (exists instruction, builds env st instruction) \/
  (exists e, outcome (buildSystemInstruction env st) = Threw e).
Proof.
  unfold builds. destruct (outcome (buildSystemInstruction env st)); eauto.
Qed.

Lemma buildSystemInstruction_silent (test : Event -> bool) :
  events_pass test (buildSystemInstruction env st).
Proof. unfold events_pass. now rewrite buildSystemInstruction_quiet. Qed.

Lemma try_models_returns (remaining : list jstr) :
  exists v,
    outcome (try_models env st userMessage userId remaining) = Returned v.
Proof.
  induction remaining as [|m rest IH]; simpl; eauto.
  unfold try_catch.
  destruct (attempt env st userMessage userId m) as [t [v|e]]; simpl; eauto.
  destruct IH as [v Hv].
  destruct (try_models env st userMessage userId rest) as [t2 r].
  simpl in *. eauto.
Qed.

(** When the instruction cannot be built no request is sent. *)
Lemma attempt_unbuilt (m : jstr) (e : JsError) :
  outcome (buildSystemInstruction env st) = Threw e ->
  attempt env st userMessage userId m = ([], Threw e).
Proof. intros H. unfold attempt. now rewrite (unbuilt_run H). Qed.

Lemma try_models_unbuilt (remaining : list jstr) (e : JsError) :
  outcome (buildSystemInstruction env st) = Threw e ->
  try_models env st userMessage userId remaining
  = ([], Returned (JStr msg_apology)).
Proof.
  intros H. induction remaining as [|m rest IH]; [reflexivity|].
  cbn [try_models]. rewrite (attempt_unbuilt m H). unfold try_catch.
  now rewrite IH.
Qed.

Lemma attempt_failed (instruction m : jstr) (e : JsError) :
  builds env st instruction ->
  chatCompletion env (first_request instruction userMessage m) = Threw e ->
  attempt env st userMessage userId m
  = ([EvChat (first_request instruction userMessage m)], Threw e).
Proof.
  intros Hb H. unfold attempt. rewrite (builds_run Hb), bind_ret.
  unfold call, bind. now rewrite H.
Qed.

Lemma attempt_answered (instruction m : jstr) (reply : option jstr) :
  builds env st instruction ->
  chatCompletion env (first_request instruction userMessage m)
  = Returned reply ->
  let r := respond env st userMessage userId m
             (match reply with Some text => text | None => [] end) in
  attempt env st userMessage userId m
  = (EvChat (first_request instruction userMessage m) :: trace r, outcome r).
Proof.
  intros Hb H r. unfold attempt. rewrite (builds_run Hb), bind_ret.
  unfold call, bind. rewrite H. subst r.
  now destruct (respond env st userMessage userId m _).
Qed.

Lemma try_models_skips_failed (instruction : jstr)
    (failed remaining : list jstr) :
  builds env st instruction ->
  (forall m, In m failed -> exists e,
     chatCompletion env (first_request instruction userMessage m) = Threw e) ->
  let r := try_models env st userMessage userId remaining in
  try_models env st userMessage userId (failed ++ remaining)
  = (map (fun m => EvChat (first_request instruction userMessage m)) failed
       ++ trace r, outcome r).
Proof.
  intros Hb Hfail r. induction failed as [|m failed IH]; simpl.
  - subst r. now destruct (try_models env st userMessage userId remaining).
  - destruct (Hfail m) as [e He]; [now left|].
    rewrite (@attempt_failed instruction m e Hb He). simpl.
    rewrite IH by (intros; apply Hfail; now right). reflexivity.
Qed.

(** Once a model has answered its first request, the reply of the
    whole function is decided by [respond] on that answer. *)
Lemma generateAIResponse_answered (instruction : jstr) (failed : list jstr)
    (model : jstr) (reply : option jstr) :
  first_answer env st instruction userMessage failed model reply ->
  let r := respond env st userMessage userId model
             (match reply with Some text => text | None => [] end) in
  generateAIResponse env st userMessage userId
  = (first_requests instruction userMessage failed model ++ trace r,
     outcome r).
Proof.
  intros (Hb & (rest & Hmodels) & Hfail & Hans) r.
  unfold generateAIResponse. rewrite Hmodels.
  rewrite (@try_models_skips_failed instruction failed (model :: rest) Hb)
    by assumption.
  simpl try_models. rewrite (@attempt_answered instruction model reply Hb Hans).
  fold r.
  destruct (respond_returns model
              (match reply with Some text => text | None => [] end))
    as [v Hv]. fold r in Hv.
  unfold try_catch. destruct r as [t o]. simpl in *. subst o.
  unfold first_requests. rewrite map_app. simpl.
  now rewrite <- app_assoc.
Qed.

End OrchestratorFacts.

(** ** Checking the hypotheses of the extraction theorems on a text *)

Section Checks.

Lemma substring_within (text : jstr) (i j : nat) :
  exists i' j', i' <= List.length text /\ j' <= List.length text /\
    substring i j text = substring i' j' text.
Proof.
  unfold substring.
  destruct (Nat.le_gt_cases (List.length text) i) as [Hi|Hi].
  - exists (List.length text), (List.length text).
    rewrite !skipn_all2 by lia. rewrite !firstn_nil. auto.
  - destruct (Nat.le_gt_cases j (List.length text)) as [Hj|Hj].
    + exists i, j. repeat split; (lia || reflexivity).
    + exists i, (List.length text). repeat split; try lia.
      rewrite !firstn_all2; [reflexivity|rewrite length_skipn; lia..].
Qed.

Lemma all_pieces_spec (test : jstr -> bool) (text : jstr) :
  all_pieces test text = true -> forall i j, test (substring i j text) = true.
Proof.
  unfold all_pieces. intros H i j.
  destruct (substring_within text i j) as (i' & j' & Hi & Hj & ->).
  rewrite forallb_forall in H.
  specialize (H i'). rewrite forallb_forall in H.
  apply H; apply in_seq; lia.
Qed.

Lemma tool_object_atb_spec (text : jstr) (a b : nat) :
  tool_object_atb text a b = true <-> tool_object_at text a b.
Proof.
  unfold tool_object_atb, tool_object_at.
  destruct (Nat.leb_spec a b);
    destruct (char_is text a open_brace);
    destruct (char_is text b close_brace);
    intuition (try discriminate; try lia).
Qed.

Lemma only_tool_objectb_spec (text : jstr) (a b : nat) :
  only_tool_objectb text a b = true -> only_tool_object text a b.
Proof.
  unfold only_tool_objectb, only_tool_object, brace_balanced.
  rewrite !andb_true_iff, Nat.eqb_eq, tool_object_atb_spec.
  intros ((Hobj & Hbal) & Hall). split; [assumption|]. split; [exact Hbal|].
  intros i j Hij. pose proof Hij as (_ & Hi & Hj & _).
  apply char_is_lt in Hi. apply char_is_lt in Hj.
  rewrite forallb_forall in Hall.
  specialize (Hall i ltac:(apply in_seq; lia)).
  rewrite forallb_forall in Hall.
  specialize (Hall j ltac:(apply in_seq; lia)).
  apply tool_object_atb_spec in Hij. rewrite Hij in Hall.
  apply andb_true_iff in Hall as [Ha Hb].
  apply Nat.eqb_eq in Ha. apply Nat.eqb_eq in Hb. auto.
Qed.

Lemma no_tool_field_object_check (text : jstr) :
  all_pieces no_tool_field text = true -> no_tool_field_object text.
Proof.
  intros H i j v _ Hv. pose proof (all_pieces_spec _ _ H i j) as Hp.
  unfold no_tool_field in Hp. rewrite Hv in Hp.
  now apply negb_true_iff in Hp.
Qed.

Lemma nothing_accepted_check (text : jstr) :
  all_pieces (fun piece => negb (accepts piece)) text = true ->
  nothing_accepted text.
Proof.
  intros H i j _. pose proof (all_pieces_spec _ _ H i j) as Hp.
  now apply negb_true_iff in Hp.
Qed.

End Checks.

(** * Extraction *)

(** C1 (amended).  When the cleaned text (fence markers and control
    characters stripped, then trimmed) holds exactly one tool-bearing
    JSON object, and that object has as many opening as closing braces,
    [extractJson] returns exactly the text of that object. *)
Theorem extractJson_returns_the_object (raw : jstr) (a b : nat) :
  only_tool_object (clean_text raw) a b ->
  extractJson raw = Some (substring a (b + 1) (clean_text raw)).
Proof.
  intros Honly. unfold extractJson. apply first_match_object; [assumption|].
  destruct Honly as ((_ & _ & Hclose & _) & _).
  now apply char_is_lt in Hclose.
Qed.

Lemma extractJson_returns_the_object_witness :
  only_tool_object (clean_text fenced_reply) 26 75 /\
  extractJson fenced_reply
  = Some (substring 26 (75 + 1) (clean_text fenced_reply)).
Proof.
  split.
  - apply only_tool_objectb_spec. vm_compute. reflexivity.
  - apply (@extractJson_returns_the_object fenced_reply 26 75).
    apply only_tool_objectb_spec. vm_compute. reflexivity.
Defined.

(** C1 as stated fails on the raw text: here the output holds exactly
    one tool object, intact and balanced, followed by an object whose
    first key is [tool] only once the fence marker inside it is stripped;
    that second object is what is extracted. *)
Lemma extractJson_takes_the_decoy :
  only_tool_object call_then_fenced_key 0 45 /\
  ~ extracts_the_object call_then_fenced_key.
Proof.
  assert (Honly : only_tool_object call_then_fenced_key 0 45)
    by (apply only_tool_objectb_spec; vm_compute; reflexivity).
  split; [exact Honly|].
  intros Hclaim. destruct (Hclaim 0 45 Honly) as (out & Hout & Hsame).
  vm_compute in Hout. injection Hout as <-.
  vm_compute in Hsame. discriminate.
Qed.

(** A fence marker inside a string value is stripped with the others:
    the call that is extracted carries another query. *)
Example extractJson_fence_in_value :
  only_tool_object fence_in_value 0 45 /\
  extractJson fence_in_value
  = Some (jq "{'tool':'search_trips','args':{'query':''}}").
Proof.
  split; [apply only_tool_objectb_spec|]; vm_compute; reflexivity.
Qed.

(** A closing brace inside a string value unbalances the count, and
    nothing is extracted although the output is one well-formed tool
    call. *)
Example extractJson_brace_in_value :
  accepts brace_in_value = true /\ extractJson brace_in_value = None.
Proof. split; vm_compute; reflexivity. Qed.

(** C2 (amended).  When no piece of the cleaned text parses to an object
    with a non-empty [tool], nothing is extracted; and when such a text
    is the reply of the first model that answers (which takes a system
    instruction that could be built), it is returned as it is, after
    nothing but the first requests. *)
Theorem plain_reply_is_returned (raw : jstr) :
  nothing_accepted (clean_text raw) ->
  extractJson raw = None /\
  forall env st instruction userMessage userId failed model,
    first_answer env st instruction userMessage failed model (Some raw) ->
    generateAIResponse env st userMessage userId
    = (first_requests instruction userMessage failed model,
       Returned (JStr raw)).
Proof.
  intros Hnone.
  assert (Hex : extractJson raw = None)
    by (unfold extractJson; now apply first_match_nothing).
  split; [assumption|].
  intros env st instruction userMessage userId failed model Hans.
  rewrite (generateAIResponse_answered userId Hans).
  unfold respond. rewrite Hex. simpl. now rewrite app_nil_r.
Qed.

Lemma plain_reply_is_returned_witness :
  nothing_accepted (clean_text plain_reply) /\
  extractJson plain_reply = None /\
  builds env_first_down initial_state (built env_first_down initial_state) /\
  generateAIResponse env_first_down initial_state (lit "hello") 1
  = (first_requests (built env_first_down initial_state) (lit "hello")
       [lit "mistralai/Mixtral-8x7B-Instruct-v0.1"]
       (lit "NousResearch/Hermes-2-Pro-Mistral-7B"),
     Returned (JStr plain_reply)).
Proof.
  assert (Hnone : nothing_accepted (clean_text plain_reply))
    by (apply nothing_accepted_check; vm_compute; reflexivity).
  split; [exact Hnone|].
  destruct (@plain_reply_is_returned plain_reply Hnone) as [Hex Hreply].
  split; [exact Hex|].
  assert (Hb : builds env_first_down initial_state
                 (built env_first_down initial_state))
    by (vm_compute; reflexivity).
  split; [exact Hb|].
  apply Hreply. split; [exact Hb|]. repeat split.
  - eexists. reflexivity.
  - intros m [<-|[]]. eexists. reflexivity.
Defined.

(** The sibling extractors never parse what they cut out: on a plain
    reply one of them returns [null] as well, the other returns the
    cleaned reply itself. *)
Example sibling_extractors_on_plain_reply :
  extractJson plain_reply = None /\
  extractJson_first_to_last plain_reply = None /\
  extractJson_or_clean plain_reply = Some plain_reply.
Proof. repeat split; vm_compute; reflexivity. Qed.

(** C2 as stated fails on the raw text: this output holds no object with
    a [tool] field, yet stripping the fence marker inside its first key
    makes one, which is extracted. *)
Lemma fence_in_key_is_extracted :
  no_tool_field_object fence_in_key /\ ~ replies_raw_text fence_in_key.
Proof.
  split.
  - apply no_tool_field_object_check. vm_compute. reflexivity.
  - intros [Hnone _]. vm_compute in Hnone. discriminate.
Qed.

(** * Orchestration *)

(** ** Events of a request *)

Section RequestEvents.

Variables (env : Env) (st : McpState) (userMessage : jstr) (userId : Z).

Lemma plain_time_silent (test : Event -> bool) (v : JValue) :
  events_pass test (plain_time v).
Proof. unfold plain_time. pass_events. Qed.

Lemma normalize_args_silent (test : Event -> bool) (tool : jstr)
    (args : JValue) :
  events_pass test (normalize_args tool args).
Proof.
  unfold normalize_args, normalize_create_event, normalize_list_events,
    normalize_create_calendar_event.
  pass_events; apply plain_time_silent.
Qed.

Lemma run_mcp_tool_events (test : Event -> bool) (tool : jstr) (args : JValue) :
  (forall t a, test (EvMcpCallTool t a) = true) ->
  events_pass test (run_mcp_tool env tool args).
Proof.
  intros Hcall. unfold run_mcp_tool.
  apply pass_try_catch; [|intros ?; pass_events].
  apply pass_bind; [apply normalize_args_silent|intros ?].
  apply pass_bind; [apply pass_call, Hcall|intros ?; pass_events].
Qed.

(** A request never dials the provider. *)
Lemma executeTool_never_connects (toolCall : JValue) :
  events_pass (fun e => negb (is_connect e))
              (executeTool env st toolCall userId).
Proof.
  unfold executeTool. pass_events.
  all: try (apply run_mcp_tool_events; reflexivity).
Qed.

(** Without a client, a request makes no MCP call. *)
Lemma executeTool_unconnected (toolCall : JValue) :
  mcpClient st = None ->
  events_pass (fun e => negb (is_mcp_call e))
              (executeTool env st toolCall userId).
Proof.
  intros Hnone. unfold executeTool. rewrite Hnone. pass_events.
Qed.

Lemma generateAIResponse_events (test : Event -> bool) :
  (forall req, test (EvChat req) = true) ->
  (forall toolCall, events_pass test (executeTool env st toolCall userId)) ->
  events_pass test (generateAIResponse env st userMessage userId).
Proof.
  intros Hchat Htool. unfold generateAIResponse.
  induction models as [|m rest IH]; simpl; [reflexivity|].
  apply pass_try_catch; [|intros _; exact IH].
  unfold attempt.
  apply pass_bind; [apply buildSystemInstruction_silent|intros instruction].
  apply pass_bind; [apply pass_call, Hchat|intros reply].
  unfold respond, handle_tool_call, summarize.
  pass_events; try apply Htool; try apply buildSystemInstruction_silent;
    apply pass_call, Hchat.
Qed.

End RequestEvents.

(** ** A detected tool call *)

Section ToolCalls.

Variables (env : Env) (st : McpState) (userMessage : jstr) (userId : Z).

Lemma json_text_nonempty (text : jstr) (v : JValue) :
  JSON_parse text = Some v -> truthy (JStr text) = true.
Proof. destruct text; [discriminate|reflexivity]. Qed.

Lemma respond_tool_call (model content jsonStr : jstr) (toolCall : JValue) :
  extractJson content = Some jsonStr ->
  JSON_parse jsonStr = Some toolCall ->
  isValidToolCall toolCall = true ->
  respond env st userMessage userId model content
  = try_catch
      (r <- executeTool env st toolCall userId;;
       summarize env st userMessage model jsonStr r)
      (fun _ => ret (JStr content)).
Proof.
  intros Hex Hparse Hvalid. unfold respond, handle_tool_call.
  now rewrite Hex, (json_text_nonempty _ Hparse), Hparse, Hvalid.
Qed.

(** The reply to an answer that carries a valid tool call. *)
Lemma generateAIResponse_tool_call (instruction : jstr) (failed : list jstr)
    (model content jsonStr : jstr) (toolCall : JValue) :
  answers_with_call env st instruction userMessage failed model content
    jsonStr toolCall ->
  isValidToolCall toolCall = true ->
  let r := try_catch
             (r <- executeTool env st toolCall userId;;
              summarize env st userMessage model jsonStr r)
             (fun _ => ret (JStr content)) in
  generateAIResponse env st userMessage userId
  = (first_requests instruction userMessage failed model ++ trace r,
     outcome r).
Proof.
  intros (Hans & Hex & Hparse) Hvalid r.
  rewrite (generateAIResponse_answered userId Hans).
  now rewrite (respond_tool_call _ _ Hex Hparse Hvalid).
Qed.

Lemma calls_tool_args (toolCall : JValue) (tool : jstr) (args : JValue) :
  calls_tool toolCall tool args ->
  forall k, get_prop args k = Returned (arg_value args k).
Proof.
  intros (Hvalid & _ & Hargs) k. unfold isValidToolCall in Hvalid.
  rewrite Hargs in Hvalid. unfold arg_value.
  destruct args; try reflexivity; simpl in Hvalid;
    rewrite ?andb_false_r in Hvalid; discriminate.
Qed.

Lemma executeTool_details (toolCall args : JValue) :
  calls_tool toolCall (lit "get_booking_details") args ->
  executeTool env st toolCall userId
  = (bookingId <- lift (parseInt (arg_value args (lit "bookingId")));;
     match bookingId with
     | None => ret (inl (JStr msg_need_id_status))
     | Some id =>
         r <- call (EvGetBookingDetails id) (getBookingDetails env id);;
         ret (inr r)
     end).
Proof.
  intros Hcall. pose proof (calls_tool_args Hcall) as Harg.
  destruct Hcall as (_ & Htool & Hargs). unfold executeTool.
  rewrite Htool, Hargs, !bind_lift_returned.
  change (is_string (JStr (lit "get_booking_details")) (lit "search_trips"))
    with false.
  change (is_string (JStr (lit "get_booking_details"))
            (lit "get_booking_details")) with true.
  cbv iota. now rewrite Harg, bind_lift_returned.
Qed.

Lemma executeTool_cancel (toolCall args : JValue) :
  calls_tool toolCall (lit "cancel_booking") args ->
  executeTool env st toolCall userId
  = (cancelId <- lift (parseInt (arg_value args (lit "bookingId")));;
     match cancelId with
     | None => ret (inl (JStr msg_need_id_cancel))
     | Some id =>
         r <- call (EvCancelTicket id) (cancelTicket env id);;
         ret (inr r)
     end).
Proof.
  intros Hcall. pose proof (calls_tool_args Hcall) as Harg.
  destruct Hcall as (_ & Htool & Hargs). unfold executeTool.
  rewrite Htool, Hargs, !bind_lift_returned.
  change (is_string (JStr (lit "cancel_booking")) (lit "search_trips"))
    with false.
  change (is_string (JStr (lit "cancel_booking")) (lit "get_booking_details"))
    with false.
  change (is_string (JStr (lit "cancel_booking")) (lit "cancel_booking"))
    with true.
  cbv iota. now rewrite Harg, bind_lift_returned.
Qed.

Lemma executeTool_book (toolCall args : JValue) :
  calls_tool toolCall (lit "book_ticket") args ->
  let tripId := arg_value args (lit "tripId") in
  let pickupId := arg_value args (lit "pickupId") in
  let dropId := arg_value args (lit "dropId") in
  let amount := arg_value args (lit "amount") in
  executeTool env st toolCall userId
  = (r <- call (EvBookTicket tripId userId pickupId dropId amount)
               (bookTicket env tripId userId pickupId dropId amount);;
     ret (inr r)).
Proof.
  intros Hcall. pose proof (calls_tool_args Hcall) as Harg.
  destruct Hcall as (_ & Htool & Hargs). unfold executeTool.
  rewrite Htool, Hargs, !bind_lift_returned.
  change (is_string (JStr (lit "book_ticket")) (lit "search_trips"))
    with false.
  change (is_string (JStr (lit "book_ticket")) (lit "get_booking_details"))
    with false.
  change (is_string (JStr (lit "book_ticket")) (lit "cancel_booking"))
    with false.
  change (is_string (JStr (lit "book_ticket")) (lit "book_ticket")) with true.
  cbv iota. now rewrite !Harg, !bind_lift_returned.
Qed.

Lemma not_builtin (tool : jstr) :
  is_builtin tool = false ->
  is_string (JStr tool) (lit "search_trips") = false /\
  is_string (JStr tool) (lit "get_booking_details") = false /\
  is_string (JStr tool) (lit "cancel_booking") = false /\
  is_string (JStr tool) (lit "book_ticket") = false.
Proof.
  unfold is_builtin, builtin_tools, is_string. simpl existsb.
  rewrite !orb_false_iff. tauto.
Qed.

(** The [default] branch of the switch. *)
Lemma executeTool_default (toolCall : JValue) (tool : jstr) (args : JValue) :
  calls_tool toolCall tool args -> is_builtin tool = false ->
  executeTool env st toolCall userId
  = if connected st && registered st tool
    then r <- run_mcp_tool env tool args;; ret (inr r)
    else ret (inl (JStr msg_unknown_tool)).
Proof.
  intros (_ & Htool & Hargs) Hnot.
  apply not_builtin in Hnot as (H1 & H2 & H3 & H4). unfold executeTool.
  rewrite Htool, Hargs, !bind_lift_returned, H1, H2, H3, H4.
  unfold connected, registered. now destruct (mcpClient st).
Qed.


End ToolCalls.

(** ** Failures of the endpoints *)

(** No exception leaves [generateAIResponse]: on every message, caller
    and behaviour of the outside world it returns a value. *)
Theorem generateAIResponse_never_throws (env : Env) (st : McpState)
    (userMessage : jstr) (userId : Z) :
  exists v,
    outcome (generateAIResponse env st userMessage userId) = Returned v.
Proof. apply try_models_returns. Qed.

(** C3.  The value returned is not always a text: when the summary
    completion carries no content, the function returns [undefined]
    (the first completion is guarded by [|| ""], this one by nothing). *)
Theorem summary_without_content_returns_undefined :
  let env := env_replying search_call (Returned None) TimedOut [] in
  let instruction := built env initial_state in
  builds env initial_state instruction /\
  generateAIResponse env initial_state (lit "find buses to Goa") 1
  = ([ EvChat (first_request instruction (lit "find buses to Goa")
                 (lit "mistralai/Mixtral-8x7B-Instruct-v0.1"));
       EvSearchTrips (JStr (lit "Goa"));
       EvChat (summary_request instruction (lit "find buses to Goa")
                 (lit "mistralai/Mixtral-8x7B-Instruct-v0.1")
                 search_call (lit "3 buses found")) ],
     Returned JUndefined).
Proof. split; vm_compute; reflexivity. Qed.



(** ** The connector *)

Lemma serve_never_connects (st : McpState) (r : Request) :
  events_pass (fun e => negb (is_connect e)) (serve st r).
Proof.
  apply generateAIResponse_events; [reflexivity|].
  intros toolCall. apply executeTool_never_connects.
Qed.

Lemma serve_unconnected (st : McpState) (r : Request) :
  mcpClient st = None ->
  events_pass (fun e => negb (is_mcp_call e)) (serve st r).
Proof.
  intros Hnone. apply generateAIResponse_events; [reflexivity|].
  intros toolCall. now apply executeTool_unconnected.
Qed.

Lemma filter_none (test : Event -> bool) (events : list Event) :
  forallb (fun e => negb (test e)) events = true -> filter test events = [].
Proof.
  induction events as [|e events IH]; simpl; [reflexivity|].
  intros H. apply andb_true_iff in H as [He Hrest].
  apply negb_true_iff in He. rewrite He. now apply IH.
Qed.

Lemma served_events (test : Event -> bool) (st : McpState)
    (requests : list Request) :
  (forall r, events_pass (fun e => negb (test e)) (serve st r)) ->
  filter test (flat_map (fun r => trace (serve st r)) requests) = [].
Proof.
  intros Hserve. induction requests as [|r rest IH]; simpl; [reflexivity|].
  rewrite filter_app, IH, app_nil_r. apply filter_none, Hserve.
Qed.

(** C5.  Over the whole life of the process the provider is dialled at
    most once: the initializer runs when the module is loaded, and no
    request, served against whatever state, dials the provider; a call
    of the initializer that finds a client returns it and changes
    nothing; after a handshake that was rejected or timed out the client
    stays unset, the registry holds no external tool, and no request
    reaches the provider. *)
Theorem connector_dials_once (env : Env) (early late : list Request) :
  dials (run env early late) <= 1 /\
  (forall st requests,
     dials (flat_map (fun r => trace (serve st r)) requests) = 0) /\
  (forall st client, mcpClient st = Some client ->
     connectToMcpServer env st = ([], st, Some client)) /\
  (mcp_connect env <> Established ->
     settled_state env = initial_state /\
     filter is_mcp_call (run env early late) = []).
Proof.
  assert (Hserved : forall st requests,
            dials (flat_map (fun r => trace (serve st r)) requests) = 0).
  { intros st requests. unfold dials.
    now rewrite served_events by (intros; apply serve_never_connects). }
  split; [|split; [exact Hserved|split]].
  - unfold dials, run. rewrite !filter_app, !length_app.
    fold (dials (flat_map (fun r => trace (serve initial_state r)) early)).
    fold (dials (flat_map (fun r => trace (serve (settled_state env) r)) late)).
    rewrite !Hserved. unfold module_load, connectToMcpServer. simpl.
    destruct (mcp_connect env); [destruct (mcp_listTools env)|..];
      simpl; lia.
  - intros st client Hclient. unfold connectToMcpServer. now rewrite Hclient.
  - intros Hfailed.
    assert (Hload : module_load env = ([EvMcpConnect], initial_state)).
    { unfold module_load, connectToMcpServer. simpl.
      destruct (mcp_connect env); [contradiction|reflexivity..]. }
    unfold run, settled_state. rewrite Hload. cbn [fst snd].
    split; [reflexivity|]. rewrite !filter_app.
    rewrite !served_events by (intros; now apply serve_unconnected).
    reflexivity.
Qed.

Lemma connector_dials_once_witness :
  dials (run env_offline
           [mkRequest env_offline (lit "hello") 1]
           [mkRequest (env_replying list_events_call
                         (Returned (Some (lit "done"))) TimedOut [])
                      (lit "what is on my calendar") 2]) <= 1 /\
  connectToMcpServer env_offline connected_state
  = ([], connected_state, Some new_client) /\
  settled_state env_offline = initial_state /\
  filter is_mcp_call
    (run env_offline
       [mkRequest env_offline (lit "hello") 1]
       [mkRequest (env_replying list_events_call
                     (Returned (Some (lit "done"))) TimedOut [])
                  (lit "what is on my calendar") 2]) = [].
Proof.
  pose proof (connector_dials_once env_offline
    [mkRequest env_offline (lit "hello") 1]
    [mkRequest (env_replying list_events_call
                  (Returned (Some (lit "done"))) TimedOut [])
               (lit "what is on my calendar") 2])
    as (Hdial & _ & Hagain & Hfail).
  split; [exact Hdial|]. split.
  - apply Hagain. reflexivity.
  - apply Hfail. discriminate.
Defined.

(** The initializer itself keeps no mark of a failed handshake: it finds
    no client and would dial again.  No run of the process gets there,
    since the only call of the initializer is the one at module load. *)
Remark initializer_keeps_no_mark :
  settled_state env_offline = initial_state /\
  connectToMcpServer env_offline (settled_state env_offline)
  = ([EvMcpConnect], initial_state, None).
Proof. split; reflexivity. Qed.

(** ** Dispatch *)

Section Dispatch.

Variables (env : Env) (st : McpState) (userMessage : jstr) (userId : Z).

Lemma trace_try_ret {A : Type} (m : Eff A) (a : A) :
  trace (try_catch m (fun _ => ret a)) = trace m.
Proof.
  destruct m as [t [v|e]]; simpl; [reflexivity|apply app_nil_r].
Qed.

(** The summary turn once the instruction is built. *)
Lemma summarize_built (instruction model jsonStr toolResult : jstr) :
  builds env st instruction ->
  summarize env st userMessage model jsonStr (inr toolResult)
  = (let req :=
       summary_request instruction userMessage model jsonStr toolResult in
     final <- call (EvChat req) (chatCompletion env req);;
     ret (match final with
          | Some text => JStr text
          | None => JUndefined
          end)).
Proof.
  intros Hb. unfold summarize. now rewrite (builds_run Hb), bind_ret.
Qed.

Lemma trace_summarize (instruction model jsonStr toolResult : jstr) :
  builds env st instruction ->
  trace (summarize env st userMessage model jsonStr (inr toolResult))
  = [EvChat (summary_request instruction userMessage model jsonStr toolResult)].
Proof.
  intros Hb. rewrite (summarize_built _ _ _ Hb). unfold call, bind.
  now destruct (chatCompletion env _) as [[text|]|e].
Qed.


(** The executor called first by a built-in branch shows as the first
    event after the first requests. *)
Lemma trace_executor_first (ev : Event) (o : Outcome jstr)
    (model jsonStr : jstr) (reply : JValue) :
  exists more,
    trace (try_catch
             (r <- (x <- call ev o;; ret (inr x));;
              summarize env st userMessage model jsonStr r)
             (fun _ => ret reply))
    = ev :: more.
Proof.
  rewrite trace_try_ret. unfold call, bind, ret. destruct o as [x|e].
  - destruct (summarize env st userMessage model jsonStr (inr x)).
    simpl. eauto.
  - simpl. eauto.
Qed.

End Dispatch.

(** ** [parseInt] on a string of digits *)

Section ParseIntFacts.






End ParseIntFacts.

(** ** External tools *)

Section ExternalTools.

Variables (env : Env) (st : McpState) (userMessage : jstr) (userId : Z).

Lemma silent_trace {A : Type} (m : Eff A) :
  events_pass (fun _ => false) m -> trace m = [].
Proof.
  unfold events_pass. destruct (trace m); [reflexivity|discriminate].
Qed.








End ExternalTools.


(** Discharges [answers_with_call] for a sample environment whose first
    model answers. *)
Ltac sample_first_answer :=
  split;
  [ vm_compute; reflexivity
  | split; [eexists; reflexivity | split; [intros ? [] | reflexivity]] ].

Ltac sample_answer :=
  split; [ sample_first_answer | split; vm_compute; reflexivity ].

Ltac sample_call := repeat split; vm_compute; reflexivity.






(** ** Built-in tools *)

(** C8.  A call of [get_booking_details] or [cancel_booking] whose
    [bookingId] parses to [NaN] is answered at once with the fixed
    message that asks for a valid booking ID number: the trace holds the
    first requests and nothing else, so no booking tool runs and no
    summary is requested. *)
Theorem invalid_booking_id_short_circuits (env : Env) (st : McpState)
    (instruction userMessage : jstr) (userId : Z) (failed : list jstr)
    (model content jsonStr : jstr) (toolCall args : JValue) :
  answers_with_call env st instruction userMessage failed model content jsonStr
      toolCall ->
  parseInt (arg_value args (lit "bookingId")) = Returned None ->
  (calls_tool toolCall (lit "get_booking_details") args ->
   generateAIResponse env st userMessage userId
   = (first_requests instruction userMessage failed model,
      Returned (JStr msg_need_id_status)))
  /\
  (calls_tool toolCall (lit "cancel_booking") args ->
   generateAIResponse env st userMessage userId
   = (first_requests instruction userMessage failed model,
      Returned (JStr msg_need_id_cancel)))
  /\
  includes (lit "need a valid booking ID number") msg_need_id_status = true
  /\
  includes (lit "need a valid booking ID number") msg_need_id_cancel = true.
Proof.
  intros Hans Hnan. split; [|split; [|split; reflexivity]].
  - intros Hcall.
    rewrite (generateAIResponse_tool_call userId Hans (proj1 Hcall)).
    rewrite (executeTool_details env st userId Hcall), Hnan.
    rewrite bind_lift_returned, bind_ret. simpl. now rewrite app_nil_r.
  - intros Hcall.
    rewrite (generateAIResponse_tool_call userId Hans (proj1 Hcall)).
    rewrite (executeTool_cancel env st userId Hcall), Hnan.
    rewrite bind_lift_returned, bind_ret. simpl. now rewrite app_nil_r.
Qed.

Lemma invalid_booking_id_short_circuits_witness :
  parseInt (JStr (lit "abc")) = Returned None /\
  generateAIResponse env_details_abc initial_state (lit "status of abc") 1
  = (first_requests (built env_details_abc initial_state) (lit "status of abc") []
       first_model,
     Returned (JStr msg_need_id_status))
  /\
  generateAIResponse env_cancel_abc initial_state (lit "cancel abc") 1
  = (first_requests (built env_cancel_abc initial_state) (lit "cancel abc") []
       first_model,
     Returned (JStr msg_need_id_cancel)).
Proof.
  split; [reflexivity|]. split.
  - apply (proj1 (@invalid_booking_id_short_circuits env_details_abc
             initial_state (built env_details_abc initial_state)
                 (lit "status of abc") 1 [] first_model
             details_call_abc details_call_abc (parsed details_call_abc)
             (JObj [(lit "bookingId", JStr (lit "abc"))])
             ltac:(sample_answer) eq_refl)).
    sample_call.
  - apply (proj1 (proj2 (@invalid_booking_id_short_circuits env_cancel_abc
             initial_state (built env_cancel_abc initial_state)
                 (lit "cancel abc") 1 [] first_model
             cancel_call_abc cancel_call_abc (parsed cancel_call_abc)
             (JObj [(lit "bookingId", JStr (lit "abc"))])
             ltac:(sample_answer) eq_refl))).
    sample_call.
Defined.





(** C10.  A valid call of [book_ticket] runs the booking tool with
    [args.tripId], the caller's id, [args.pickupId], [args.dropId] and
    [args.amount] exactly as the model gave them ([undefined] for a
    missing one); nothing is checked before. *)
Theorem book_ticket_takes_arguments_as_given (env : Env) (st : McpState)
    (instruction userMessage : jstr) (userId : Z) (failed : list jstr)
    (model content jsonStr : jstr) (toolCall args : JValue) :
  answers_with_call env st instruction userMessage failed model content jsonStr
      toolCall ->
  calls_tool toolCall (lit "book_ticket") args ->
  exists more,
    trace (generateAIResponse env st userMessage userId)
    = first_requests instruction userMessage failed model
      ++ EvBookTicket (arg_value args (lit "tripId")) userId
           (arg_value args (lit "pickupId")) (arg_value args (lit "dropId"))
           (arg_value args (lit "amount"))
         :: more.
Proof.
  intros Hans Hcall.
  rewrite (generateAIResponse_tool_call userId Hans (proj1 Hcall)).
  rewrite (executeTool_book env st userId Hcall).
  match goal with |- context [call ?ev ?o] =>
    destruct (trace_executor_first env st userMessage ev o model jsonStr
                (JStr content)) as [more Hmore]
  end.
  exists more. unfold trace at 1. cbn [fst]. now rewrite Hmore.
Qed.

Lemma book_ticket_takes_arguments_as_given_witness :
  exists more,
    trace (generateAIResponse env_book initial_state (lit "book it") 7)
    = first_requests (built env_book initial_state) (lit "book it") []
        first_model
      ++ EvBookTicket (JStr (lit "next one")) 7 JUndefined JNull (JNum (-5) 0)
         :: more.
Proof.
  apply (@book_ticket_takes_arguments_as_given env_book initial_state
      (built env_book initial_state)
           (lit "book it") 7 [] first_model book_call book_call
           (parsed book_call)
           (JObj [ (lit "tripId", JStr (lit "next one"));
                   (lit "dropId", JNull);
                   (lit "amount", JNum (-5) 0) ])
           ltac:(sample_answer) ltac:(sample_call)).
Defined.

(** * Further properties of the extractor *)

Section ScanFacts.

Variable clean : jstr.

Lemma balance_from_end (b : nat) : balance_from clean b (b + 1) = 0%Z.
Proof. unfold balance_from. now rewrite substring_empty. Qed.

Lemma balance_zero_balanced (b i : nat) :
  balance_from clean b i = 0%Z <-> brace_balanced (substring i (b + 1) clean).
Proof. unfold balance_from, brace_balanced. lia. Qed.

(** What the inner loop does from position [k] downward, when it enters
    with the balance of [clean[k..b]]: it stops at the first position
    where the balance is zero and the piece is accepted. *)
Lemma walk_back_stops (b : nat) :
  b < List.length clean ->
  forall k, k <= b + 1 ->
    match walk_back clean b k (balance_from clean b k) with
    | Some candidate =>
        exists i, i < k /\ candidate = substring i (b + 1) clean /\
          balance_from clean b i = 0%Z /\ accepts candidate = true /\
          forall j, i < j < k -> balance_from clean b j = 0%Z ->
            accepts (substring j (b + 1) clean) = false
    | None =>
        forall j, j < k -> balance_from clean b j = 0%Z ->
          accepts (substring j (b + 1) clean) = false
    end.
Proof.
  intros Hlen. induction k as [|i IH]; intros Hk; simpl.
  - intros j Hj. lia.
  - rewrite step_balance_from by lia.
    specialize (IH ltac:(lia)).
    destruct (balance_from clean b i =? 0)%Z eqn:Hzero.
    + destruct (accepts (substring i (b + 1) clean)) eqn:Hacc.
      * exists i. split; [lia|]. split; [reflexivity|].
        split; [now apply Z.eqb_eq|]. split; [assumption|].
        intros j Hj. lia.
      * destruct (walk_back clean b i (balance_from clean b i)) as [cand|].
        -- destruct IH as (i' & Hlt & Heq & Hbal & Hok & Hmin).
           exists i'. repeat split; try (lia || assumption).
           intros j Hj Hbj. destruct (Nat.eq_dec j i) as [->|Hne];
             [assumption|apply Hmin; [lia|assumption]].
        -- intros j Hj Hbj. destruct (Nat.eq_dec j i) as [->|Hne];
             [assumption|apply IH; [lia|assumption]].
    + apply Z.eqb_neq in Hzero.
      destruct (walk_back clean b i (balance_from clean b i)) as [cand|].
      * destruct IH as (i' & Hlt & Heq & Hbal & Hok & Hmin).
        exists i'. repeat split; try (lia || assumption).
        intros j Hj Hbj. destruct (Nat.eq_dec j i) as [->|Hne];
          [contradiction|apply Hmin; [lia|assumption]].
      * intros j Hj Hbj. destruct (Nat.eq_dec j i) as [->|Hne];
          [contradiction|apply IH; [lia|assumption]].
Qed.

(** The piece the inner loop returns opens with a brace: it is the
    shortest balanced tool object that ends at [b]. *)
Lemma walk_back_opens (b : nat) (candidate : jstr) :
  char_is clean b close_brace = true ->
  walk_back clean b (b + 1) 0 = Some candidate ->
  exists i, candidate = substring i (b + 1) clean /\
    balanced_tool_object_at clean i b /\
    forall j, i < j -> ~ balanced_tool_object_at clean j b.
Proof.
  intros Hclose Hw. pose proof (char_is_lt _ _ _ Hclose) as Hlen.
  pose proof (@walk_back_stops b Hlen (b + 1) (Nat.le_refl _)) as Hstop.
  rewrite balance_from_end, Hw in Hstop.
  destruct Hstop as (i & Hlt & -> & Hbal & Hacc & Hmin).
  exists i. split; [reflexivity|].
  assert (Hopen : char_is clean i open_brace = true).
  { destruct (nth_error clean i) as [x|] eqn:Hnth;
      [|apply nth_error_None in Hnth; lia].
    unfold char_is. rewrite Hnth.
    destruct (N.eqb x open_brace) eqn:Hx; [reflexivity|exfalso].
    pose proof Hacc as Hacc'.
    rewrite (substring_cons clean (x := x)) in Hacc' by (lia || assumption).
    apply accepts_drop_head in Hacc' as [Hws Hrest]; [|assumption].
    destruct (Nat.eq_dec i b) as [->|Hne].
    - replace (b + 1) with (S b) in Hrest by lia.
      rewrite substring_empty in Hrest. discriminate.
    - rewrite (Hmin (S i)) in Hrest; [discriminate|lia|].
      rewrite <- Hbal, <- (@step_balance_from clean b i) by lia.
      unfold step_balance, char_is. rewrite Hnth, Hx.
      destruct (N.eqb x close_brace) eqn:Hc; [|reflexivity].
      apply N.eqb_eq in Hc. subst x. discriminate. }
  split.
  - split; [|now apply balance_zero_balanced].
    repeat split; (lia || assumption).
  - intros j Hj ((Hjb & _ & _ & Haccj) & Hbalj).
    rewrite Hmin in Haccj; [discriminate|lia|now apply balance_zero_balanced].
Qed.

Lemma walk_back_none (b : nat) :
  char_is clean b close_brace = true ->
  walk_back clean b (b + 1) 0 = None ->
  forall i, ~ balanced_tool_object_at clean i b.
Proof.
  intros Hclose Hw i ((Hib & _ & _ & Hacc) & Hbal).
  pose proof (char_is_lt _ _ _ Hclose) as Hlen.
  pose proof (@walk_back_stops b Hlen (b + 1) (Nat.le_refl _)) as Hstop.
  rewrite balance_from_end, Hw in Hstop.
  rewrite Hstop in Hacc; [discriminate|lia|now apply balance_zero_balanced].
Qed.

(** The outer loop returns the balanced tool object that ends at the
    rightmost closing brace at which one ends, and of those the
    shortest. *)
Lemma first_match_choice (n : nat) :
  n <= List.length clean ->
  match first_match clean (closing_indices clean n) with
  | Some candidate =>
      exists i b, b < n /\ candidate = substring i (b + 1) clean /\
        balanced_tool_object_at clean i b /\
        forall j c, c < n -> balanced_tool_object_at clean j c ->
          c < b \/ (c = b /\ j <= i)
  | None => forall j c, c < n -> ~ balanced_tool_object_at clean j c
  end.
Proof.
  induction n as [|m IH]; intros Hn; simpl.
  - intros j c Hc. lia.
  - specialize (IH ltac:(lia)).
    destruct (char_is clean m close_brace) eqn:Hm.
    + simpl. destruct (walk_back clean m (m + 1) 0) as [cand|] eqn:Hw.
      * destruct (@walk_back_opens m cand Hm Hw) as (i & -> & Hobj & Hmin).
        exists i, m. repeat split; try (lia || apply Hobj).
        intros j c Hc Hjc.
        destruct (Nat.eq_dec c m) as [->|Hne]; [|lia].
        right. split; [reflexivity|].
        destruct (Nat.le_gt_cases j i); [assumption|].
        exfalso. now apply (Hmin j).
      * pose proof (@walk_back_none m Hm Hw) as Hnone.
        destruct (first_match clean (closing_indices clean m)) as [cand|].
        -- destruct IH as (i & b & Hb & -> & Hobj & Hbest).
           exists i, b. repeat split; try (lia || apply Hobj).
           intros j c Hc Hjc.
           destruct (Nat.eq_dec c m) as [->|Hne];
             [exfalso; now apply (Hnone j)|apply Hbest; [lia|assumption]].
        -- intros j c Hc Hjc. destruct (Nat.eq_dec c m) as [->|Hne];
             [now apply (Hnone j)|apply (IH j c); [lia|assumption]].
    + assert (Hnone : forall j, ~ balanced_tool_object_at clean j m).
      { intros j ((_ & _ & Hcl & _) & _). congruence. }
      destruct (first_match clean (closing_indices clean m)) as [cand|].
      * destruct IH as (i & b & Hb & -> & Hobj & Hbest).
        exists i, b. repeat split; try (lia || apply Hobj).
        intros j c Hc Hjc.
        destruct (Nat.eq_dec c m) as [->|Hne];
          [exfalso; now apply (Hnone j)|apply Hbest; [lia|assumption]].
      * intros j c Hc Hjc. destruct (Nat.eq_dec c m) as [->|Hne];
          [now apply (Hnone j)|apply (IH j c); [lia|assumption]].
Qed.

End ScanFacts.

(** What [extractJson] returns is a piece of the cleaned text that opens
    and closes with a brace, holds as many opening as closing braces and
    parses to an object with a truthy [tool]: the [JSON.parse] that the
    orchestrator applies to it cannot fail, and the text is not empty. *)
Theorem extractJson_sound (raw out : jstr) :
  extractJson raw = Some out ->
  (exists i b, out = substring i (b + 1) (clean_text raw) /\
     balanced_tool_object_at (clean_text raw) i b) /\
  (exists toolCall, JSON_parse out = Some toolCall /\ has_tool toolCall = true)
  /\ truthy (JStr out) = true.
Proof.
  unfold extractJson. intros Hex.
  pose proof (@first_match_choice (clean_text raw) _ (Nat.le_refl _)) as H.
  rewrite Hex in H. destruct H as (i & b & _ & -> & Hobj & _).
  split; [eauto|].
  destruct Hobj as ((_ & _ & _ & Hacc) & _). unfold accepts in Hacc.
  destruct (JSON_parse _) as [v|] eqn:Hparse; [|discriminate].
  split; [eauto|]. exact (json_text_nonempty _ Hparse).
Qed.

Lemma extractJson_sound_witness :
  extractJson fenced_reply = Some fenced_call /\
  (exists i b, fenced_call = substring i (b + 1) (clean_text fenced_reply) /\
     balanced_tool_object_at (clean_text fenced_reply) i b) /\
  (exists toolCall,
     JSON_parse fenced_call = Some toolCall /\ has_tool toolCall = true)
  /\ truthy (JStr fenced_call) = true.
Proof.
  split; [vm_compute; reflexivity|].
  apply (@extractJson_sound fenced_reply fenced_call).
  vm_compute. reflexivity.
Defined.

(** Of the balanced tool objects in the cleaned text, [extractJson]
    returns the one that ends last, and of those that end there the
    shortest. *)
Theorem extractJson_rightmost (raw out : jstr) :
  extractJson raw = Some out ->
  exists i b, out = substring i (b + 1) (clean_text raw) /\
    forall j c, balanced_tool_object_at (clean_text raw) j c ->
      c < b \/ (c = b /\ j <= i).
Proof.
  unfold extractJson. intros Hex.
  pose proof (@first_match_choice (clean_text raw) _ (Nat.le_refl _)) as H.
  rewrite Hex in H. destruct H as (i & b & _ & -> & Hobj & Hbest).
  exists i, b. split; [reflexivity|].
  intros j c Hjc. apply Hbest; [|assumption].
  destruct Hjc as ((_ & _ & Hc & _) & _). now apply char_is_lt in Hc.
Qed.

Lemma extractJson_rightmost_witness :
  extractJson (search_call ++ lit " then " ++ cancel_call_7)
  = Some cancel_call_7 /\
  exists i b,
    cancel_call_7
    = substring i (b + 1)
        (clean_text (search_call ++ lit " then " ++ cancel_call_7)) /\
    forall j c,
      balanced_tool_object_at
        (clean_text (search_call ++ lit " then " ++ cancel_call_7)) j c ->
      c < b \/ (c = b /\ j <= i).
Proof.
  split; [vm_compute; reflexivity|].
  apply (@extractJson_rightmost (search_call ++ lit " then " ++ cancel_call_7)
           cancel_call_7).
  vm_compute. reflexivity.
Defined.

(** [extractJson] returns [null] exactly when the cleaned text holds no
    balanced tool object. *)
Theorem extractJson_none_iff (raw : jstr) :
  extractJson raw = None <->
  forall i b, ~ balanced_tool_object_at (clean_text raw) i b.
Proof.
  unfold extractJson.
  pose proof (@first_match_choice (clean_text raw) _ (Nat.le_refl _)) as H.
  destruct (first_match _ _) as [cand|].
  - destruct H as (i & b & _ & _ & Hobj & _). split; [discriminate|].
    intros Hnone. now apply Hnone in Hobj.
  - split; [|reflexivity]. intros _ i b Hobj. apply (H i b); [|assumption].
    destruct Hobj as ((_ & _ & Hc & _) & _). now apply char_is_lt in Hc.
Qed.

Lemma extractJson_none_iff_witness :
  (forall i b, ~ balanced_tool_object_at (clean_text brace_in_value) i b) /\
  extractJson brace_in_value = None.
Proof.
  assert (Hnone : extractJson brace_in_value = None)
    by (vm_compute; reflexivity).
  split; [|exact Hnone].
  exact (proj1 (extractJson_none_iff brace_in_value) Hnone).
Defined.

Section TidyFacts.

Lemma drop_spaces_split (s : jstr) :
  exists sp, s = sp ++ drop_spaces s /\ Forall (fun c => is_space c = true) sp.
Proof.
  induction s as [|c s (sp & Heq & Hsp)]; simpl.
  - exists []. auto.
  - destruct (is_space c) eqn:Hc.
    + exists (c :: sp). split; [simpl; congruence|now constructor].
    + exists []. auto.
Qed.

Lemma drop_spaces_opens (s : jstr) : opens_without_space (drop_spaces s).
Proof.
  induction s as [|c s IH]; simpl; [exact I|].
  destruct (is_space c) eqn:Hc; [assumption|exact Hc].
Qed.

Lemma drop_spaces_keeps (P : N -> Prop) (s : jstr) :
  Forall P s -> Forall P (drop_spaces s).
Proof.
  intros H. destruct (drop_spaces_split s) as (sp & Heq & _).
  rewrite Heq in H. now apply Forall_app in H.
Qed.

Lemma trim_keeps (P : N -> Prop) (s : jstr) : Forall P s -> Forall P (trim s).
Proof.
  intros H. unfold trim.
  apply Forall_rev, drop_spaces_keeps, Forall_rev, drop_spaces_keeps, H.
Qed.

Lemma trim_no_outer_space (s : jstr) : no_outer_space (trim s).
Proof.
  unfold no_outer_space, trim. rewrite rev_involutive.
  split; [|apply drop_spaces_opens].
  pose proof (drop_spaces_opens s) as Hhead.
  destruct (drop_spaces_split (rev (drop_spaces s))) as (sp & Heq & _).
  apply (f_equal (@rev N)) in Heq. rewrite rev_involutive, rev_app_distr in Heq.
  destruct (rev (drop_spaces (rev (drop_spaces s)))) as [|x u]; [exact I|].
  rewrite Heq in Hhead. exact Hhead.
Qed.

Lemma substring_keeps (P : N -> Prop) (s : jstr) (i j : nat) :
  Forall P s -> Forall P (substring i j s).
Proof.
  intros H. unfold substring.
  rewrite <- (firstn_skipn i s) in H. apply Forall_app in H as [_ H].
  rewrite <- (firstn_skipn (j - i) (skipn i s)) in H.
  now apply Forall_app in H.
Qed.

Lemma remove_control_clean (s : jstr) : no_control (remove_control s).
Proof.
  apply Forall_forall. intros x Hx. apply filter_In in Hx as [_ Hx].
  now apply negb_true_iff in Hx.
Qed.

End TidyFacts.

(** The text the scan runs on holds no control character (so no line
    break and no tab) and neither starts nor ends with white space; what
    [extractJson] returns is a piece of it and holds no control character
    either. *)
Theorem clean_text_tidy (raw : jstr) :
  no_control (clean_text raw) /\ no_outer_space (clean_text raw) /\
  forall out, extractJson raw = Some out -> no_control out.
Proof.
  assert (Hclean : no_control (clean_text raw))
    by apply trim_keeps, remove_control_clean.
  split; [exact Hclean|]. split; [apply trim_no_outer_space|].
  intros out Hex. unfold extractJson in Hex.
  apply first_match_sound in Hex as (i & b & _ & -> & _).
  now apply substring_keeps.
Qed.

Lemma clean_text_tidy_witness :
  extractJson fenced_reply = Some fenced_call /\ no_control fenced_call.
Proof.
  assert (Hex : extractJson fenced_reply = Some fenced_call)
    by (vm_compute; reflexivity).
  split; [exact Hex|].
  exact (proj2 (proj2 (clean_text_tidy fenced_reply)) fenced_call Hex).
Defined.

(** * Further properties of the orchestrator *)

(** ** Replies that run no tool *)

(** A tool object that fails the structural check (no [args], or a
    [tool] that is no string) is answered with the raw text of the
    model: no tool runs and no summary is requested. *)
Theorem invalid_structure_is_answered_raw (env : Env) (st : McpState)
    (instruction userMessage : jstr) (userId : Z) (failed : list jstr)
    (model content jsonStr : jstr) (toolCall : JValue) :
  answers_with_call env st instruction userMessage failed model content jsonStr
      toolCall ->
  isValidToolCall toolCall = false ->
  generateAIResponse env st userMessage userId
  = (first_requests instruction userMessage failed model, Returned (JStr
      content)).
Proof.
  intros (Hans & Hex & Hparse) Hvalid.
  rewrite (generateAIResponse_answered userId Hans).
  unfold respond, handle_tool_call.
  rewrite Hex, (json_text_nonempty _ Hparse), Hparse, Hvalid. simpl.
  now rewrite app_nil_r.
Qed.

Lemma invalid_structure_is_answered_raw_witness :
  generateAIResponse env_no_args initial_state (lit "find a bus") 1
  = (first_requests (built env_no_args initial_state) (lit "find a bus") []
      first_model,
     Returned (JStr tool_without_args)).
Proof.
  apply (@invalid_structure_is_answered_raw env_no_args initial_state
      (built env_no_args initial_state)
           (lit "find a bus") 1 [] first_model tool_without_args
           tool_without_args (parsed tool_without_args)).
  - sample_answer.
  - reflexivity.
Defined.

(** A first completion without content is answered with the empty text:
    the model counts as having answered, no later model is asked and the
    apology is not used. *)
Theorem empty_completion_is_answered_empty (env : Env) (st : McpState)
    (instruction userMessage : jstr) (userId : Z) (failed : list jstr)
    (model : jstr) :
  first_answer env st instruction userMessage failed model None ->
  generateAIResponse env st userMessage userId
  = (first_requests instruction userMessage failed model, Returned (JStr [])).
Proof.
  intros Hans. rewrite (generateAIResponse_answered userId Hans).
  unfold respond. change (extractJson []) with (@None jstr).
  simpl. now rewrite app_nil_r.
Qed.

Lemma empty_completion_is_answered_empty_witness :
  generateAIResponse env_silent initial_state (lit "hello") 1
  = (first_requests (built env_silent initial_state) (lit "hello") []
      first_model,
     Returned (JStr [])).
Proof.
  apply (@empty_completion_is_answered_empty env_silent initial_state
           (built env_silent initial_state) (lit "hello") 1 [] first_model).
  sample_first_answer.
Defined.

(** ** The two turns of a built-in tool *)

Section Replies.

Variables (env : Env) (st : McpState) (userMessage : jstr) (userId : Z).


End Replies.



(** ** The caller's id *)

Section Caller.

Variables (env : Env) (st : McpState) (userMessage : jstr).

Lemma trace_bind_head {A B : Type} (m : Eff A) (k : A -> Eff B) (ev : Event)
    (more : list Event) :
  trace m = ev :: more -> exists more', trace (bind m k) = ev :: more'.
Proof.
  destruct m as [t [a|e]]; simpl; intros ->; [|eauto].
  destruct (k a). simpl. eauto.
Qed.

(** The switch reads the caller's id in the [book_ticket] branch only. *)
Lemma executeTool_caller (toolCall : JValue) (u1 u2 : Z) :
  executeTool env st toolCall u1 = executeTool env st toolCall u2 \/
  exists ev more, is_booking ev = true /\
    trace (executeTool env st toolCall u1) = ev :: more.
Proof.
  unfold executeTool.
  destruct (get_prop toolCall (lit "tool")) as [tool|e]; [|now left].
  destruct (get_prop toolCall (lit "args")) as [args|e]; [|now left].
  rewrite !bind_lift_returned.
  destruct (is_string tool (lit "search_trips")); [now left|].
  destruct (is_string tool (lit "get_booking_details")); [now left|].
  destruct (is_string tool (lit "cancel_booking")); [now left|].
  destruct (is_string tool (lit "book_ticket")); [|now left].
  destruct (get_prop args (lit "tripId")) as [tripId|e]; [|now left].
  destruct (get_prop args (lit "pickupId")) as [pickupId|e]; [|now left].
  destruct (get_prop args (lit "dropId")) as [dropId|e]; [|now left].
  destruct (get_prop args (lit "amount")) as [amount|e]; [|now left].
  rewrite !bind_lift_returned. right.
  exists (EvBookTicket tripId u1 pickupId dropId amount).
  destruct (bookTicket env tripId u1 pickupId dropId amount); simpl; eauto.
Qed.

Lemma respond_caller (model content : jstr) (u1 u2 : Z) :
  respond env st userMessage u1 model content
  = respond env st userMessage u2 model content \/
  exists ev more, is_booking ev = true /\
    trace (respond env st userMessage u1 model content) = ev :: more.
Proof.
  unfold respond, handle_tool_call.
  destruct (extractJson content) as [jsonStr|]; [|now left].
  destruct (truthy (JStr jsonStr)); [|now left].
  destruct (JSON_parse jsonStr) as [toolCall|]; [|now left].
  destruct (isValidToolCall toolCall); [|now left]. cbn [negb].
  destruct (executeTool_caller toolCall u1 u2) as [->|(ev & more & Hev & Htr)];
    [now left|right].
  rewrite trace_try_ret.
  destruct (trace_bind_head _
              (fun r => summarize env st userMessage model jsonStr r) Htr)
    as [more' Hmore].
  eauto.
Qed.

End Caller.

(** The caller's id reaches nothing but [bookTicket]: a request that
    books no ticket is served the same way, with the same calls and the
    same reply, whoever the caller is.  In particular the
    [cancel_booking] and [get_booking_details] branches act on the
    booking id the model gave, whoever owns that booking. *)
Theorem caller_matters_for_booking_only (env : Env) (st : McpState)
    (userMessage : jstr) (caller other : Z) :
  events_pass (fun e => negb (is_booking e))
    (generateAIResponse env st userMessage caller) ->
  generateAIResponse env st userMessage caller
  = generateAIResponse env st userMessage other.
Proof.
  unfold generateAIResponse.
  destruct (buildSystemInstruction_cases env st) as [[instruction Hb]|[e He]].
  2:{ intros _.
      now rewrite (try_models_unbuilt env st userMessage caller models He),
        (try_models_unbuilt env st userMessage other models He). }
  generalize models as remaining.
  induction remaining as [|m rest IH]; [reflexivity|]. cbn [try_models].
  destruct (chatCompletion env (first_request instruction userMessage m))
    as [reply|e] eqn:Hchat.
  - rewrite (attempt_answered userMessage caller m Hb Hchat),
      (attempt_answered userMessage other m Hb Hchat).
    destruct (@respond_caller env st userMessage m
                (match reply with Some text => text | None => [] end)
                caller other)
      as [->|(ev & more & Hev & Htr)].
    + destruct (respond_returns env st userMessage other m
                  (match reply with Some text => text | None => [] end))
        as [v ->].
      reflexivity.
    + destruct (respond_returns env st userMessage caller m
                  (match reply with Some text => text | None => [] end))
        as [v Hv].
      rewrite Hv, Htr. unfold events_pass. simpl. rewrite Hev. discriminate.
  - rewrite (attempt_failed userMessage caller m Hb Hchat),
      (attempt_failed userMessage other m Hb Hchat).
    unfold events_pass, try_catch.
    destruct (try_models env st userMessage caller rest) as [t o] eqn:Hrest.
    simpl. intros Hpass. rewrite <- IH by exact Hpass. reflexivity.
Qed.

Lemma caller_matters_for_booking_only_witness :
  generateAIResponse env_cancel_7 initial_state (lit "cancel booking 7") 1
  = generateAIResponse env_cancel_7 initial_state (lit "cancel booking 7") 2
  /\ In (EvCancelTicket 7)
        (trace (generateAIResponse env_cancel_7 initial_state
                  (lit "cancel booking 7") 2)).
Proof.
  split.
  - apply (@caller_matters_for_booking_only env_cancel_7 initial_state
             (lit "cancel booking 7") 1 2).
    vm_compute. reflexivity.
  - vm_compute. right. left. reflexivity.
Defined.

(** ** What a request costs *)

Section Budget.

Context {A B : Type}.

Lemma within_ret (a : A) : within 0 (ret a).
Proof. unfold within. simpl. lia. Qed.

Lemma within_lift (o : Outcome A) : within 0 (lift o).
Proof. unfold within. simpl. lia. Qed.

Lemma within_call (ev : Event) (o : Outcome A) : within 1 (call ev o).
Proof. unfold within. simpl. lia. Qed.

Lemma within_bind (a b : nat) (m : Eff A) (k : A -> Eff B) :
  within a m -> (forall x, within b (k x)) -> within (a + b) (bind m k).
Proof.
  unfold within, bind. destruct m as [t [x|e]]; simpl; intros Hm Hk.
  - specialize (Hk x). destruct (k x) as [t2 r]. simpl in *.
    rewrite length_app. lia.
  - lia.
Qed.

Lemma within_try (a b : nat) (m : Eff A) (h : JsError -> Eff A) :
  within a m -> (forall e, within b (h e)) -> within (a + b) (try_catch m h).
Proof.
  unfold within, try_catch. destruct m as [t [x|e]]; simpl; intros Hm Hh.
  - lia.
  - specialize (Hh e). destruct (h e) as [t2 r]. simpl in *.
    rewrite length_app. lia.
Qed.

Lemma within_weaken (n : nat) (m : Eff A) : within 0 m -> within n m.
Proof. unfold within. lia. Qed.

Lemma trace_bind (m : Eff A) (k : A -> Eff B) :
  trace (bind m k) = trace m \/
  exists a, outcome m = Returned a /\ trace (bind m k) = trace m ++ trace (k a).
Proof.
  destruct m as [t [a|e]]; simpl; [right|now left].
  exists a. split; [reflexivity|]. now destruct (k a).
Qed.

End Budget.

Section Counting.

Variables (env : Env) (st : McpState) (userMessage : jstr).

Lemma occurrences_app (test : Event -> bool) (s t : list Event) :
  occurrences test (s ++ t) = occurrences test s + occurrences test t.
Proof. unfold occurrences. now rewrite filter_app, length_app. Qed.

Lemma occurrences_le (test : Event -> bool) (t : list Event) :
  occurrences test t <= List.length t.
Proof. apply filter_length_le. Qed.

Lemma occurrences_none (test other : Event -> bool) (t : list Event) :
  (forall e, other e = true -> test e = false) ->
  forallb other t = true -> occurrences test t = 0.
Proof.
  intros Hdisj. unfold occurrences.
  induction t as [|e t IH]; simpl; [reflexivity|].
  intros H. apply andb_true_iff in H as [He Ht].
  rewrite (Hdisj e He). auto.
Qed.

Lemma normalize_args_within (tool : jstr) (args : JValue) :
  within 0 (normalize_args tool args).
Proof.
  unfold within.
  now rewrite (silent_trace (normalize_args_silent (fun _ => false) tool args)).
Qed.

Lemma run_mcp_tool_within (tool : jstr) (args : JValue) :
  within 1 (run_mcp_tool env tool args).
Proof.
  unfold run_mcp_tool. apply (@within_try _ 1 0).
  - apply (@within_bind _ _ 0 1); [apply normalize_args_within|intros targs].
    apply (@within_bind _ _ 1 0); [apply within_call|intros parts].
    apply within_ret.
  - intros e. destruct (includes _ _); apply within_ret.
Qed.

(** The switch runs at most one tool. *)
Lemma executeTool_within (userId : Z) (toolCall : JValue) :
  within 1 (executeTool env st toolCall userId).
Proof.
  unfold executeTool.
  repeat lazymatch goal with
  | |- within _ (ret _) => apply within_weaken, within_ret
  | |- within 1 (bind (lift _) _) =>
      apply (@within_bind _ _ 0 1); [apply within_lift|intros ?]
  | |- within 1 (bind (call _ _) _) =>
      apply (@within_bind _ _ 1 0); [apply within_call|intros ?]
  | |- within 1 (bind (run_mcp_tool _ _ _) _) =>
      apply (@within_bind _ _ 1 0); [apply run_mcp_tool_within|intros ?]
  | |- within _ (if ?c then _ else _) => destruct c
  | |- within _ (match ?x with _ => _ end) => destruct x
  end.
Qed.

Lemma executeTool_executors (userId : Z) (toolCall : JValue) :
  events_pass is_executor (executeTool env st toolCall userId).
Proof.
  unfold executeTool. pass_events.
  all: try (apply run_mcp_tool_events; reflexivity).
Qed.

Lemma summarize_trace (model jsonStr : jstr) (r : JValue + jstr) :
  occurrences is_chat
    (trace (summarize env st userMessage model jsonStr r)) <= 1 /\
  occurrences is_executor
    (trace (summarize env st userMessage model jsonStr r)) = 0 /\
  forallb (fun e => is_chat e || is_executor e)
    (trace (summarize env st userMessage model jsonStr r)) = true.
Proof.
  destruct r as [reply|toolResult].
  - simpl. repeat split; (reflexivity || apply Nat.le_0_l).
  - destruct (buildSystemInstruction_cases env st)
      as [[instruction Hb]|[e He]].
    + rewrite (trace_summarize _ _ _ _ Hb). simpl.
      repeat split; (reflexivity || lia).
    + unfold summarize. rewrite (@unbuilt_run env st e He). simpl.
      repeat split; (reflexivity || apply Nat.le_0_l).
Qed.

Lemma respond_budget (userId : Z) (model content : jstr) :
  let events := trace (respond env st userMessage userId model content) in
  occurrences is_chat events <= 1 /\ occurrences is_executor events <= 1 /\
  forallb (fun e => is_chat e || is_executor e) events = true.
Proof.
  assert (Hnil : occurrences is_chat [] <= 1 /\ occurrences is_executor [] <= 1
                 /\ forallb (fun e => is_chat e || is_executor e) [] = true).
  { repeat split; (reflexivity || apply Nat.le_0_l). }
  unfold respond, handle_tool_call.
  destruct (extractJson content) as [jsonStr|]; [|exact Hnil].
  destruct (truthy (JStr jsonStr)); [|exact Hnil].
  rewrite trace_try_ret.
  destruct (JSON_parse jsonStr) as [toolCall|]; [|exact Hnil].
  destruct (isValidToolCall toolCall); [|exact Hnil]. cbn [negb].
  pose proof (executeTool_within userId toolCall) as Hone.
  pose proof (executeTool_executors userId toolCall) as Hexec.
  unfold within in Hone. unfold events_pass in Hexec.
  assert (Hchat : occurrences is_chat
                    (trace (executeTool env st toolCall userId)) = 0).
  { apply occurrences_none with (other := is_executor); [|assumption].
    now intros []. }
  assert (Hrun : occurrences is_executor
                   (trace (executeTool env st toolCall userId)) <= 1).
  { etransitivity; [apply occurrences_le|assumption]. }
  assert (Hall : forallb (fun e => is_chat e || is_executor e)
                   (trace (executeTool env st toolCall userId)) = true).
  { rewrite forallb_forall in *. intros e He. rewrite (Hexec e He).
    apply orb_true_r. }
  destruct (trace_bind (executeTool env st toolCall userId)
              (fun r => summarize env st userMessage model jsonStr r))
    as [->|(r & _ & ->)].
  - repeat split; (lia || assumption).
  - destruct (summarize_trace model jsonStr r) as (H1 & H2 & H3).
    rewrite !occurrences_app, forallb_app, Hall, H3. repeat split; lia.
Qed.

End Counting.

(** What one request costs, whatever the models and the tools answer: at
    most one completion per model plus one summary, at most one run of a
    tool, and nothing else (the provider is neither dialled nor asked for
    its tools). *)
Theorem request_budget (env : Env) (st : McpState) (userMessage : jstr)
    (userId : Z) :
  let events := trace (generateAIResponse env st userMessage userId) in
  occurrences is_chat events <= List.length models + 1 /\
  occurrences is_executor events <= 1 /\
  forallb (fun e => is_chat e || is_executor e) events = true.
Proof.
  unfold generateAIResponse.
  destruct (buildSystemInstruction_cases env st) as [[instruction Hb]|[e He]].
  2:{ rewrite (try_models_unbuilt env st userMessage userId models He).
      simpl. repeat split; (reflexivity || apply Nat.le_0_l). }
  generalize models as remaining.
  induction remaining as [|m rest IH].
  - simpl. repeat split; (reflexivity || apply Nat.le_0_l).
  - cbn [try_models].
    destruct (chatCompletion env (first_request instruction userMessage m))
      as [reply|e] eqn:Hchat.
    + rewrite (attempt_answered userMessage userId m Hb Hchat).
      destruct (respond_returns env st userMessage userId m
                  (match reply with Some text => text | None => [] end))
        as [v Hv].
      pose proof (@respond_budget env st userMessage userId m
                    (match reply with Some text => text | None => [] end))
        as (H1 & H2 & H3).
      rewrite Hv. cbn [try_catch trace fst].
      change (EvChat (first_request instruction userMessage m) :: ?t)
        with ([EvChat (first_request instruction userMessage m)] ++ t).
      rewrite !occurrences_app, forallb_app, H3.
      cbn [List.length]. unfold occurrences at 1 3. simpl. repeat split; lia.
    + rewrite (attempt_failed userMessage userId m Hb Hchat).
      cbn zeta in IH. destruct IH as (H1 & H2 & H3).
      unfold try_catch.
      destruct (try_models env st userMessage userId rest) as [t o].
      cbn [trace fst] in *.
      rewrite !occurrences_app, forallb_app, H3.
      cbn [List.length]. unfold occurrences at 1 3. simpl. repeat split; lia.
Qed.

(** ** External tools: failures and results *)





(** ** The fix-ups of the arguments *)

Section ObjectFacts.

Lemma str_eqb_refl (k : jstr) : Str.eqb k k = true.
Proof. now apply eqb_eq. Qed.

Lemma str_eqb_neq (a b : jstr) : a <> b -> Str.eqb a b = false.
Proof.
  intros Hne. destruct (Str.eqb a b) eqn:H; [|reflexivity].
  apply eqb_eq in H. contradiction.
Qed.

Lemma obj_get_set_same (fields : list (jstr * JValue)) (k : jstr) (v : JValue) :
  obj_get (obj_set fields k v) k = v.
Proof.
  induction fields as [|[k' v'] r IH]; simpl.
  - now rewrite str_eqb_refl.
  - destruct (Str.eqb k' k) eqn:Hk; simpl.
    + now rewrite str_eqb_refl.
    + now rewrite Hk.
Qed.

Lemma obj_get_set_other (fields : list (jstr * JValue)) (k k' : jstr)
    (v : JValue) :
  k <> k' -> obj_get (obj_set fields k v) k' = obj_get fields k'.
Proof.
  intros Hne. induction fields as [|[k0 v0] r IH]; simpl.
  - now rewrite str_eqb_neq.
  - destruct (Str.eqb k0 k) eqn:Hk; simpl.
    + apply eqb_eq in Hk. subst k0. now rewrite str_eqb_neq.
    + now rewrite IH.
Qed.

Lemma obj_get_delete_same (fields : list (jstr * JValue)) (k : jstr) :
  obj_get (obj_delete fields k) k = JUndefined.
Proof.
  unfold obj_delete. induction fields as [|[k' v'] r IH]; simpl; [reflexivity|].
  destruct (Str.eqb k' k) eqn:Hk; simpl; [assumption|now rewrite Hk].
Qed.

Lemma set_default_same (fields : list (jstr * JValue)) (k text : jstr) :
  text <> [] -> truthy (obj_get (set_default fields k text) k) = true.
Proof.
  intros Hne. unfold set_default.
  destruct (truthy (obj_get fields k)) eqn:Hk; [assumption|].
  rewrite obj_get_set_same. now destruct text.
Qed.

Lemma set_default_other (fields : list (jstr * JValue)) (k k' text : jstr) :
  k <> k' -> obj_get (set_default fields k text) k' = obj_get fields k'.
Proof.
  intros Hne. unfold set_default.
  destruct (truthy (obj_get fields k)); [reflexivity|].
  now apply obj_get_set_other.
Qed.

End ObjectFacts.

(** The fix-up of [list-events] never fails and always names an
    account, a calendar and a limit: a missing or placeholder account
    becomes [normal], a missing or placeholder calendar [primary], a
    missing limit 5; everything else, a limit given by the model
    included, is passed as it is. *)
Theorem list_events_defaults (args : JValue) :
  exists fields,
    normalize_list_events args = ret (JObj fields) /\
    let given := spread args in
    let account := obj_get fields (lit "account") in
    let calendarId := obj_get fields (lit "calendarId") in
    let maxResults := obj_get fields (lit "maxResults") in
    (truthy account = true /\ is_string account (lit "value") = false /\
     is_string account (lit "your_account") = false /\
     (account = obj_get given (lit "account") \/ account = JStr (lit "normal")))
    /\
    (truthy calendarId = true /\ is_string calendarId (lit "value") = false /\
     is_string calendarId (lit "your_calendar_id") = false /\
     (calendarId = obj_get given (lit "calendarId")
      \/ calendarId = JStr (lit "primary")))
    /\
    (truthy maxResults = true /\
     (maxResults = obj_get given (lit "maxResults") \/ maxResults = JNum 5 0))
    /\
    forall k, k <> lit "account" -> k <> lit "calendarId" ->
      k <> lit "maxResults" -> obj_get fields k = obj_get given k.
Proof.
  unfold normalize_list_events. eexists. split; [reflexivity|]. cbv zeta.
  set (t0 := spread args).
  set (t1 := if negb (truthy (obj_get t0 (lit "account")))
                || is_string (obj_get t0 (lit "account")) (lit "value")
                || is_string (obj_get t0 (lit "account")) (lit "your_account")
             then obj_set t0 (lit "account") (JStr (lit "normal")) else t0).
  set (t2 := if negb (truthy (obj_get t1 (lit "calendarId")))
                || is_string (obj_get t1 (lit "calendarId")) (lit "value")
                || is_string (obj_get t1 (lit "calendarId"))
                     (lit "your_calendar_id")
             then obj_set t1 (lit "calendarId") (JStr (lit "primary")) else t1).
  set (t3 := if truthy (obj_get t2 (lit "maxResults")) then t2
             else obj_set t2 (lit "maxResults") (JNum 5 0)).
  assert (H1 : forall k, k <> lit "account" -> obj_get t1 k = obj_get t0 k).
  { intros k Hk. subst t1.
    match goal with |- context [if ?c then _ else _] => destruct c end;
      [|reflexivity].
    apply obj_get_set_other. congruence. }
  assert (H2 : forall k, k <> lit "calendarId" -> obj_get t2 k = obj_get t1 k).
  { intros k Hk. subst t2.
    match goal with |- context [if ?c then _ else _] => destruct c end;
      [|reflexivity].
    apply obj_get_set_other. congruence. }
  assert (H3 : forall k, k <> lit "maxResults" -> obj_get t3 k = obj_get t2 k).
  { intros k Hk. subst t3.
    match goal with |- context [if ?c then _ else _] => destruct c end;
      [reflexivity|].
    apply obj_get_set_other. congruence. }
  assert (Ha : let account := obj_get t1 (lit "account") in
               truthy account = true /\ is_string account (lit "value") = false
               /\ is_string account (lit "your_account") = false
               /\ (account = obj_get t0 (lit "account")
                   \/ account = JStr (lit "normal"))).
  { subst t1. cbv zeta.
    destruct (truthy (obj_get t0 (lit "account"))) eqn:Htr;
      destruct (is_string (obj_get t0 (lit "account")) (lit "value")) eqn:Hv;
      destruct (is_string (obj_get t0 (lit "account")) (lit "your_account"))
        eqn:Hy; simpl;
      rewrite ?obj_get_set_same; auto. }
  assert (Hc : let calendarId := obj_get t2 (lit "calendarId") in
               truthy calendarId = true
               /\ is_string calendarId (lit "value") = false
               /\ is_string calendarId (lit "your_calendar_id") = false
               /\ (calendarId = obj_get t1 (lit "calendarId")
                   \/ calendarId = JStr (lit "primary"))).
  { subst t2. cbv zeta.
    destruct (truthy (obj_get t1 (lit "calendarId"))) eqn:Htr;
      destruct (is_string (obj_get t1 (lit "calendarId")) (lit "value")) eqn:Hv;
      destruct (is_string (obj_get t1 (lit "calendarId"))
                  (lit "your_calendar_id")) eqn:Hy; simpl;
      rewrite ?obj_get_set_same; auto. }
  assert (Hm : let maxResults := obj_get t3 (lit "maxResults") in
               truthy maxResults = true
               /\ (maxResults = obj_get t2 (lit "maxResults")
                   \/ maxResults = JNum 5 0)).
  { subst t3. cbv zeta.
    destruct (truthy (obj_get t2 (lit "maxResults"))) eqn:Htr;
      rewrite ?obj_get_set_same; auto. }
  cbv zeta in Ha, Hc, Hm.
  rewrite (H3 (lit "account")), (H2 (lit "account")), (H3 (lit "calendarId"))
    by discriminate.
  rewrite (H1 (lit "calendarId")) in Hc by discriminate.
  rewrite (H2 (lit "maxResults")), (H1 (lit "maxResults")) in Hm
    by discriminate.
  split; [exact Ha|]. split; [exact Hc|]. split; [exact Hm|].
  intros k Hk1 Hk2 Hk3. now rewrite H3, H2, H1.
Qed.

Lemma list_events_defaults_witness :
  exists fields,
    normalize_list_events list_events_args = ret (JObj fields) /\
    obj_get fields (lit "foo") = obj_get (spread list_events_args) (lit "foo").
Proof.
  destruct (list_events_defaults list_events_args)
    as (fields & Heq & _ & _ & _ & Hrest).
  exists fields. split; [exact Heq|].
  apply Hrest; discriminate.
Defined.

Section FixUps.

Lemma bind_returned_inv {A B : Type} (m : Eff A) (k : A -> Eff B) (b : B) :
  outcome (bind m k) = Returned b ->
  exists a, outcome m = Returned a /\ outcome (k a) = Returned b.
Proof.
  destruct m as [t [a|e]]; simpl; [|discriminate].
  intros H. exists a. split; [reflexivity|]. now destruct (k a).
Qed.

(** [if (typeof t.k === 'object') t.k = t.k.dateTime || t.k.date] touches
    no other property. *)
Lemma plain_time_step (t t' : list (jstr * JValue)) (k : jstr) :
  outcome (if is_object_type (obj_get t k)
           then v <- plain_time (obj_get t k);; ret (obj_set t k v)
           else ret t) = Returned t' ->
  forall k', k <> k' -> obj_get t' k' = obj_get t k'.
Proof.
  destruct (is_object_type (obj_get t k)).
  - intros H k' Hk. apply bind_returned_inv in H as (v & _ & H).
    injection H as <-. now apply obj_get_set_other.
  - intros H k' Hk. now injection H as <-.
Qed.

End FixUps.

(** What the fix-up of [create-event] hands to the provider, when it
    does not fail: an object without an [event] wrapper; and for
    arguments that came without a wrapper, an object that names an
    account and a calendar and has every other property, the two times
    apart, as the model gave it. *)
Theorem create_event_shape (args out : JValue) :
  outcome (normalize_create_event args) = Returned out ->
  exists fields, out = JObj fields /\
    truthy (obj_get fields (lit "event")) = false /\
    (truthy (obj_get (spread args) (lit "event")) = false ->
     truthy (obj_get fields (lit "account")) = true /\
     truthy (obj_get fields (lit "calendarId")) = true /\
     forall k, k <> lit "account" -> k <> lit "calendarId" ->
       k <> lit "start" -> k <> lit "end" ->
       obj_get fields k = obj_get (spread args) k).
Proof.
  unfold normalize_create_event. cbv zeta.
  set (t1 := set_default (spread args) (lit "account") (lit "normal")).
  set (t2 := set_default t1 (lit "calendarId") (lit "primary")).
  intros H.
  apply bind_returned_inv in H as (t3 & H3 & H).
  apply bind_returned_inv in H as (t4 & H4 & H).
  apply bind_returned_inv in H as (t5 & H5 & H).
  injection H as <-. exists t5. split; [reflexivity|].
  pose proof (@plain_time_step t3 t4 (lit "start") H4) as K4.
  pose proof (@plain_time_step t4 t5 (lit "end") H5) as K5.
  assert (Hevt : obj_get t2 (lit "event") = obj_get (spread args) (lit "event")).
  { subst t2 t1. now rewrite !set_default_other by discriminate. }
  split.
  - rewrite K5, K4 by discriminate.
    destruct (truthy (obj_get t2 (lit "event"))) eqn:Hwrapped.
    + apply bind_returned_inv in H3 as (s1 & _ & H3).
      apply bind_returned_inv in H3 as (s2 & _ & H3).
      apply bind_returned_inv in H3 as (s3 & _ & H3).
      apply bind_returned_inv in H3 as (s4 & _ & H3).
      injection H3 as <-. now rewrite obj_get_delete_same.
    + injection H3 as <-. exact Hwrapped.
  - intros Hflat. rewrite Hevt, Hflat in H3. injection H3 as <-.
    rewrite !K5, !K4 by discriminate. subst t2 t1.
    split; [|split].
    + rewrite set_default_other by discriminate.
      now apply set_default_same.
    + now apply set_default_same.
    + intros k Ha Hc Hs He. rewrite K5, K4 by congruence.
      rewrite !set_default_other by congruence. reflexivity.
Qed.

Lemma create_event_shape_witness :
  outcome (normalize_create_event create_event_args)
  = Returned create_event_normalized /\
  exists fields, create_event_normalized = JObj fields /\
    truthy (obj_get fields (lit "event")) = false /\
    (truthy (obj_get (spread create_event_args) (lit "event")) = false ->
     truthy (obj_get fields (lit "account")) = true /\
     truthy (obj_get fields (lit "calendarId")) = true /\
     forall k, k <> lit "account" -> k <> lit "calendarId" ->
       k <> lit "start" -> k <> lit "end" ->
       obj_get fields k = obj_get (spread create_event_args) k).
Proof.
  split; [vm_compute; reflexivity|].
  apply (@create_event_shape create_event_args create_event_normalized).
  vm_compute. reflexivity.
Defined.

(** ** The registry after a failed discovery *)

(** After a handshake that succeeded and a discovery that failed the
    registry holds the three tools written out in the handler, so that
    these names, and no other external name, are dispatched to the
    provider; on this registry the system instruction is built. *)
Theorem discovery_failure_registers_fallback (env : Env) (e : JsError) :
  mcp_connect env = Established ->
  mcp_listTools env = Threw e ->
  module_load env = ([EvMcpConnect; EvMcpListTools], connected_state) /\
  (forall tool, registered (settled_state env) tool = true
                <-> In tool fallback_names) /\
  (exists instruction, builds env (settled_state env) instruction) /\
  forall instruction userMessage userId failed model content jsonStr toolCall
         tool args,
    answers_with_call env (settled_state env) instruction userMessage failed
      model content jsonStr toolCall ->
    calls_tool toolCall tool args ->
    is_builtin tool = false ->
    ~ In tool fallback_names ->
    generateAIResponse env (settled_state env) userMessage userId
    = (first_requests instruction userMessage failed model,
       Returned (JStr msg_unknown_tool)).
Proof.
  intros Hconn Hlist.
  assert (Hload : module_load env
                  = ([EvMcpConnect; EvMcpListTools], connected_state)).
  { unfold module_load, connectToMcpServer. simpl. now rewrite Hconn, Hlist. }
  assert (Hreg : forall tool, registered (settled_state env) tool = true
                              <-> In tool fallback_names).
  { intros tool. unfold settled_state. rewrite Hload.
    unfold registered, connected_state, fallback_tools, fallback_names.
    cbn [snd mcpToolsOrchestration existsb name In].
    rewrite !orb_true_iff, !eqb_eq. intuition congruence. }
  split; [exact Hload|]. split; [exact Hreg|]. split.
  { unfold builds, buildSystemInstruction, settled_state. rewrite Hload.
    apply fallback_tools_build. }
  intros instruction userMessage userId failed model content jsonStr toolCall
    tool args Hans Hcall Hnot Hout.
  rewrite (generateAIResponse_tool_call userId Hans (proj1 Hcall)).
  rewrite (executeTool_default env (settled_state env) userId Hcall Hnot).
  destruct (registered (settled_state env) tool) eqn:Hr.
  - apply Hreg in Hr. contradiction.
  - rewrite andb_false_r, bind_ret. simpl. now rewrite app_nil_r.
Qed.

Lemma discovery_failure_registers_fallback_witness :
  module_load env_weather = ([EvMcpConnect; EvMcpListTools], connected_state)
  /\
  generateAIResponse env_weather (settled_state env_weather)
    (lit "weather in Goa") 1
  = (first_requests (built env_weather (settled_state env_weather))
       (lit "weather in Goa") [] first_model,
     Returned (JStr msg_unknown_tool)).
Proof.
  pose proof (@discovery_failure_registers_fallback env_weather
                (mkError (lit "No authenticated accounts")) eq_refl eq_refl)
    as (Hload & _ & _ & Hother).
  split; [exact Hload|].
  apply (Hother (built env_weather (settled_state env_weather))
           (lit "weather in Goa") 1%Z [] first_model weather_call
           weather_call (parsed weather_call) (lit "get_weather")
           (JObj [(lit "city", JStr (lit "Goa"))])).
  - sample_answer.
  - sample_call.
  - reflexivity.
  - intros [H|[H|[H|[]]]]; discriminate.
Defined.

(** * The backend around the service *)

(** ** The authentication middleware *)

Section SplitFacts.

Variable sep : N.

(** A piece that holds no separator and is followed by one is the first
    piece. *)
Lemma split_piece (a rest : jstr) :
  ~ In sep a -> Lib.split sep (a ++ sep :: rest) = a :: Lib.split sep rest.
Proof.
  induction a as [|c a IH]; intros Hno; simpl.
  - now rewrite N.eqb_refl.
  - destruct (N.eqb_spec c sep) as [->|Hne]; [exfalso; apply Hno; now left|].
    rewrite IH by (intros H; apply Hno; now right). reflexivity.
Qed.

Lemma split_last (a : jstr) : ~ In sep a -> Lib.split sep a = [a].
Proof.
  induction a as [|c a IH]; intros Hno; simpl; [reflexivity|].
  destruct (N.eqb_spec c sep) as [->|Hne]; [exfalso; apply Hno; now left|].
  rewrite IH by (intros H; apply Hno; now right). reflexivity.
Qed.

(** A code unit that a text is checked not to hold. *)
Lemma absent_check (s : jstr) :
  forallb (fun c => negb (N.eqb c sep)) s = true -> ~ In sep s.
Proof.
  intros Hs Hin. rewrite forallb_forall in Hs. apply Hs in Hin.
  now rewrite N.eqb_refl in Hin.
Qed.

End SplitFacts.

(** The token [authenticateToken] verifies is the text between the
    first and the second space of the [authorization] header: the word
    before it (the scheme) is not looked at, nor is what follows a second
    space.  A missing header, a header of one word and a header with two
    spaces after its first word are refused with 401, and nothing is
    verified. *)
Theorem token_is_the_second_word
    (verify : jstr -> jstr -> Outcome Auth.AuthUser)
    (configured : option jstr) (next : Auth.AuthUser -> Outcome Auth.Response) :
  (forall scheme token rest,
     ~ In 32%N scheme -> ~ In 32%N token -> token <> [] ->
     Auth.authenticateToken verify configured
       (Some (scheme ++ 32%N :: token)) next
     = authenticated verify configured token next /\
     Auth.authenticateToken verify configured
       (Some (scheme ++ 32%N :: token ++ 32%N :: rest)) next
     = authenticated verify configured token next)
  /\
  (forall word rest,
     ~ In 32%N word ->
     Auth.authenticateToken verify configured None next
     = Auth.refusal 401 "Access Denied: No Token Provided" /\
     Auth.authenticateToken verify configured (Some word) next
     = Auth.refusal 401 "Access Denied: No Token Provided" /\
     Auth.authenticateToken verify configured
       (Some (word ++ 32%N :: 32%N :: rest)) next
     = Auth.refusal 401 "Access Denied: No Token Provided").
Proof.
  assert (Hsecond : forall scheme tail,
            ~ In 32%N scheme ->
            Auth.token_of (Some (scheme ++ 32%N :: tail))
            = nth_error (Lib.split 32 tail) 0).
  { intros scheme tail Hs. unfold Auth.token_of.
    rewrite split_piece by assumption.
    destruct (scheme ++ 32%N :: tail) eqn:H; [|reflexivity].
    destruct scheme; discriminate. }
  split.
  - intros scheme token rest Hs Ht Hne. unfold Auth.authenticateToken.
    rewrite (Hsecond scheme token Hs), (Hsecond scheme _ Hs).
    rewrite split_last, split_piece by assumption. simpl.
    destruct token as [|c t]; [contradiction|]. now split.
  - intros word rest Hw. unfold Auth.authenticateToken.
    split; [reflexivity|]. split.
    + unfold Auth.token_of. rewrite split_last by assumption.
      now destruct word.
    + rewrite (Hsecond word _ Hw). reflexivity.
Qed.

Lemma token_is_the_second_word_witness :
  Auth.authenticateToken (verify_one "passenger") None
    (Some (lit "Basic abc.def.ghi"))
    (fun user => Returned (Controller.answer (JNum (Auth.user_id user) 0)))
  = Controller.answer (JNum 7 0).
Proof.
  refine (eq_trans
            (proj1 (proj1 (@token_is_the_second_word (verify_one "passenger")
                             None
                             (fun user => Returned (Controller.answer
                                                      (JNum (Auth.user_id user) 0))))
                      (lit "Basic") (lit "abc.def.ghi") []
                      (@absent_check 32 (lit "Basic") eq_refl)
                      (@absent_check 32 (lit "abc.def.ghi") eq_refl)
                      ltac:(discriminate)))
            _).
  reflexivity.
Defined.

(** Behind [authenticateToken] and [authorizeAdmin] (or
    [authorizeOperator]) a handler answers only for a user that
    [jwt.verify] read from the token of the header, under the configured
    secret or the built-in one, and whose role is exactly [admin] (or
    [operator]); every other request gets one of the three refusals. *)
Theorem guarded_routes (verify : jstr -> jstr -> Outcome Auth.AuthUser)
    (configured authorization : option jstr)
    (handler : Auth.AuthUser -> Outcome Auth.Response) :
  (let response := admin_route verify configured authorization handler in
   response = Auth.refusal 401 "Access Denied: No Token Provided" \/
   response = Auth.refusal 403 "Invalid or Expired Token" \/
   response = Auth.refusal 403 "Access Denied: Admins Only" \/
   handled_for verify configured authorization handler "admin" response)
  /\
  (let response := operator_route verify configured authorization handler in
   response = Auth.refusal 401 "Access Denied: No Token Provided" \/
   response = Auth.refusal 403 "Invalid or Expired Token" \/
   response = Auth.refusal 403 "Access Denied: Operators Only" \/
   handled_for verify configured authorization handler "operator" response).
Proof.
  unfold admin_route, operator_route, Auth.authenticateToken,
    Auth.authorizeAdmin, Auth.authorizeOperator, Auth.role_differs,
    handled_for.
  destruct (Auth.token_of authorization) as [[|c t]|] eqn:Htoken;
    try (split; now left).
  destruct (verify (c :: t) (Auth.JWT_SECRET configured)) as [user|e] eqn:Hv;
    [|split; right; now left].
  split.
  - destruct (Str.eqb (Auth.role user) (lit "admin")) eqn:Hrole; simpl.
    + apply eqb_eq in Hrole.
      destruct (handler user) as [answer|e] eqn:Hh; [|right; now left].
      do 3 right. exists (c :: t), user. repeat split; (discriminate || eauto).
    + do 2 right. now left.
  - destruct (Str.eqb (Auth.role user) (lit "operator")) eqn:Hrole; simpl.
    + apply eqb_eq in Hrole.
      destruct (handler user) as [answer|e] eqn:Hh; [|right; now left].
      do 3 right. exists (c :: t), user. repeat split; (discriminate || eauto).
    + do 2 right. now left.
Qed.

(** ** The chat controller *)

(** The chat endpoint in front of [generateAIResponse]: a request
    without a body is answered with 500, one without a message with 400,
    one without a user id (or with the id 0) with 401, and in none of
    these cases the service is called; a text message is handed to the
    service with the id of the user, and its reply is answered with 200.
    As the service returns on every message, a request with a text
    message is never answered with 500. *)
Theorem chat_endpoint (env : Env) (st : McpState)
    (other : JValue -> Z -> Eff JValue) (body : JValue)
    (user : option Auth.AuthUser) :
  let run := Controller.chatWithAI (Controller.service env st other) body user in
  match get_prop body (lit "message") with
  | Threw _ =>
      run = ([], Returned (Controller.failure 500 "Internal Server Error"))
  | Returned message =>
      if truthy message then
        match user with
        | Some u =>
            if (Auth.user_id u =? 0)%Z
            then run = ([], Returned (Controller.failure 401
                                        "Authentication required"))
            else
              forall userMessage, message = JStr userMessage ->
                exists reply,
                  generateAIResponse env st userMessage (Auth.user_id u)
                  = (trace run, Returned reply) /\
                  outcome run = Returned (Controller.answer reply)
        | None =>
            run = ([], Returned (Controller.failure 401
                                   "Authentication required"))
        end
      else run = ([], Returned (Controller.failure 400 "Message is required"))
  end.
Proof.
  intros run. subst run. unfold Controller.chatWithAI.
  destruct (get_prop body (lit "message")) as [message|e]; [|reflexivity].
  rewrite bind_lift_returned.
  destruct (truthy message); [|reflexivity]. cbn [negb].
  destruct user as [u|]; [|reflexivity].
  destruct (Auth.user_id u =? 0)%Z; [reflexivity|].
  intros userMessage ->. cbn [Controller.service].
  destruct (try_models_returns env st userMessage (Auth.user_id u)
              models) as [reply Hreply].
  fold (generateAIResponse env st userMessage (Auth.user_id u)) in Hreply.
  exists reply.
  destruct (generateAIResponse env st userMessage (Auth.user_id u))
    as [events o]. simpl in Hreply. subst o.
  simpl. now rewrite app_nil_r.
Qed.

Lemma chat_endpoint_witness :
  exists reply,
    generateAIResponse env_search initial_state (lit "find buses to Goa") 7
    = (trace (Controller.chatWithAI
                (Controller.service env_search initial_state
                   (fun _ _ => ret JUndefined))
                chat_body (Some passenger)),
       Returned reply) /\
    outcome (Controller.chatWithAI
               (Controller.service env_search initial_state
                  (fun _ _ => ret JUndefined))
               chat_body (Some passenger))
    = Returned (Controller.answer reply).
Proof.
  exact (@chat_endpoint env_search initial_state (fun _ _ => ret JUndefined)
           chat_body (Some passenger) (lit "find buses to Goa") eq_refl).
Defined.

(** ** The MCP server *)

Section ServerRunFacts.

Variable host : McpServer.Host.

Lemma lookup_runs (c : N) (k : jstr) (h : list McpServer.Call) :
  McpServer.TRAVEL_API_KEY host = Some (c :: k) ->
  McpServer.check_expiry host (c :: k) h = (h, Returned tt) ->
  McpServer.getAuthenticatedUser host h = looked_up host (c :: k) h.
Proof.
  intros Hkey Hpass. unfold McpServer.getAuthenticatedUser, looked_up.
  rewrite Hkey. unfold McpServer.bind at 1. rewrite Hpass.
  unfold McpServer.bind, McpServer.perform.
  destruct (McpServer.select host h _ _) as [[|user more]|e]; reflexivity.
Qed.

Lemma check_expiry_quiet (apiKey : jstr) (h : list McpServer.Call) :
  exists o, McpServer.check_expiry host apiKey h = (h, o).
Proof.
  unfold McpServer.check_expiry.
  destruct (List.length (Lib.split 95 apiKey) =? 3); [|eexists; reflexivity].
  destruct (Lib.parseInt_radix10 _) as [t|]; [|eexists; reflexivity].
  destruct (t <? McpServer.now host / 1000)%Z; eexists; reflexivity.
Qed.

(** Authentication makes at most one call, a query. *)
Lemma getAuthenticatedUser_calls (h : list McpServer.Call) :
  exists queries o,
    McpServer.getAuthenticatedUser host h = (h ++ queries, o) /\
    forallb is_query queries = true.
Proof.
  unfold McpServer.getAuthenticatedUser.
  destruct (McpServer.TRAVEL_API_KEY host) as [[|c k]|];
    try (exists [], (Threw (mkError McpServer.msg_key_missing));
         rewrite app_nil_r; now split).
  unfold McpServer.bind at 1.
  destruct (check_expiry_quiet (c :: k) h) as [[[]|e] ->].
  - unfold McpServer.bind, McpServer.perform.
    destruct (McpServer.select host h _ _) as [[|user more]|e];
      eexists [_], _; split; reflexivity.
  - exists [], (Threw e). rewrite app_nil_r. now split.
Qed.

Lemma create_stops_calls (pathId : JValue) (todo : list McpServer.StopImport) :
  forall h, exists inserts o,
    McpServer.create_stops host pathId todo h = (h ++ inserts, o) /\
    forallb is_insert inserts = true /\
    (o = Returned tt -> List.length inserts = List.length todo).
Proof.
  induction todo as [|stop rest IH]; intros h; simpl.
  - exists [], (Returned tt). rewrite app_nil_r. now repeat split.
  - unfold McpServer.bind, McpServer.perform.
    destruct (McpServer.execute host h _ _) as [res|e].
    + destruct (IH (h ++ [McpServer.Execute McpServer.insert_stop
                             (McpServer.stop_params pathId stop)]))
        as (inserts & o & -> & Hall & Hlen).
      exists (McpServer.Execute McpServer.insert_stop
                (McpServer.stop_params pathId stop) :: inserts), o.
      rewrite <- app_assoc. simpl. repeat split; auto.
    + eexists [_], _. split; [reflexivity|]. split; [reflexivity|discriminate].
Qed.

Lemma create_routes_calls (user : JValue) (todo : list McpServer.RouteImport) :
  forall addedCount h, exists inserts o,
    McpServer.create_routes host user todo addedCount h = (h ++ inserts, o) /\
    forallb is_insert inserts = true /\
    (forall n, o = Returned n ->
       n = addedCount + List.length todo /\
       List.length inserts = planned_inserts todo).
Proof.
  induction todo as [|route rest IH]; intros addedCount h; simpl.
  - exists [], (Returned addedCount). rewrite app_nil_r.
    split; [reflexivity|]. split; [reflexivity|].
    intros n [= <-]. split; [lia|reflexivity].
  - unfold McpServer.bind at 1, McpServer.lift.
    destruct (get_prop user (lit "user_id")) as [user_id|e].
    2:{ exists [], (Threw e). rewrite app_nil_r.
        split; [reflexivity|]. split; [reflexivity|discriminate]. }
    unfold McpServer.bind at 1, McpServer.perform.
    destruct (McpServer.execute host h _ _) as [res|e].
    2:{ eexists [_], _. split; [reflexivity|].
        split; [reflexivity|discriminate]. }
    unfold McpServer.bind at 1.
    destruct (get_prop res (lit "insertId")) as [pathId|e].
    2:{ eexists [_], _. split; [reflexivity|].
        split; [reflexivity|discriminate]. }
    unfold McpServer.bind at 1.
    match goal with |- context [McpServer.create_stops host pathId _ ?h1] =>
      destruct (create_stops_calls pathId (McpServer.stops route) h1)
        as (s_inserts & so & -> & Hs_all & Hs_len)
    end.
    destruct so as [[]|e].
    + match goal with
      | |- context [McpServer.create_routes host user rest _ ?h2] =>
          destruct (IH (S addedCount) h2) as (inserts & o & -> & Hall & Hlen)
      end.
      eexists (_ :: s_inserts ++ inserts), o.
      rewrite <- !app_assoc. simpl. split; [reflexivity|].
      split; [now rewrite forallb_app, Hs_all, Hall|].
      intros n Hn. destruct (Hlen n Hn) as [-> Hcount].
      split; [lia|]. rewrite length_app, Hcount, Hs_len by reflexivity. lia.
    + eexists (_ :: s_inserts), _.
      rewrite <- !app_assoc. simpl. split; [reflexivity|].
      split; [assumption|discriminate].
Qed.

End ServerRunFacts.

(** A key of three parts whose middle part reads, in base ten, as a time
    before now (in seconds) is refused without asking the database; when
    the time has not passed the database decides.  A key of any other
    shape (another number of parts, or a middle part that is no number)
    has no expiration: the database alone decides. *)
Theorem key_expiry (host : McpServer.Host) (h : list McpServer.Call) :
  (forall prefix stamp secret expiryTimestamp,
     McpServer.TRAVEL_API_KEY host
     = Some (prefix ++ 95%N :: stamp ++ 95%N :: secret) ->
     ~ In 95%N prefix -> ~ In 95%N stamp -> ~ In 95%N secret ->
     Lib.parseInt_radix10 stamp = Some expiryTimestamp ->
     McpServer.getAuthenticatedUser host h
     = if (expiryTimestamp <? McpServer.now host / 1000)%Z
       then (h, Threw (mkError (McpServer.msg_key_expired host
                                  expiryTimestamp)))
       else looked_up host (prefix ++ 95%N :: stamp ++ 95%N :: secret) h)
  /\
  (forall apiKey,
     McpServer.TRAVEL_API_KEY host = Some apiKey -> apiKey <> [] ->
     List.length (Lib.split 95 apiKey) <> 3
     \/ Lib.parseInt_radix10 (nth 1 (Lib.split 95 apiKey) []) = None ->
     McpServer.getAuthenticatedUser host h = looked_up host apiKey h).
Proof.
  split.
  - intros prefix stamp secret t Hkey Hp Hs Hc Hparse.
    assert (Hparts : Lib.split 95 (prefix ++ 95%N :: stamp ++ 95%N :: secret)
                     = [prefix; stamp; secret]).
    { now rewrite !split_piece, split_last. }
    destruct (prefix ++ 95%N :: stamp ++ 95%N :: secret) as [|c k] eqn:Hk;
      [destruct prefix; discriminate|].
    assert (Hcheck : McpServer.check_expiry host (c :: k) h
                     = if (t <? McpServer.now host / 1000)%Z
                       then (h, Threw (mkError (McpServer.msg_key_expired
                                                  host t)))
                       else (h, Returned tt)).
    { unfold McpServer.check_expiry. rewrite Hparts. simpl. rewrite Hparse.
      now destruct (t <? McpServer.now host / 1000)%Z. }
    destruct (t <? McpServer.now host / 1000)%Z.
    + unfold McpServer.getAuthenticatedUser. rewrite Hkey.
      unfold McpServer.bind at 1. now rewrite Hcheck.
    + now apply lookup_runs.
  - intros apiKey Hkey Hne Hshape. destruct apiKey as [|c k]; [contradiction|].
    apply lookup_runs; [assumption|]. unfold McpServer.check_expiry.
    destruct (Nat.eqb_spec (List.length (Lib.split 95 (c :: k))) 3)
      as [Hthree|Hother]; [|reflexivity].
    destruct Hshape as [Hshape|Hshape]; [contradiction|].
    now rewrite Hshape.
Qed.

Lemma key_expiry_witness :
  McpServer.getAuthenticatedUser
    (host_at 1800000000000 "passenger" 7 false) []
  = ([], Threw (mkError (McpServer.msg_key_expired
                           (host_at 1800000000000 "passenger" 7 false)
                           1700000000)))
  /\
  McpServer.getAuthenticatedUser
    (host_at 1600000000000 "passenger" 7 false) []
  = looked_up (host_at 1600000000000 "passenger" 7 false)
      (lit "tp_1700000000_s3cr3t") [].
Proof.
  pose proof (@absent_check 95) as Hclean.
  split.
  - exact (proj1 (key_expiry (host_at 1800000000000 "passenger" 7 false) [])
             (lit "tp") (lit "1700000000") (lit "s3cr3t") 1700000000%Z
             eq_refl (Hclean (lit "tp") eq_refl)
             (Hclean (lit "1700000000") eq_refl)
             (Hclean (lit "s3cr3t") eq_refl) eq_refl).
  - exact (proj1 (key_expiry (host_at 1600000000000 "passenger" 7 false) [])
             (lit "tp") (lit "1700000000") (lit "s3cr3t") 1700000000%Z
             eq_refl (Hclean (lit "tp") eq_refl)
             (Hclean (lit "1700000000") eq_refl)
             (Hclean (lit "s3cr3t") eq_refl) eq_refl).
Defined.

(** [cancel_booking] always answers with a text, and runs the
    cancellation only for the booking it was asked for, and only when the
    [passenger_id] of that booking is the [user_id] of the user the key
    belongs to. *)
Theorem cancel_booking_checks_the_owner (host : McpServer.Host)
    (bookingId : JValue) (h : list McpServer.Call) :
  exists calls text,
    McpServer.cancel_booking host bookingId h = (h ++ calls, Returned text) /\
    forall cancelled, In (McpServer.CancelTicket cancelled) calls ->
      cancelled = bookingId /\
      exists h1 user row more,
        McpServer.getAuthenticatedUser host h = (h1, Returned user) /\
        McpServer.select host h1 McpServer.owner_of_booking [bookingId]
        = Returned (row :: more) /\
        exists passenger_id user_id,
          get_prop row (lit "passenger_id") = Returned passenger_id /\
          get_prop user (lit "user_id") = Returned user_id /\
          Lib.strict_equal passenger_id user_id = true.
Proof.
  unfold McpServer.cancel_booking, McpServer.try_catch.
  unfold McpServer.bind at 1.
  destruct (getAuthenticatedUser_calls host h) as (queries & o & Hauth & Hq).
  rewrite Hauth.
  assert (Hnone : forall extra cancelled,
            (forall c, In c extra -> is_query c = true) ->
            ~ In (McpServer.CancelTicket cancelled) (queries ++ extra)).
  { intros extra cancelled Hextra Hin. apply in_app_or in Hin as [Hin|Hin].
    - rewrite forallb_forall in Hq. apply Hq in Hin. discriminate.
    - apply Hextra in Hin. discriminate. }
  destruct o as [user|e].
  2:{ exists queries,
        (McpServer.cross :: lit " Cancellation Error: " ++ message e).
      split; [reflexivity|]. intros cancelled Hin. exfalso.
      apply (Hnone [] cancelled); [intros c []|now rewrite app_nil_r]. }
  unfold McpServer.bind at 1, McpServer.perform.
  set (h1 := h ++ queries).
  set (query := McpServer.PoolExecute McpServer.owner_of_booking [bookingId]).
  assert (Hquery : forall c, In c [query] -> is_query c = true)
    by (intros c [<-|[]]; reflexivity).
  destruct (McpServer.select host h1 McpServer.owner_of_booking [bookingId])
    as [[|row more]|e] eqn:Hrows.
  - exists (queries ++ [query]), (McpServer.cross :: lit " Booking not found.").
    subst h1. rewrite <- app_assoc. split; [reflexivity|].
    intros cancelled Hin. exfalso. now apply (Hnone [query] cancelled).
  - unfold McpServer.bind at 1, McpServer.lift.
    destruct (get_prop row (lit "passenger_id")) as [passenger_id|e] eqn:Hp.
    2:{ eexists (queries ++ [query]), _. subst h1. rewrite <- app_assoc.
        split; [reflexivity|]. intros cancelled Hin. exfalso.
        now apply (Hnone [query] cancelled). }
    unfold McpServer.bind at 1.
    destruct (get_prop user (lit "user_id")) as [user_id|e] eqn:Hu.
    2:{ eexists (queries ++ [query]), _. subst h1. rewrite <- app_assoc.
        split; [reflexivity|]. intros cancelled Hin. exfalso.
        now apply (Hnone [query] cancelled). }
    destruct (Lib.strict_equal passenger_id user_id) eqn:Hsame; cbn [negb].
    + unfold McpServer.bind, McpServer.ret.
      assert (Hfound : forall cancelled,
                In (McpServer.CancelTicket cancelled)
                   (queries ++ [query; McpServer.CancelTicket bookingId]) ->
                cancelled = bookingId /\
                exists h1' user' row' more',
                  (h ++ queries, Returned user) = (h1', Returned user') /\
                  McpServer.select host h1' McpServer.owner_of_booking
                    [bookingId]
                  = Returned (row' :: more') /\
                  exists passenger_id' user_id',
                    get_prop row' (lit "passenger_id")
                    = Returned passenger_id' /\
                    get_prop user' (lit "user_id") = Returned user_id' /\
                    Lib.strict_equal passenger_id' user_id' = true).
      { intros cancelled Hin. apply in_app_or in Hin as [Hin|Hin].
        - rewrite forallb_forall in Hq. apply Hq in Hin. discriminate.
        - destruct Hin as [Hin|[Hin|[]]]; [discriminate|].
          injection Hin as <-. split; [reflexivity|].
          exists h1, user, row, more. split; [reflexivity|].
          split; [exact Hrows|]. exists passenger_id, user_id. auto. }
      destruct (McpServer.cancelTicket host (h1 ++ [query]) bookingId)
        as [result|e];
        eexists (queries ++ [query; McpServer.CancelTicket bookingId]), _;
        subst h1; rewrite <- !app_assoc; (split; [reflexivity|exact Hfound]).
    + eexists (queries ++ [query]), _. subst h1. rewrite <- app_assoc.
      split; [reflexivity|]. intros cancelled Hin. exfalso.
      now apply (Hnone [query] cancelled).
  - eexists (queries ++ [query]), _. subst h1. rewrite <- app_assoc.
    split; [reflexivity|]. intros cancelled Hin. exfalso.
    now apply (Hnone [query] cancelled).
Qed.

Lemma cancel_booking_checks_the_owner_witness :
  McpServer.cancel_booking (host_at 1600000000000 "passenger" 7 false)
    (JNum 12 0) []
  = ([ McpServer.PoolExecute McpServer.users_by_key
         [JStr (lit "tp_1700000000_s3cr3t")];
       McpServer.PoolExecute McpServer.owner_of_booking [JNum 12 0];
       McpServer.CancelTicket (JNum 12 0) ],
     Returned (lit "Booking cancelled"))
  /\
  McpServer.cancel_booking (host_at 1600000000000 "passenger" 8 false)
    (JNum 12 0) []
  = ([ McpServer.PoolExecute McpServer.users_by_key
         [JStr (lit "tp_1700000000_s3cr3t")];
       McpServer.PoolExecute McpServer.owner_of_booking [JNum 12 0] ],
     Returned (McpServer.cross :: lit " Access denied."))
  /\
  exists calls text,
    McpServer.cancel_booking (host_at 1600000000000 "passenger" 8 false)
      (JNum 12 0) []
    = ([] ++ calls, Returned text) /\
    forall cancelled, In (McpServer.CancelTicket cancelled) calls ->
      cancelled = JNum 12 0.
Proof.
  split; [vm_compute; reflexivity|]. split; [vm_compute; reflexivity|].
  destruct (cancel_booking_checks_the_owner
              (host_at 1600000000000 "passenger" 8 false) (JNum 12 0) [])
    as (calls & text & Hrun & Honly).
  exists calls, text. split; [exact Hrun|].
  intros cancelled Hin. exact (proj1 (Honly cancelled Hin)).
Defined.

Section ImportFacts.

Variables (host : McpServer.Host) (user : JValue)
  (routes : list McpServer.RouteImport).

(** The transaction, from [beginTransaction] to [release]. *)
Lemma transaction_runs (h : list McpServer.Call) :
  let transaction :=
    McpServer.try_finally
      (McpServer.try_catch
         (McpServer.bind
            (McpServer.perform McpServer.BeginTransaction
               (McpServer.beginTransaction host))
            (fun _ =>
               McpServer.bind (McpServer.create_routes host user routes 0)
                 (fun addedCount =>
                    McpServer.bind
                      (McpServer.perform McpServer.Commit
                         (McpServer.commit host))
                      (fun _ =>
                         McpServer.ret (McpServer.msg_imported addedCount)))))
         (fun dbError =>
            McpServer.bind
              (McpServer.perform McpServer.Rollback (McpServer.rollback host))
              (fun _ => McpServer.throw dbError)))
      McpServer.Release in
  (exists inserts,
     transaction h
     = (h ++ McpServer.BeginTransaction
          :: inserts ++ [McpServer.Commit; McpServer.Release],
        Returned (McpServer.msg_imported (List.length routes))) /\
     forallb is_insert inserts = true /\
     List.length inserts = planned_inserts routes)
  \/
  (exists work e,
     transaction h
     = (h ++ McpServer.BeginTransaction
          :: work ++ [McpServer.Rollback; McpServer.Release],
        Threw e)).
Proof.
  intros transaction. subst transaction.
  cbv [McpServer.try_finally McpServer.try_catch McpServer.bind
       McpServer.perform McpServer.ret McpServer.throw].
  destruct (McpServer.beginTransaction host h) as [[]|e].
  2:{ right. exists [].
      destruct (McpServer.rollback host (h ++ [McpServer.BeginTransaction]))
        as [[]|e2]; eexists; rewrite <- !app_assoc; reflexivity. }
  destruct (create_routes_calls host user routes 0
              (h ++ [McpServer.BeginTransaction]))
    as (inserts & o & -> & Hall & Hlen).
  destruct o as [addedCount|e].
  2:{ right. exists inserts.
      destruct (McpServer.rollback host
                  ((h ++ [McpServer.BeginTransaction]) ++ inserts))
        as [[]|e2]; eexists; rewrite <- !app_assoc; reflexivity. }
  destruct (Hlen addedCount eq_refl) as [-> Hcount].
  destruct (McpServer.commit host
              ((h ++ [McpServer.BeginTransaction]) ++ inserts)) as [[]|e].
  - left. exists inserts. rewrite <- !app_assoc. repeat split; auto.
  - right. exists (inserts ++ [McpServer.Commit]).
    destruct (McpServer.rollback host
                (((h ++ [McpServer.BeginTransaction]) ++ inserts)
                 ++ [McpServer.Commit]))
      as [[]|e2]; eexists; rewrite <- !app_assoc; reflexivity.
Qed.

End ImportFacts.

(** [import_routes_bulk] always answers with a text, and a run of it is
    all or nothing: either no connection is taken, or every planned row
    is inserted and the transaction is committed, or the transaction is
    rolled back; a connection that was taken is released in the end.  A
    connection is taken only for a user whose role is [operator] or
    [admin]. *)
Theorem import_is_all_or_nothing (host : McpServer.Host)
    (routes : list McpServer.RouteImport) (h : list McpServer.Call) :
  exists calls text,
    McpServer.import_routes_bulk host routes h = (h ++ calls, Returned text) /\
    ImportRun routes calls text /\
    (In McpServer.GetConnection calls ->
     exists h1 user role,
       McpServer.getAuthenticatedUser host h = (h1, Returned user) /\
       get_prop user (lit "role") = Returned role /\
       is_string role (lit "operator") || is_string role (lit "admin") = true).
Proof.
  unfold McpServer.import_routes_bulk.
  unfold McpServer.try_catch at 1, McpServer.bind at 1.
  destruct (getAuthenticatedUser_calls host h) as (queries & o & Hauth & Hq).
  rewrite Hauth.
  assert (Hquiet : ~ In McpServer.GetConnection queries).
  { intros Hin. rewrite forallb_forall in Hq. apply Hq in Hin. discriminate. }
  destruct o as [user|e].
  2:{ eexists queries, _. split; [reflexivity|]. split; [|contradiction].
      apply Refused; [assumption|discriminate]. }
  unfold McpServer.bind at 1, McpServer.lift.
  destruct (get_prop user (lit "role")) as [role|e] eqn:Hrole.
  2:{ eexists queries, _. split; [reflexivity|]. split; [|contradiction].
      apply Refused; [assumption|discriminate]. }
  destruct (negb (is_string role (lit "operator"))
            && negb (is_string role (lit "admin"))) eqn:Hgate.
  { eexists queries, _. split; [reflexivity|]. split; [|contradiction].
    apply Refused; [assumption|discriminate]. }
  assert (Hallowed : exists h1 user' role',
            (h ++ queries, Returned user) = (h1, Returned user') /\
            get_prop user' (lit "role") = Returned role' /\
            is_string role' (lit "operator") || is_string role' (lit "admin")
            = true).
  { exists (h ++ queries), user, role. split; [reflexivity|].
    split; [assumption|].
    destruct (is_string role (lit "operator"));
      destruct (is_string role (lit "admin")); (reflexivity || discriminate). }
  unfold McpServer.bind at 1, McpServer.perform at 1.
  destruct (McpServer.getConnection host (h ++ queries)) as [[]|e].
  2:{ eexists (queries ++ [McpServer.GetConnection]), _.
      rewrite <- app_assoc. split; [reflexivity|]. split; [|auto].
      now apply NoConnection. }
  destruct (transaction_runs host user routes
              ((h ++ queries) ++ [McpServer.GetConnection]))
    as [(inserts & Hrun & Hall & Hlen)|(work & e & Hrun)];
    cbv zeta in Hrun; rewrite Hrun; rewrite <- !app_assoc; cbn [app].
  - eexists (queries ++ _), _. split; [reflexivity|]. split; [|auto].
    now apply Imported.
  - eexists (queries ++ _), _. split; [reflexivity|]. split; [|auto].
    now apply RolledBack.
Qed.

Lemma import_is_all_or_nothing_witness :
  snd (McpServer.import_routes_bulk
         (host_at 1600000000000 "operator" 7 false) sample_routes [])
  = Returned (McpServer.msg_imported 1)
  /\
  snd (McpServer.import_routes_bulk
         (host_at 1600000000000 "passenger" 7 false) sample_routes [])
  = Returned McpServer.msg_permission_denied
  /\
  exists calls text,
    McpServer.import_routes_bulk
      (host_at 1600000000000 "operator" 7 true) sample_routes []
    = ([] ++ calls, Returned text) /\
    ImportRun sample_routes calls text /\
    In McpServer.Rollback calls.
Proof.
  split; [vm_compute; reflexivity|]. split; [vm_compute; reflexivity|].
  destruct (import_is_all_or_nothing
              (host_at 1600000000000 "operator" 7 true) sample_routes [])
    as (calls & text & Hrun & Hshape & _).
  exists calls, text. split; [exact Hrun|]. split; [exact Hshape|].
  vm_compute in Hrun. injection Hrun as <- _.
  do 4 right. left. reflexivity.
Defined.

(** * The sibling versions of the service *)

Section YieldFacts.

Context {A B : Type}.

Lemma yields_ret (P : A -> Prop) (a : A) : P a -> yields P (ret a).
Proof. intros H x [= <-]. exact H. Qed.

Lemma yields_throw (P : A -> Prop) (e : JsError) : yields P (@throw A e).
Proof. intros x H. discriminate. Qed.

Lemma yields_bind (P : B -> Prop) (m : Eff A) (k : A -> Eff B) :
  (forall a, yields P (k a)) -> yields P (bind m k).
Proof.
  intros Hk b. destruct m as [t [a|e]]; simpl; [|discriminate].
  specialize (Hk a b). destruct (k a). exact Hk.
Qed.

Lemma yields_try_catch (P : A -> Prop) (m : Eff A) (h : JsError -> Eff A) :
  yields P m -> (forall e, yields P (h e)) -> yields P (try_catch m h).
Proof.
  intros Hm Hh a. destruct m as [t [x|e]]; simpl.
  - apply Hm.
  - specialize (Hh e a). destruct (h e). exact Hh.
Qed.

End YieldFacts.

Ltac yield_steps :=
  repeat lazymatch goal with
  | |- yields _ (ret _) => apply yields_ret
  | |- yields _ (throw _) => apply yields_throw
  | |- yields _ (bind _ _) => apply yields_bind; intros ?
  | |- yields _ (try_catch _ _) => apply yields_try_catch; [|intros ?]
  | |- yields _ (if ?c then _ else _) => destruct c
  | |- yields _ (match ?x with _ => _ end) => destruct x
  end.

Section SiblingFacts.

Variables (version : Sibling.Version) (env : Env) (userMessage : jstr)
  (userId : Z).

(** What the switch returns at once is a text. *)
Lemma sibling_early_text (toolCall : JValue) :
  yields early_text (Sibling.executeTool env toolCall userId).
Proof.
  unfold Sibling.executeTool. yield_steps; simpl; try exact I;
    eexists; reflexivity.
Qed.

Lemma sibling_respond_returns (model content : jstr) :
  exists v,
    outcome (Sibling.respond version env userMessage userId model content)
    = Returned v.
Proof.
  unfold Sibling.respond, Sibling.handle_tool_call.
  destruct (Sibling.extractJson version content) as [jsonStr|];
    [|simpl; eauto].
  destruct (truthy (JStr jsonStr)); [|simpl; eauto].
  unfold try_catch.
  match goal with |- context [match ?m with _ => _ end] =>
    destruct m as [t [v|e]] end; simpl; eauto.
Qed.

Lemma sibling_try_models_returns (remaining : list jstr) :
  exists v,
    outcome (Sibling.try_models version env userMessage userId remaining)
    = Returned v.
Proof.
  induction remaining as [|m rest IH]; simpl; eauto.
  unfold try_catch.
  destruct (Sibling.attempt version env userMessage userId m)
    as [t [v|e]]; simpl; eauto.
  destruct IH as [v Hv].
  destruct (Sibling.try_models version env userMessage userId rest) as [t2 r].
  simpl in *. eauto.
Qed.

(** When the reply after the summary turn is a text, every reply is. *)
Lemma sibling_yields_text :
  (forall final toolResult,
     is_text (Sibling.final_reply version final toolResult)) ->
  yields is_text (Sibling.generateAIResponse version env userMessage userId).
Proof.
  intros Hfinal. unfold Sibling.generateAIResponse.
  induction models as [|m rest IH]; simpl.
  - apply yields_ret. eexists. reflexivity.
  - apply yields_try_catch; [|intros _; exact IH].
    unfold Sibling.attempt. apply yields_bind. intros response.
    unfold Sibling.respond, Sibling.handle_tool_call.
    destruct (Sibling.extractJson version _) as [jsonStr|];
      [|apply yields_ret; eexists; reflexivity].
    destruct (truthy (JStr jsonStr));
      [|apply yields_ret; eexists; reflexivity].
    apply yields_try_catch; [|intros _; apply yields_ret; eexists; reflexivity].
    destruct (JSON_parse jsonStr) as [toolCall|]; [|apply yields_throw].
    destruct (negb _); [apply yields_ret; eexists; reflexivity|].
    intros v Hv.
    pose proof (sibling_early_text toolCall) as Hearly.
    destruct (Sibling.executeTool env toolCall userId) as [t [r|e]];
      [|discriminate].
    specialize (Hearly r eq_refl).
    unfold bind in Hv. 
    destruct (Sibling.summarize version env userMessage m jsonStr r)
      as [t2 o] eqn:Hsum.
    simpl in Hv. subst o.
    destruct r as [reply|toolResult].
    + simpl in Hsum. injection Hsum as _ <-. exact Hearly.
    + unfold Sibling.summarize, call, bind in Hsum.
      destruct (chatCompletion env _) as [final|e]; [|discriminate].
      simpl in Hsum. injection Hsum as _ <-. apply Hfinal.
Qed.

End SiblingFacts.

(** The version without MCP answers every request with a text: what the
    summary turn leaves out is made up for by the result of the tool. *)
Theorem plain_version_answers_with_text (env : Env) (userMessage : jstr)
    (userId : Z) :
  exists text,
    outcome (Plain.generateAIResponse env userMessage userId)
    = Returned (JStr text).
Proof.
  destruct (sibling_try_models_returns Plain.version env userMessage userId
              models) as [v Hv].
  fold (Sibling.generateAIResponse Plain.version env userMessage userId) in Hv.
  fold (Plain.generateAIResponse env userMessage userId) in Hv.
  assert (Htext : is_text v).
  { apply (@sibling_yields_text Plain.version env userMessage userId);
      [|exact Hv].
    intros [[|c text]|] toolResult; eexists; reflexivity. }
  destruct Htext as [text ->]. eauto.
Qed.

(** ** What [JSON.parse] reads as an object *)

Section RestFacts.

Lemma rest_refl (s : jstr) : rest_of s s.
Proof. now exists []. Qed.

Lemma rest_trans (a b c : jstr) : rest_of a b -> rest_of b c -> rest_of a c.
Proof.
  intros [p ->] [q ->]. exists (q ++ p). now rewrite app_assoc.
Qed.

Lemma rest_cons (c : N) (r s : jstr) : rest_of r s -> rest_of r (c :: s).
Proof. intros [p ->]. now exists (c :: p). Qed.

Lemma rest_skipn (n : nat) (s : jstr) : rest_of (skipn n s) s.
Proof. exists (firstn n s). now rewrite firstn_skipn. Qed.

Lemma skip_ws_rest (s : jstr) : rest_of (skip_ws s) s.
Proof.
  induction s as [|c s IH]; simpl; [apply rest_refl|].
  destruct (is_json_ws c); [now apply rest_cons|apply rest_refl].
Qed.

(** The code unit the parser has just tested for stands before what is
    left. *)
Lemma char_then_rest (c : N) (s : jstr) :
  starts_with_char c (skip_ws s) = true -> rest_of (c :: tl (skip_ws s)) s.
Proof.
  intros H. pose proof (skip_ws_rest s) as Hs.
  destruct (skip_ws s) as [|x r]; [discriminate|]. simpl in *.
  apply N.eqb_eq in H. now subst x.
Qed.

Lemma tail_rest (c : N) (s : jstr) :
  starts_with_char c (skip_ws s) = true -> rest_of (tl (skip_ws s)) s.
Proof.
  intros H. apply char_then_rest in H.
  eapply rest_trans; [|exact H]. apply rest_cons, rest_refl.
Qed.

Lemma parse_string_body_rest (n : nat) :
  forall s b r, List.length s <= n -> parse_string_body s = Some (b, r) ->
    rest_of r s.
Proof.
  induction n as [|n IH]; intros s b r Hn.
  - destruct s; [discriminate|simpl in Hn; lia].
  - destruct s as [|c s]; [discriminate|]. simpl in Hn. simpl.
    destruct (c =? 34)%N.
    { intros H. injection H as _ <-. apply rest_cons, rest_refl. }
    destruct (c =? 92)%N.
    { destruct s as [|e s1]; [discriminate|].
      destruct (e =? 117)%N.
      - destruct s1 as [|a1 [|a2 [|a3 [|a4 s2]]]]; try discriminate.
        intros H. apply prepend_some in H as [b' H].
        apply IH in H; [|simpl in *; lia].
        now do 6 apply rest_cons.
      - intros H. apply prepend_some in H as [b' H].
        apply IH in H; [|simpl in *; lia].
        now do 2 apply rest_cons. }
    destruct (c <? 32)%N; [discriminate|].
    destruct (parse_string_body s) as [[b' r']|] eqn:H'; [|discriminate].
    intros H. injection H as _ <-. apply IH in H'; [|lia].
    now apply rest_cons.
Qed.

Lemma take_digits_rest (s d r : jstr) : take_digits s = (d, r) -> rest_of r s.
Proof.
  revert d r. induction s as [|c s IH]; simpl; intros d r.
  - intros H. injection H as <- <-. apply rest_refl.
  - destruct (is_digit c).
    + destruct (take_digits s) as [d' r']. intros H. injection H as <- <-.
      apply rest_cons. now apply (IH d').
    + intros H. injection H as <- <-. apply rest_refl.
Qed.

Lemma some_digits_rest (s d r : jstr) :
  some_digits s = Some (d, r) -> rest_of r s.
Proof.
  unfold some_digits. destruct (take_digits s) as [d' r'] eqn:Ht.
  apply take_digits_rest in Ht. destruct d'; [discriminate|].
  intros H. now injection H as <- <-.
Qed.

Lemma parse_number_rest (s : jstr) (v : JValue) (r : jstr) :
  parse_number s = Some (v, r) -> rest_of r s.
Proof.
  unfold parse_number.
  assert (Hm : rest_of (snd (take_minus s)) s).
  { unfold take_minus. destruct s as [|c s']; [apply rest_refl|].
    destruct (c =? 45)%N; simpl; [apply rest_cons|]; apply rest_refl. }
  destruct (take_minus s) as [neg s1]. simpl in Hm.
  destruct (scan_integer s1) as [[ds s2]|] eqn:Hi; [|discriminate].
  assert (H2 : rest_of s2 s1).
  { unfold scan_integer in Hi. destruct s1 as [|c s']; [discriminate|].
    destruct (c =? 48)%N.
    - injection Hi as _ <-. apply rest_cons, rest_refl.
    - now apply some_digits_rest in Hi. }
  destruct (scan_fraction s2) as [[fs s3]|] eqn:Hf; [|discriminate].
  assert (H3 : rest_of s3 s2).
  { unfold scan_fraction in Hf. destruct s2 as [|c s'].
    - injection Hf as _ <-. apply rest_refl.
    - destruct (c =? 46)%N.
      + apply some_digits_rest in Hf. now apply rest_cons.
      + injection Hf as _ <-. apply rest_refl. }
  destruct (scan_exponent s3) as [[ex s4]|] eqn:He; [|discriminate].
  assert (H4 : rest_of s4 s3).
  { unfold scan_exponent in He. destruct s3 as [|c s'].
    - injection He as _ <-. apply rest_refl.
    - destruct ((c =? 101) || (c =? 69))%N.
      + assert (Hs : rest_of (snd (take_sign s')) s').
        { unfold take_sign. destruct s' as [|x s'']; [apply rest_refl|].
          destruct (x =? 45)%N; [apply rest_cons, rest_refl|].
          destruct (x =? 43)%N; simpl; [apply rest_cons|]; apply rest_refl. }
        destruct (take_sign s') as [neg' r1]. simpl in Hs.
        destruct (some_digits r1) as [[d r2]|] eqn:Hd; [|discriminate].
        apply some_digits_rest in Hd. injection He as _ <-.
        apply rest_cons. eapply rest_trans; eassumption.
      + injection He as _ <-. apply rest_refl. }
  intros H. injection H as _ <-.
  eapply rest_trans; [exact H4|]. eapply rest_trans; [exact H3|].
  eapply rest_trans; eassumption.
Qed.

Lemma parse_literal_rest (s : jstr) (v : JValue) (r : jstr) :
  parse_literal s = Some (v, r) -> rest_of r s.
Proof.
  unfold parse_literal.
  destruct (starts_with (lit "true") s).
  { intros H. assert (r = skipn 4 s) as -> by congruence. apply rest_skipn. }
  destruct (starts_with (lit "false") s).
  { intros H. assert (r = skipn 5 s) as -> by congruence. apply rest_skipn. }
  destruct (starts_with (lit "null") s).
  { intros H. assert (r = skipn 4 s) as -> by congruence. apply rest_skipn. }
  apply parse_number_rest.
Qed.

(** What the parser returns as the rest is what follows the value it
    read; an object it read stands between an opening brace and a closing
    one. *)
Lemma parse_rest (fuel : nat) :
  (forall s v r, parse_value fuel s = Some (v, r) ->
     rest_of r s /\
     forall fields, v = JObj fields ->
       exists inside, skip_ws s = 123%N :: inside /\
                      rest_of (125%N :: r) inside) /\
  (forall acc s v r, parse_members fuel acc s = Some (v, r) ->
     rest_of (125%N :: r) s) /\
  (forall acc s v r, parse_elements fuel acc s = Some (v, r) ->
     rest_of r s).
Proof.
  induction fuel as [|fuel (IHv & IHm & IHe)];
    [repeat split; intros; discriminate|].
  split; [|split].
  - intros s v r. simpl. pose proof (skip_ws_rest s) as Hs.
    destruct (skip_ws s) as [|c s1]; [discriminate|].
    destruct (N.eqb_spec c 123) as [->|Hc].
    { assert (Hclosed : rest_of (125%N :: r) s1 ->
                rest_of r s /\
                forall fields, v = JObj fields ->
                  exists inside, 123%N :: s1 = 123%N :: inside /\
                                 rest_of (125%N :: r) inside).
      { intros Hin. split; [|intros fields _; now exists s1].
        eapply rest_trans; [|exact Hs]. apply rest_cons.
        eapply rest_trans; [|exact Hin]. apply rest_cons, rest_refl. }
      destruct (starts_with_char 125 (skip_ws s1)) eqn:Hclose.
      - intros H. injection H as _ <-. apply Hclosed.
        now apply char_then_rest.
      - intros H. apply Hclosed. now apply IHm in H. }
    assert (Hother : rest_of r (c :: s1) -> (forall fields, v <> JObj fields) ->
              rest_of r s /\
              forall fields, v = JObj fields ->
                exists inside, c :: s1 = 123%N :: inside /\
                               rest_of (125%N :: r) inside).
    { intros Hr Hv. split; [eapply rest_trans; eassumption|].
      intros fields Hf. now apply Hv in Hf. }
    destruct (c =? 91)%N.
    { destruct (starts_with_char 93 (skip_ws s1)) eqn:Hclose.
      - intros H. injection H as <- <-. apply Hother; [|discriminate].
        apply rest_cons. eapply tail_rest. eassumption.
      - intros H. pose proof (parse_elements_array _ _ _ H) as (items & ->).
        apply Hother; [|discriminate]. apply rest_cons. now apply IHe in H. }
    destruct (c =? 34)%N.
    { destruct (parse_string_body s1) as [[str rest]|] eqn:Hb; [|discriminate].
      apply (parse_string_body_rest (n := List.length s1)) in Hb; [|lia].
      intros H. injection H as <- <-. apply Hother; [|discriminate].
      now apply rest_cons. }
    intros H. apply Hother; [now apply parse_literal_rest in H|].
    intros fields ->. unfold parse_literal in H.
    destruct (starts_with (lit "true") (c :: s1)); [discriminate|].
    destruct (starts_with (lit "false") (c :: s1)); [discriminate|].
    destruct (starts_with (lit "null") (c :: s1)); [discriminate|].
    apply parse_number_is_number in H as (m & e & H). discriminate.
  - intros acc s v r. simpl.
    destruct (starts_with_char 34 (skip_ws s)) eqn:Hq; [|discriminate].
    apply tail_rest in Hq.
    destruct (parse_string_body (tl (skip_ws s))) as [[key r1]|] eqn:Hb;
      [|discriminate].
    apply (parse_string_body_rest (n := List.length (tl (skip_ws s))))
      in Hb; [|lia].
    destruct (starts_with_char 58 (skip_ws r1)) eqn:Hc; [|discriminate].
    apply tail_rest in Hc.
    destruct (parse_value fuel (tl (skip_ws r1))) as [[v1 r2]|] eqn:Hv;
      [|discriminate].
    apply IHv in Hv as [Hv _].
    assert (Hr2 : rest_of r2 s).
    { eapply rest_trans; [exact Hv|]. eapply rest_trans; [exact Hc|].
      eapply rest_trans; eassumption. }
    destruct (starts_with_char 44 (skip_ws r2)) eqn:Hcomma.
    { apply tail_rest in Hcomma. intros H. apply IHm in H.
      eapply rest_trans; [exact H|]. eapply rest_trans; eassumption. }
    destruct (starts_with_char 125 (skip_ws r2)) eqn:Hclose; [|discriminate].
    apply char_then_rest in Hclose. intros H. injection H as _ <-.
    eapply rest_trans; eassumption.
  - intros acc s v r. simpl.
    destruct (parse_value fuel s) as [[v1 r1]|] eqn:Hv; [|discriminate].
    apply IHv in Hv as [Hv _].
    destruct (starts_with_char 44 (skip_ws r1)) eqn:Hcomma.
    { apply tail_rest in Hcomma. intros H. apply IHe in H.
      eapply rest_trans; [exact H|]. eapply rest_trans; eassumption. }
    destruct (starts_with_char 93 (skip_ws r1)) eqn:Hclose; [|discriminate].
    apply tail_rest in Hclose. intros H. injection H as _ <-.
    eapply rest_trans; eassumption.
Qed.

(** A text that [JSON.parse] reads as an object holds an opening brace
    and, after it, a closing one. *)
Lemma parsed_object_has_braces (text : jstr) (fields : list (jstr * JValue)) :
  JSON_parse text = Some (JObj fields) ->
  exists a b c, text = a ++ 123%N :: b ++ 125%N :: c.
Proof.
  unfold JSON_parse.
  destruct (parse_value _ (skip_ws text)) as [[v r]|] eqn:Hp; [|discriminate].
  destruct (skip_ws r); [|discriminate]. intros [= ->].
  apply parse_rest in Hp as [_ Hobj].
  destruct (Hobj fields eq_refl) as (inside & Hopen & [b Hb]).
  destruct (skip_ws_rest (skip_ws text)) as [a2 Ha2].
  destruct (skip_ws_rest text) as [a1 Ha1].
  rewrite Hopen in Ha2. rewrite Ha2 in Ha1. subst inside.
  exists (a1 ++ a2), b, r. rewrite Ha1. now rewrite <- app_assoc.
Qed.

End RestFacts.

Section IndexFacts.

Lemma index_of_found (c : N) (a s : jstr) :
  exists i, index_of c (a ++ c :: s) = Some i /\ i <= List.length a.
Proof.
  induction a as [|x a (i & Hi & Hle)]; simpl.
  - rewrite N.eqb_refl. exists 0. auto.
  - destruct (N.eqb x c); [exists 0; split; [reflexivity|lia]|].
    rewrite Hi. exists (S i). split; [reflexivity|lia].
Qed.

Lemma last_index_of_found (c : N) (a s : jstr) :
  exists j, last_index_of c (a ++ c :: s) = Some j /\ List.length a <= j.
Proof.
  induction a as [|x a (j & Hj & Hle)]; simpl.
  - destruct (last_index_of c s) as [j|]; [exists (S j)|exists 0];
      rewrite ?N.eqb_refl; split; (reflexivity || lia).
  - rewrite Hj. exists (S j). split; [reflexivity|lia].
Qed.

(** A text with an opening brace before a closing one has a span from
    its first opening brace to its last closing one. *)
Lemma brace_span_found (a b c : jstr) :
  brace_span (a ++ 123%N :: b ++ 125%N :: c) <> None.
Proof.
  unfold brace_span, open_brace, close_brace.
  destruct (index_of_found 123 a (b ++ 125%N :: c)) as (i & -> & Hi).
  replace (a ++ 123%N :: b ++ 125%N :: c)
    with ((a ++ 123%N :: b) ++ 125%N :: c)
    by (now rewrite <- app_assoc).
  destruct (last_index_of_found 125 (a ++ 123%N :: b) c) as (j & -> & Hj).
  rewrite length_app in Hj. simpl in Hj.
  assert (Hlt : (i <? j) = true) by (apply Nat.ltb_lt; lia).
  rewrite Hlt. discriminate.
Qed.

End IndexFacts.

Lemma valid_call_is_object (toolCall : JValue) :
  Service.isValidToolCall toolCall = true ->
  exists fields, toolCall = JObj fields.
Proof.
  unfold Service.isValidToolCall.
  destruct toolCall; simpl; try discriminate; eauto;
    rewrite ?andb_false_r; discriminate.
Qed.
(** ** The fallback loop of the sibling versions *)

Section SiblingLoop.

Variables (version : Sibling.Version) (env : Env) (userMessage : jstr)
  (userId : Z).

Lemma sibling_attempt_failed (m : jstr) (e : JsError) :
  chatCompletion env (Sibling.first_request version userMessage m) = Threw e ->
  Sibling.attempt version env userMessage userId m
  = ([EvChat (Sibling.first_request version userMessage m)], Threw e).
Proof. intros H. unfold Sibling.attempt, call, bind. now rewrite H. Qed.

Lemma sibling_attempt_answered (m : jstr) (reply : option jstr) :
  chatCompletion env (Sibling.first_request version userMessage m)
  = Returned reply ->
  let r := Sibling.respond version env userMessage userId m
             (match reply with Some text => text | None => [] end) in
  Sibling.attempt version env userMessage userId m
  = (EvChat (Sibling.first_request version userMessage m) :: trace r,
     outcome r).
Proof.
  intros H r. unfold Sibling.attempt, call, bind. rewrite H. subst r.
  now destruct (Sibling.respond version env userMessage userId m _).
Qed.

Lemma sibling_skips_failed (failed remaining : list jstr) :
  (forall m, In m failed -> exists e,
     chatCompletion env (Sibling.first_request version userMessage m)
     = Threw e) ->
  let r := Sibling.try_models version env userMessage userId remaining in
  Sibling.try_models version env userMessage userId (failed ++ remaining)
  = (map (fun m => EvChat (Sibling.first_request version userMessage m)) failed
       ++ trace r, outcome r).
Proof.
  intros Hfail r. induction failed as [|m failed IH]; simpl.
  - subst r.
    now destruct (Sibling.try_models version env userMessage userId remaining).
  - destruct (Hfail m) as [e He]; [now left|].
    rewrite (sibling_attempt_failed _ He). simpl.
    rewrite IH by (intros; apply Hfail; now right). reflexivity.
Qed.

(** Once a model has answered its first request, the reply of the whole
    function is decided by [respond] on that answer. *)
Lemma sibling_answered (failed : list jstr) (model : jstr)
    (reply : option jstr) :
  sibling_first_answer version env userMessage failed model reply ->
  let r := Sibling.respond version env userMessage userId model
             (match reply with Some text => text | None => [] end) in
  Sibling.generateAIResponse version env userMessage userId
  = (sibling_first_requests version userMessage failed model ++ trace r,
     outcome r).
Proof.
  intros ((rest & Hmodels) & Hfail & Hans) r.
  unfold Sibling.generateAIResponse. rewrite Hmodels.
  rewrite sibling_skips_failed by assumption.
  cbn [Sibling.try_models]. rewrite (sibling_attempt_answered _ Hans). fold r.
  destruct (sibling_respond_returns version env userMessage userId model
              (match reply with Some text => text | None => [] end))
    as [v Hv]. fold r in Hv.
  unfold try_catch. destruct r as [t o]. simpl in *. subst o.
  unfold sibling_first_requests. rewrite map_app. simpl.
  now rewrite <- app_assoc.
Qed.

End SiblingLoop.

(** In the version whose extractor falls back to the whole cleaned text,
    that fall-back never makes a tool call: a reply in which, once
    cleaned, no opening brace stands before a closing one is answered as
    it is, after nothing but the first requests. *)
Theorem lenient_version_answers_plain_text (env : Env) (userMessage : jstr)
    (userId : Z) (failed : list jstr) (model content : jstr) :
  sibling_first_answer Lenient.version env userMessage failed model
    (Some content) ->
  brace_span (clean_text content) = None ->
  extractJson_or_clean content = Some (clean_text content) /\
  Lenient.generateAIResponse env userMessage userId
  = (sibling_first_requests Lenient.version userMessage failed model,
     Returned (JStr content)).
Proof.
  intros Hans Hnone.
  assert (Hex : extractJson_or_clean content = Some (clean_text content))
    by (unfold extractJson_or_clean; now rewrite Hnone).
  split; [exact Hex|].
  unfold Lenient.generateAIResponse.
  rewrite (sibling_answered userId Hans).
  unfold Sibling.respond, Sibling.handle_tool_call.
  cbn [Sibling.extractJson Sibling.isValidToolCall Lenient.version].
  rewrite Hex.
  assert (Hplain : forall toolCall,
            JSON_parse (clean_text content) = Some toolCall ->
            Service.isValidToolCall toolCall = false).
  { intros toolCall Hparse.
    destruct (Service.isValidToolCall toolCall) eqn:Hvalid; [|reflexivity].
    apply valid_call_is_object in Hvalid as [fields ->].
    apply parsed_object_has_braces in Hparse as (a & b & c & Htext).
    rewrite Htext in Hnone. now apply brace_span_found in Hnone. }
  destruct (truthy (JStr (clean_text content)));
    [|simpl; now rewrite app_nil_r].
  destruct (JSON_parse (clean_text content)) as [toolCall|] eqn:Hparse.
  - rewrite (Hplain toolCall eq_refl). simpl. now rewrite app_nil_r.
  - simpl. now rewrite app_nil_r.
Qed.

Lemma lenient_version_answers_plain_text_witness :
  extractJson_or_clean plain_reply = Some (clean_text plain_reply) /\
  Lenient.generateAIResponse env_first_down (lit "hello") 1
  = (sibling_first_requests Lenient.version (lit "hello")
       [lit "mistralai/Mixtral-8x7B-Instruct-v0.1"]
       (lit "NousResearch/Hermes-2-Pro-Mistral-7B"),
     Returned (JStr plain_reply)).
Proof.
  apply (@lenient_version_answers_plain_text env_first_down (lit "hello") 1
           [lit "mistralai/Mixtral-8x7B-Instruct-v0.1"]
           (lit "NousResearch/Hermes-2-Pro-Mistral-7B") plain_reply).
  - repeat split.
    + eexists. reflexivity.
    + intros m [<-|[]]. eexists. reflexivity.
  - vm_compute. reflexivity.
Defined.

(** ** What the main version returns *)

Section MainReplies.

Variables (env : Env) (st : McpState) (userMessage : jstr) (userId : Z).

Lemma executeTool_early_text (toolCall : JValue) :
  yields early_text (executeTool env st toolCall userId).
Proof.
  unfold executeTool. yield_steps; simpl; try exact I;
    eexists; reflexivity.
Qed.

End MainReplies.

(** What [generateAIResponse] returns is a text, or [undefined]; and it
    is [undefined] only when a summary request resolved without
    content. *)
Theorem reply_is_text_or_undefined (env : Env) (st : McpState)
    (userMessage : jstr) (userId : Z) :
  exists reply,
    outcome (generateAIResponse env st userMessage userId) = Returned reply /\
    (is_text reply \/
     reply = JUndefined /\
     exists instruction model jsonStr toolResult,
       builds env st instruction /\
       chatCompletion env
         (summary_request instruction userMessage model jsonStr toolResult)
       = Returned None).
Proof.
  destruct (try_models_returns env st userMessage userId models) as [v Hv].
  fold (generateAIResponse env st userMessage userId) in Hv.
  exists v. split; [exact Hv|]. revert v Hv.
  set (P := fun reply =>
         is_text reply \/
         reply = JUndefined /\
         exists instruction model jsonStr toolResult,
           builds env st instruction /\
           chatCompletion env
             (summary_request instruction userMessage model jsonStr toolResult)
           = Returned None).
  change (yields P (generateAIResponse env st userMessage userId)).
  unfold generateAIResponse.
  assert (Htext : forall s : jstr, P (JStr s))
    by (intros s; left; eexists; reflexivity).
  destruct (buildSystemInstruction_cases env st) as [[instruction Hb]|[e He]].
  2:{ rewrite (try_models_unbuilt env st userMessage userId models He).
      apply yields_ret, Htext. }
  induction models as [|m rest IH]; simpl.
  - apply yields_ret, Htext.
  - apply yields_try_catch; [|intros _; exact IH].
    unfold attempt. rewrite (builds_run Hb), bind_ret. cbv zeta.
    apply yields_bind. intros response.
    unfold respond, handle_tool_call.
    destruct (extractJson _) as [jsonStr|]; [|apply yields_ret, Htext].
    destruct (truthy (JStr jsonStr)); [|apply yields_ret, Htext].
    apply yields_try_catch; [|intros _; apply yields_ret, Htext].
    destruct (JSON_parse jsonStr) as [toolCall|]; [|apply yields_throw].
    destruct (negb _); [apply yields_ret, Htext|].
    intros v Hv.
    pose proof (executeTool_early_text env st userId toolCall) as Hearly.
    destruct (executeTool env st toolCall userId) as [t [r|e]];
      [|discriminate].
    specialize (Hearly r eq_refl).
    unfold bind in Hv.
    destruct (summarize env st userMessage m jsonStr r) as [t2 o] eqn:Hsum.
    simpl in Hv. subst o.
    destruct r as [reply|toolResult].
    + simpl in Hsum. injection Hsum as _ <-. now left.
    + rewrite (summarize_built _ _ _ _ Hb) in Hsum.
      unfold call, bind in Hsum. cbv zeta in Hsum.
      destruct (chatCompletion env _) as [[text|]|e] eqn:Hfinal;
        [| |discriminate]; simpl in Hsum; injection Hsum as _ <-.
      * apply Htext.
      * right. split; [reflexivity|].
        exists instruction, m, jsonStr, toolResult. now split.
Qed.

(** ** The summary turn of the version without MCP *)

Section PlainFacts.

Lemma plain_valid_is_valid (toolCall : JValue) :
  Plain.isValidToolCall toolCall = true ->
  Service.isValidToolCall toolCall = true.
Proof.
  unfold Plain.isValidToolCall, Service.isValidToolCall.
  destruct (truthy toolCall); [|discriminate].
  destruct (is_object_type toolCall); [|discriminate].
  now rewrite !andb_true_l.
Qed.

Lemma sibling_executeTool_search (env : Env) (userId : Z)
    (toolCall args : JValue) :
  calls_tool toolCall (lit "search_trips") args ->
  Sibling.executeTool env toolCall userId
  = (r <- call (EvSearchTrips (arg_value args (lit "query")))
               (searchTrips env (arg_value args (lit "query")));;
     ret (inr r)).
Proof.
  intros Hcall. pose proof (calls_tool_args Hcall) as Harg.
  destruct Hcall as (_ & Htool & Hargs). unfold Sibling.executeTool.
  rewrite Htool, Hargs, !bind_lift_returned.
  change (is_string (JStr (lit "search_trips")) (lit "search_trips")) with true.
  cbv iota. now rewrite Harg, bind_lift_returned.
Qed.

End PlainFacts.

(** In the version without MCP a search whose summary comes without
    content, or with an empty one, is answered with the result of the
    search itself; a summary with content is the reply, and a summary
    request that fails is answered with the raw text of the model. *)
Theorem plain_version_falls_back_to_the_result (env : Env)
    (userMessage : jstr) (userId : Z) (failed : list jstr)
    (model content jsonStr : jstr) (toolCall args : JValue) (found : jstr) :
  sibling_first_answer Plain.version env userMessage failed model
    (Some content) ->
  extractJson_first_to_last content = Some jsonStr ->
  JSON_parse jsonStr = Some toolCall ->
  Plain.isValidToolCall toolCall = true ->
  get_prop toolCall (lit "tool") = Returned (JStr (lit "search_trips")) ->
  get_prop toolCall (lit "args") = Returned args ->
  searchTrips env (arg_value args (lit "query")) = Returned found ->
  let req := Plain.summary_request userMessage model jsonStr found in
  Plain.generateAIResponse env userMessage userId
  = (sibling_first_requests Plain.version userMessage failed model
     ++ [EvSearchTrips (arg_value args (lit "query")); EvChat req],
     Returned (JStr (match chatCompletion env req with
                     | Returned (Some (c :: text)) => c :: text
                     | Returned _ => found
                     | Threw _ => content
                     end))).
Proof.
  intros Hans Hex Hparse Hvalid Htool Hargs Hfound req.
  unfold Plain.generateAIResponse.
  rewrite (sibling_answered userId Hans).
  unfold Sibling.respond, Sibling.handle_tool_call.
  cbn [Sibling.extractJson Sibling.isValidToolCall Plain.version].
  rewrite Hex, (json_text_nonempty _ Hparse), Hparse, Hvalid. cbn [negb].
  rewrite (@sibling_executeTool_search env userId toolCall args)
    by (repeat split; auto using plain_valid_is_valid).
  rewrite Hfound.
  unfold Sibling.summarize, call, bind, ret, try_catch.
  cbn [Sibling.summary_request Sibling.final_reply Plain.version].
  fold req.
  destruct (chatCompletion env req) as [[[|c text]|]|e]; reflexivity.
Qed.

Lemma plain_version_falls_back_to_the_result_witness :
  Plain.generateAIResponse env_mute_summary (lit "find buses to Goa") 1
  = (sibling_first_requests Plain.version (lit "find buses to Goa") []
       first_model
     ++ [ EvSearchTrips (JStr (lit "Goa"));
          EvChat (Plain.summary_request (lit "find buses to Goa") first_model
                    search_call (lit "3 buses found")) ],
     Returned (JStr (lit "3 buses found"))).
Proof.
  apply (@plain_version_falls_back_to_the_result env_mute_summary
           (lit "find buses to Goa") 1 [] first_model search_call search_call
           (parsed search_call) (JObj [(lit "query", JStr (lit "Goa"))])
           (lit "3 buses found")).
  - split; [eexists; reflexivity | split; [intros ? [] | reflexivity]].
  - vm_compute. reflexivity.
  - vm_compute. reflexivity.
  - reflexivity.
  - reflexivity.
  - reflexivity.
  - reflexivity.
Defined.


(** * The system instruction *)


(** Extra (system instruction, [buildSystemInstruction]): building the
    instruction calls nothing outside, and an instruction that is built is
    the clock header, the fixed base text, one block for each tool of the
    registry in the order of the registry, and the fixed closing rules;
    the block of a tool carries its name and description and one parameter
    line for each property of its schema, in the order of enumeration. *)
Theorem instruction_announces_the_registry
    (now : Manifest.Clock) (tools : list McpTool) (text : jstr) :
  outcome (Manifest.buildSystemInstruction now tools) = Returned text ->
  trace (Manifest.buildSystemInstruction now tools) = []
  /\ exists blocks,
       text = Manifest.header now ++ Manifest.SYSTEM_INSTRUCTION_BASE
              ++ List.concat blocks ++ Manifest.closing_instructions
       /\ Forall2
            (fun tool block =>
               Manifest.announced tool (Manifest.parameter_names tool) block)
            tools blocks.
Proof.
  intros Hbuilt.
  assert (H : quietly
                (fun text => exists blocks,
                   text = Manifest.header now ++ Manifest.SYSTEM_INSTRUCTION_BASE
                          ++ List.concat blocks ++ Manifest.closing_instructions
                   /\ Forall2
                        (fun tool block =>
                           Manifest.announced tool (Manifest.parameter_names tool)
                                              block)
                        tools blocks)
                (Manifest.buildSystemInstruction now tools)).
  { unfold Manifest.buildSystemInstruction.
    eapply quietly_bind; [apply render_tools_blocks|].
    intros listed [blocks [-> Hblocks]].
    apply quietly_ret. now exists blocks. }
  destruct H as [Htrace Hshape]. split; [exact Htrace|].
  apply Hshape, Hbuilt.
Qed.

Lemma instruction_announces_the_registry_witness :
  exists text,
    outcome (Manifest.buildSystemInstruction Manifest.sample_clock fallback_tools)
    = Returned text
    /\ trace (Manifest.buildSystemInstruction Manifest.sample_clock fallback_tools)
       = []
    /\ exists blocks,
         text = Manifest.header Manifest.sample_clock
                ++ Manifest.SYSTEM_INSTRUCTION_BASE
                ++ List.concat blocks ++ Manifest.closing_instructions
         /\ Forall2
              (fun tool block =>
                 Manifest.announced tool (Manifest.parameter_names tool) block)
              fallback_tools blocks.
Proof.
  eexists. split; [vm_compute; reflexivity|].
  apply (@instruction_announces_the_registry Manifest.sample_clock fallback_tools).
  vm_compute. reflexivity.
Defined.
